(** * StatusBeat editor: a shallow embedding of [src/components/Editor.tsx]

    The editor is a React function component.  Its pure drawing code is
    embedded as functions producing the list of 2D-context calls of one
    frame; its stateful part (React state, refs, effects with their
    dependency arrays, the closures captured by platform callbacks, the
    [requestAnimationFrame] queue and the recording timer) is embedded as
    an explicit state record with one transition function per handler.

    React: a handler runs to completion; the state updates it made are
    applied together and followed by one render; after a render the
    effects whose dependencies changed run in the order of their
    declaration, cleanup first.  A function created by a render closes
    over the state of that render; refs are read when the function runs.

    Numbers: JavaScript numbers are modelled by exact rationals [Q];
    [Date.now()] is an integer number of milliseconds [Z].
    Strings: [string], one [ascii] per code unit (code units below 256). *)

From Stdlib Require Import ZArith QArith Qround Qminmax Lqa Lia.
From Stdlib Require Import List String Ascii Bool.
Import ListNotations.

(** ** JavaScript helpers *)

Module JS.
Local Open Scope string_scope.

(** [a > b] and [a >= b] on numbers. *)
Definition gt (a b : Q) : bool := negb (Qle_bool a b).
Definition ge (a b : Q) : bool := Qle_bool b a.

(** Truthiness of a string-or-null value ([null] and [''] are falsy). *)
Definition truthy (s : option string) : bool :=
  match s with
  | None => false
  | Some EmptyString => false
  | Some _ => true
  end.

(** [s.split(sep)] for a one-character separator: the pieces between the
    occurrences of [sep], empty pieces included. *)
Fixpoint split (sep : ascii) (s : string) : list string :=
  match s with
  | EmptyString => [EmptyString]
  | String c s' =>
      if Ascii.eqb c sep then EmptyString :: split sep s'
      else match split sep s' with
           | [] => [String c EmptyString]
           | w :: ws => String c w :: ws
           end
  end.

(** [l.join(sep)]. *)
Fixpoint join (sep : string) (l : list string) : string :=
  match l with
  | [] => EmptyString
  | [w] => w
  | w :: ws => w ++ sep ++ join sep ws
  end.

(** The class [\s] of regular expressions, on code units below 256:
    TAB, LF, VT, FF, CR, SPACE and NO-BREAK SPACE. *)
Definition isWhiteSpace (c : ascii) : bool :=
  let n := nat_of_ascii c in
  ((9 <=? n) && (n <=? 13) || (n =? 32) || (n =? 160))%nat.

(** [s.replace(/\s+/g, rep)]: the scan goes left to right; at the first
    white-space character of a run the greedy [\s+] takes the whole run
    and [rep] is emitted once ([inRun] says the previous character was
    part of the match in progress). *)
Fixpoint replaceWs (rep : string) (inRun : bool) (s : string) : string :=
  match s with
  | EmptyString => EmptyString
  | String c s' =>
      if isWhiteSpace c
      then (if inRun then replaceWs rep true s' else rep ++ replaceWs rep true s')
      else String c (replaceWs rep false s')
  end.

Definition replaceWhitespaceRuns (rep s : string) : string := replaceWs rep false s.
End JS.

(** ** The 2D drawing context

    A frame is the list of context calls [drawVisualizer] makes, in
    order.  Angles are kept as multiples of pi ([Rotate q] is
    [ctx.rotate(q * Math.PI)]). *)

Module Canvas.
Local Open Scope Q_scope.

Inductive Style :=
| Css (c : string)                                  (* a CSS colour string *)
| Rgba (r g b a : Q)                                (* `rgba(r,g,b, a)` *)
| Hsl (hue : Q)                                     (* `hsl(hue, 100%, 50%)` *)
| LinearGradient (x0 y0 x1 y1 : Q) (stops : list (Q * string)).

Record Image := { src : string; complete : bool; width : Q; height : Q }.

Inductive Op :=
| SetFillStyle (s : Style)
| SetStrokeStyle (s : Style)
| SetLineWidth (w : Q)
| SetFont (f : string)
| SetTextAlign (a : string)
| SetShadowColor (c : string)
| SetShadowBlur (b : Q)
| FillRect (x y w h : Q)
| FillText (t : string) (x y : Q)
| DrawImage (img : Image) (sx sy sw sh dx dy dw dh : Q)
| Save
| Restore
| Translate (x y : Q)
| Rotate (piMultiple : Q)
| BeginPath
| Arc (x y r startPi endPi : Q)
| Stroke.

(** *** What a list of calls paints

    The drawing state of the context (the part [save]/[restore] keep),
    and the marks the calls leave on the bitmap.  [fillRect] with a zero
    width or height has no effect (HTML canvas: "if either height or
    width are zero, this method has no effect"). *)

Inductive Xform := XTranslate (x y : Q) | XRotate (piMultiple : Q).

Record Pen := mkPen {
  fillStyle : Style;
  strokeStyle : Style;
  lineWidth : Q;
  font : string;
  textAlign : string;
  shadowColor : string;
  shadowBlur : Q;
  transform : list Xform
}.

Record GState := mkG { pen : Pen; saved : list Pen; path : list Op }.

Inductive Mark :=
| MRect (fill : Style) (shadow : string * Q) (tf : list Xform) (x y w h : Q)
| MText (fill : Style) (fnt align : string) (shadow : string * Q)
        (tf : list Xform) (t : string) (x y : Q)
| MImage (shadow : string * Q) (tf : list Xform) (img : Image)
         (sx sy sw sh dx dy dw dh : Q)
| MStroke (stroke : Style) (lw : Q) (shadow : string * Q)
          (tf : list Xform) (segments : list Op).

Definition defaultPen : Pen :=
  mkPen (Css "#000000") (Css "#000000") 1 "10px sans-serif" "start"
        "rgba(0, 0, 0, 0)" 0 [].

Definition freshContext : GState := mkG defaultPen [] [].

Definition withPen (f : Pen -> Pen) (g : GState) : GState :=
  mkG (f (pen g)) (saved g) (path g).

Definition shadowOf (p : Pen) : string * Q := (shadowColor p, shadowBlur p).

Definition emptyRect (w h : Q) : bool := Qeq_bool w 0 || Qeq_bool h 0.

(** One call: the marks it leaves and the state after it. *)
Definition exec (g : GState) (o : Op) : list Mark * GState :=
  let p := pen g in
  match o with
  | SetFillStyle s =>
      ([], withPen (fun p => mkPen s (strokeStyle p) (lineWidth p) (font p)
                               (textAlign p) (shadowColor p) (shadowBlur p) (transform p)) g)
  | SetStrokeStyle s =>
      ([], withPen (fun p => mkPen (fillStyle p) s (lineWidth p) (font p)
                               (textAlign p) (shadowColor p) (shadowBlur p) (transform p)) g)
  | SetLineWidth w =>
      ([], withPen (fun p => mkPen (fillStyle p) (strokeStyle p) w (font p)
                               (textAlign p) (shadowColor p) (shadowBlur p) (transform p)) g)
  | SetFont f =>
      ([], withPen (fun p => mkPen (fillStyle p) (strokeStyle p) (lineWidth p) f
                               (textAlign p) (shadowColor p) (shadowBlur p) (transform p)) g)
  | SetTextAlign a =>
      ([], withPen (fun p => mkPen (fillStyle p) (strokeStyle p) (lineWidth p) (font p)
                               a (shadowColor p) (shadowBlur p) (transform p)) g)
  | SetShadowColor c =>
      ([], withPen (fun p => mkPen (fillStyle p) (strokeStyle p) (lineWidth p) (font p)
                               (textAlign p) c (shadowBlur p) (transform p)) g)
  | SetShadowBlur b =>
      ([], withPen (fun p => mkPen (fillStyle p) (strokeStyle p) (lineWidth p) (font p)
                               (textAlign p) (shadowColor p) b (transform p)) g)
  | FillRect x y w h =>
      (if emptyRect w h then []
       else [MRect (fillStyle p) (shadowOf p) (transform p) x y w h], g)
  | FillText t x y =>
      ([MText (fillStyle p) (font p) (textAlign p) (shadowOf p) (transform p) t x y], g)
  | DrawImage img sx sy sw sh dx dy dw dh =>
      ([MImage (shadowOf p) (transform p) img sx sy sw sh dx dy dw dh], g)
  | Save => ([], mkG p (p :: saved g) (path g))
  | Restore =>
      match saved g with
      | [] => ([], g)
      | q :: rest => ([], mkG q rest (path g))
      end
  | Translate x y =>
      ([], withPen (fun p => mkPen (fillStyle p) (strokeStyle p) (lineWidth p) (font p)
                               (textAlign p) (shadowColor p) (shadowBlur p)
                               (transform p ++ [XTranslate x y])) g)
  | Rotate a =>
      ([], withPen (fun p => mkPen (fillStyle p) (strokeStyle p) (lineWidth p) (font p)
                               (textAlign p) (shadowColor p) (shadowBlur p)
                               (transform p ++ [XRotate a])) g)
  | BeginPath => ([], mkG p (saved g) [])
  | Arc x y r a0 a1 => ([], mkG p (saved g) (path g ++ [Arc x y r a0 a1]))
  | Stroke =>
      ([MStroke (strokeStyle p) (lineWidth p) (shadowOf p) (transform p) (path g)], g)
  end.

Fixpoint paint (g : GState) (ops : list Op) : list Mark * GState :=
  match ops with
  | [] => ([], g)
  | o :: rest =>
      let (m, g1) := exec g o in
      let (ms, g2) := paint g1 rest in
      (m ++ ms, g2)
  end.

Definition marks (g : GState) (ops : list Op) : list Mark := fst (paint g ops).
End Canvas.

(** ** The frame renderer ([drawVisualizer] and the functions it calls) *)

Module Render.
Import Canvas.
Local Open Scope Q_scope.

Definition CANVAS_WIDTH : Q := 540.
Definition CANVAS_HEIGHT : Q := 960.

(** The props of the component. *)
Record SongData := { url : option string; name : string }.
Record VisualData := { backgroundImage : option string; caption : string }.

Inductive VisualizerMode := bars | circle.

(** The audio element, as far as the editor reads and writes it;
    [mediaDuration = None] is the [NaN] of an element without metadata. *)
Record Audio := mkAudio {
  currentTime : Q;
  mediaDuration : option Q;
  paused : bool
}.

(** The analyser node: [fftSize] is set to 256 when it is created, and
    the platform supplies the byte frequency data (magnitudes 0..255). *)
Record Analyser := { fftSize : nat; byteFrequencyData : list Z }.

Definition frequencyBinCount (a : Analyser) : nat := Nat.div (fftSize a) 2.

(** [new Uint8Array(n)] filled by [getByteFrequencyData]. *)
Definition getByteFrequencyData (a : Analyser) (n : nat) : list Z :=
  firstn n (byteFrequencyData a ++ repeat 0%Z n).

Definition ofNat (n : nat) : Q := inject_Z (Z.of_nat n).

Section Renderer.
Variable songData : SongData.
Variable visualData : VisualData.
(** [ctx.measureText(t).width] under the given font. *)
Variable measureText : string -> string -> Q.
(** [new Image()] with its [src] set: what the platform has of it. *)
Variable loadImage : string -> Image.

Definition drawImageCover (img : Image) (w h : Q) : list Op :=
  let ratio := Qmax (w / width img) (h / height img) in
  let centerShift_x := (w - width img * ratio) / 2 in
  let centerShift_y := (h - height img * ratio) / 2 in
  [DrawImage img 0 0 (width img) (height img) centerShift_x centerShift_y
             (width img * ratio) (height img * ratio)].

Definition drawBackground : list Op :=
  [SetFillStyle (Css "#000"); FillRect 0 0 CANVAS_WIDTH CANVAS_HEIGHT]
  ++ (if JS.truthy (backgroundImage visualData) then
        match backgroundImage visualData with
        | Some s =>
            let img := loadImage s in
            if complete img then drawImageCover img CANVAS_WIDTH CANVAS_HEIGHT else []
        | None => []
        end
      else
        [SetFillStyle (LinearGradient 0 0 0 CANVAS_HEIGHT
                         [(0, "#1e293b"%string); (1, "#0f172a"%string)]);
         FillRect 0 0 CANVAS_WIDTH CANVAS_HEIGHT])
  ++ [SetFillStyle (Css "rgba(0, 0, 0, 0.5)"); FillRect 0 0 CANVAS_WIDTH CANVAS_HEIGHT].

(** The [for] loop of [wrapText]: [n] is the loop index, [line] and
    [currentY] the two mutable locals; the call after the loop draws
    the last line. *)
Fixpoint wrapLoop (measure : string -> Q) (x maxWidth lineHeight : Q)
         (words : list string) (n : nat) (line : string) (currentY : Q) : list Op :=
  match words with
  | [] => [FillText line x currentY]
  | w :: rest =>
      let testLine := (line ++ w ++ " ")%string in
      let testWidth := measure testLine in
      if JS.gt testWidth maxWidth && Nat.ltb 0 n then
        FillText line x currentY
          :: wrapLoop measure x maxWidth lineHeight rest (S n) (w ++ " ")%string
                      (currentY + lineHeight)
      else
        wrapLoop measure x maxWidth lineHeight rest (S n) testLine currentY
  end.

Definition wrapText (measure : string -> Q) (text : string)
           (x y maxWidth lineHeight : Q) : list Op :=
  let words := JS.split " "%char text in
  wrapLoop measure x maxWidth lineHeight words 0 EmptyString y.

Definition drawText : list Op :=
  [SetFillStyle (Css "#ffffff"); SetFont "bold 36px Inter"; SetTextAlign "center";
   SetShadowColor "rgba(0,0,0,0.8)"; SetShadowBlur 10;
   FillText (name songData) (CANVAS_WIDTH / 2) (CANVAS_HEIGHT / 2 - 80);
   SetFont "22px Inter"; SetFillStyle (Css "#e2e8f0")]
  ++ (if JS.truthy (Some (caption visualData)) then
        let maxWidth := CANVAS_WIDTH - 60 in
        wrapText (measureText "22px Inter") (caption visualData)
                 (CANVAS_WIDTH / 2) (CANVAS_HEIGHT / 2 + 100) maxWidth 30
      else [])
  ++ [SetShadowBlur 0].

(** The loop of [drawBars] from index [i] with [count] iterations left. *)
Fixpoint drawBarsLoop (dataArray : list Z) (bufferLength : nat) (barWidth : Q)
         (count i : nat) (x : Q) : list Op :=
  match count with
  | O => []
  | S count' =>
      let barHeight := inject_Z (nth i dataArray 0%Z) * 1.5 in
      let r := barHeight + 25 * (ofNat i / ofNat bufferLength) in
      let g := 250 * (ofNat i / ofNat bufferLength) in
      let b := 50 in
      SetFillStyle (Rgba r g b 0.9)
        :: FillRect x (CANVAS_HEIGHT - barHeight - 120) barWidth barHeight
        :: drawBarsLoop dataArray bufferLength barWidth count' (S i) (x + barWidth + 1)
  end.

Definition drawBars (dataArray : list Z) (bufferLength : nat) : list Op :=
  let barWidth := (CANVAS_WIDTH / ofNat bufferLength) * 2.5 in
  drawBarsLoop dataArray bufferLength barWidth bufferLength 0 0.

Definition radius : Q := 150.
Definition segments : nat := 120.

Definition drawSegment (dataArray : list Z) (bufferLength : nat) (i : nat) : list Op :=
  let step := 360 / ofNat segments in
  let dataIndex := Qfloor (ofNat i * (ofNat bufferLength / 2) / ofNat segments) in
  let value := nth (Z.to_nat dataIndex) dataArray 0%Z in
  let barHeight := inject_Z value * 0.8 in
  let hue := ofNat i * 3 in
  [Rotate (step / 180); SetFillStyle (Hsl hue); FillRect 0 radius 4 barHeight].

Definition drawRing (cx cy : Q) : list Op :=
  [BeginPath; Arc cx cy (radius - 5) 0 2; SetStrokeStyle (Css "white");
   SetLineWidth 3; Stroke].

Definition drawCircle (dataArray : list Z) (bufferLength : nat) : list Op :=
  let cx := CANVAS_WIDTH / 2 in
  let cy := CANVAS_HEIGHT / 2 in
  [Save; Translate cx cy]
  ++ flat_map (drawSegment dataArray bufferLength) (seq 0 segments)
  ++ [Restore]
  ++ drawRing cx cy.

(** Step 3 of [drawVisualizer]: nothing at all without an analyser. *)
Definition drawSpectrum (mode : VisualizerMode) (analyserRef : option Analyser) : list Op :=
  match analyserRef with
  | Some a =>
      let bufferLength := frequencyBinCount a in
      let dataArray := getByteFrequencyData a bufferLength in
      match mode with
      | bars => drawBars dataArray bufferLength
      | circle => drawCircle dataArray bufferLength
      end
  | None => []
  end.

(** Step 4: the progress bar, when the audio element has a duration
    ([NaN] and 0 are falsy). *)
Definition drawProgress (audioRef : option Audio) : list Op :=
  match audioRef with
  | Some a =>
      match mediaDuration a with
      | Some d =>
          if Qeq_bool d 0 then []
          else
            let pct := currentTime a / d in
            [SetFillStyle (Css "#22c55e");
             FillRect 0 (CANVAS_HEIGHT - 6) (CANVAS_WIDTH * pct) 6]
      | None => []
      end
  | None => []
  end.

(** [canvas] says whether [canvasRef.current] and its 2D context exist. *)
Definition drawVisualizer (canvas : bool) (mode : VisualizerMode)
           (analyserRef : option Analyser) (audioRef : option Audio) : list Op :=
  if canvas then
    drawBackground ++ drawText ++ drawSpectrum mode analyserRef ++ drawProgress audioRef
  else [].
End Renderer.

(** The analysis frame whose every bucket is 0. *)
Definition silentAnalyser : Analyser :=
  {| fftSize := 256; byteFrequencyData := repeat 0%Z 128 |}.
End Render.

(** ** The component: state, refs, effects and handlers *)

Module Editor.
Export Render.
Local Open Scope Q_scope.

(** *** Data *)

(** An encoded chunk delivered by the recorder, by its size in bytes. *)
Definition Chunk := N.

(** [new Blob(parts, { type })]; an object URL is modelled by the blob
    it names. *)
Record Blob := mkBlob { blobParts : list Chunk; blobType : string }.

(** The [useState] cells that the code reads ([progress] is written by
    [ontimeupdate] and never read, it is left out). *)
Record ReactState := mkReact {
  isPlaying : bool;
  isRecording : bool;
  recordedVideoUrl : option Blob;
  visualizerMode : VisualizerMode;
  startTime : Q;
  duration : Q
}.

Definition setIsPlaying (v : bool) (s : ReactState) : ReactState :=
  mkReact v (isRecording s) (recordedVideoUrl s) (visualizerMode s) (startTime s) (duration s).
Definition setIsRecording (v : bool) (s : ReactState) : ReactState :=
  mkReact (isPlaying s) v (recordedVideoUrl s) (visualizerMode s) (startTime s) (duration s).
Definition setRecordedVideoUrl (v : option Blob) (s : ReactState) : ReactState :=
  mkReact (isPlaying s) (isRecording s) v (visualizerMode s) (startTime s) (duration s).
Definition setVisualizerMode (v : VisualizerMode) (s : ReactState) : ReactState :=
  mkReact (isPlaying s) (isRecording s) (recordedVideoUrl s) v (startTime s) (duration s).
Definition setStartTime (v : Q) (s : ReactState) : ReactState :=
  mkReact (isPlaying s) (isRecording s) (recordedVideoUrl s) (visualizerMode s) v (duration s).
Definition setDuration (v : Q) (s : ReactState) : ReactState :=
  mkReact (isPlaying s) (isRecording s) (recordedVideoUrl s) (visualizerMode s) (startTime s) v.

Definition initialState : ReactState := mkReact false false None bars 0 0.

Inductive RecorderState := inactive | recording.

(** A [MediaRecorder] with the two locals its [onstop] closure keeps
    ([selectedMimeType] is also its [mimeType] option, [startTime] is
    the state of the render that started it).  [stopQueued]: [stop()]
    was called and the [stop] event is still to be delivered. *)
Record MediaRecorder := mkRecorder {
  mimeType : string;
  state : RecorderState;
  stopQueued : bool;
  capturedStartTime : Q
}.

(** The four refs [initAudioContext] assigns. *)
Record AudioGraph := mkGraph {
  audioContextRef : bool;
  analyserRef : bool;
  sourceRef : bool;
  destRef : bool
}.

Record Refs := mkRefs {
  canvasRef : bool;
  audioRef : option Audio;
  graph : AudioGraph;
  animationFrameRef : nat;
  mediaRecorderRef : option MediaRecorder;
  chunksRef : list Chunk
}.

(** A callback given to [requestAnimationFrame], with the state of the
    render whose closure it is. *)
Inductive Callback :=
| Loop (closure : ReactState)
| DrawVisualizer (closure : ReactState).

(** The interval of the recording timer: [start] is the local of the
    effect ([Date.now()] when it ran); [lastTick] is the platform's, the
    time it armed the interval or last ran its callback. *)
Record Interval := mkInterval { start : Z; lastTick : Z }.


(** What the platform holds for the component: the pending animation
    frame callbacks (oldest first) and the next handle, the recording
    interval, the render whose closure [audio.onended] is, whether the
    one-shot click listener is registered, the alerts shown, the calls
    of [drawVisualizer] so far (newest last, each with the render whose
    closure made it), and whether [window] has an audio context class
    ([window.AudioContext || window.webkitAudioContext]; without one,
    [new AudioContextClass()] throws). *)
Record Host := mkHost {
  rafQueue : list (nat * Callback);
  rafNext : nat;
  interval : option Interval;
  onended : option ReactState;
  clickListener : bool;
  alerts : list string;
  drawLog : list ReactState;
  audioContextClass : bool
}.

Record Editor := mkEditor { react : ReactState; refs : Refs; host : Host }.

Definition onReact (f : ReactState -> ReactState) (e : Editor) : Editor :=
  mkEditor (f (react e)) (refs e) (host e).
Definition onRefs (f : Refs -> Refs) (e : Editor) : Editor :=
  mkEditor (react e) (f (refs e)) (host e).
Definition onHost (f : Host -> Host) (e : Editor) : Editor :=
  mkEditor (react e) (refs e) (f (host e)).

Definition withAudio (a : option Audio) (r : Refs) : Refs :=
  mkRefs (canvasRef r) a (graph r) (animationFrameRef r) (mediaRecorderRef r) (chunksRef r).
Definition withGraph (g : AudioGraph) (r : Refs) : Refs :=
  mkRefs (canvasRef r) (audioRef r) g (animationFrameRef r) (mediaRecorderRef r) (chunksRef r).
Definition withAnimationFrame (n : nat) (r : Refs) : Refs :=
  mkRefs (canvasRef r) (audioRef r) (graph r) n (mediaRecorderRef r) (chunksRef r).
Definition withRecorder (m : option MediaRecorder) (r : Refs) : Refs :=
  mkRefs (canvasRef r) (audioRef r) (graph r) (animationFrameRef r) m (chunksRef r).
Definition withChunks (c : list Chunk) (r : Refs) : Refs :=
  mkRefs (canvasRef r) (audioRef r) (graph r) (animationFrameRef r) (mediaRecorderRef r) c.

Definition withRaf (q : list (nat * Callback)) (next : nat) (h : Host) : Host :=
  mkHost q next (interval h) (onended h) (clickListener h) (alerts h) (drawLog h)
         (audioContextClass h).
Definition withInterval (i : option Interval) (h : Host) : Host :=
  mkHost (rafQueue h) (rafNext h) i (onended h) (clickListener h) (alerts h) (drawLog h)
         (audioContextClass h).
Definition withOnended (c : option ReactState) (h : Host) : Host :=
  mkHost (rafQueue h) (rafNext h) (interval h) c (clickListener h) (alerts h) (drawLog h)
         (audioContextClass h).
Definition withClickListener (b : bool) (h : Host) : Host :=
  mkHost (rafQueue h) (rafNext h) (interval h) (onended h) b (alerts h) (drawLog h)
         (audioContextClass h).
Definition withAlert (msg : string) (h : Host) : Host :=
  mkHost (rafQueue h) (rafNext h) (interval h) (onended h) (clickListener h)
         (alerts h ++ [msg]) (drawLog h) (audioContextClass h).
Definition withDraw (closure : ReactState) (h : Host) : Host :=
  mkHost (rafQueue h) (rafNext h) (interval h) (onended h) (clickListener h)
         (alerts h) (drawLog h ++ [closure]) (audioContextClass h).

(** *** The audio element

    The record keeps what the component sets; the advance of
    [currentTime] during playback is the platform's. *)

Definition seek (t : Q) (a : Audio) : Audio := mkAudio t (mediaDuration a) (paused a).
Definition play (a : Audio) : Audio := mkAudio (currentTime a) (mediaDuration a) false.
Definition pause (a : Audio) : Audio := mkAudio (currentTime a) (mediaDuration a) true.
Definition newAudio : Audio := mkAudio 0 None true.

(** *** Animation frames *)

(** [requestAnimationFrame(cb)]: the handle and the state after. *)
Definition requestAnimationFrame (cb : Callback) (e : Editor) : nat * Editor :=
  let id := rafNext (host e) in
  (id, onHost (withRaf (rafQueue (host e) ++ [(id, cb)]) (S id)) e).

Definition cancelAnimationFrame (id : nat) (e : Editor) : Editor :=
  onHost (fun h => withRaf (filter (fun p => negb (Nat.eqb (fst p) id)) (rafQueue h))
                           (rafNext h) h) e.

(** A call of [drawVisualizer] from the closure of render [c]: it draws
    when the canvas exists. *)
Definition callDrawVisualizer (c : ReactState) (e : Editor) : Editor :=
  if canvasRef (refs e) then onHost (withDraw c) e else e.

(** [loop], as closed over render [c]. *)
Definition loop (c : ReactState) (e : Editor) : Editor :=
  let e1 := callDrawVisualizer c e in
  if isPlaying c || isRecording c then
    let (id, e2) := requestAnimationFrame (Loop c) e1 in
    onRefs (withAnimationFrame id) e2
  else e1.

Definition runCallback (cb : Callback) (e : Editor) : Editor :=
  match cb with
  | Loop c => loop c e
  | DrawVisualizer c => callDrawVisualizer c e
  end.

(** One display refresh: the callbacks pending at its start run in the
    order they were requested; those they request wait for the next. *)
Definition animationFrame (e : Editor) : Editor :=
  let pending := rafQueue (host e) in
  let e0 := onHost (fun h => withRaf [] (rafNext h) h) e in
  fold_left (fun acc p => runCallback (snd p) acc) pending e0.

(** *** Platform answers the component depends on *)

(** What [new MediaRecorder(stream, options)] followed by
    [recorder.start()] does for a given [mimeType]. *)
Inductive RecorderOutcome := Starts | ConstructorThrows | StartThrows.

Definition mimeTypes : list string :=
  ["video/webm;codecs=vp9"; "video/webm;codecs=vp8"; "video/webm"; "video/mp4"]%string.

Definition unsupportedMessage : string := "Seu navegador não suporta gravação de vídeo.".
Definition startErrorMessage : string := "Erro ao iniciar gravação.".

(** The anchor [downloadVideo] clicks. *)
Record Anchor := mkAnchor { href : Blob; download : string }.

Definition modeEqb (a b : VisualizerMode) : bool :=
  match a, b with
  | bars, bars | circle, circle => true
  | _, _ => false
  end.

(** The [max] attribute of the start-time range input (its [min] is 0). *)
Definition sliderMax (d : Q) : Q := if JS.gt d 30 then d - 30 else 0.

Section Component.
Variable songData : SongData.
(** [MediaRecorder.isTypeSupported]. *)
Variable isTypeSupported : string -> bool.
Variable recorderOutcome : string -> RecorderOutcome.
(** Whether the platform has an audio context class. *)
Variable webAudio : bool.

(** *** Effects: the body of each [useEffect], closed over render [cur] *)

(** [useEffect(..., [isRecording])]: the recording timer. *)
Definition timerEffect (now : Z) (cur : ReactState) (e : Editor) : Editor :=
  if isRecording cur then onHost (withInterval (Some (mkInterval now now))) e else e.

Definition timerCleanup (e : Editor) : Editor := onHost (withInterval None) e.

(** [useEffect(..., [visualData.backgroundImage, visualizerMode])]. *)
Definition canvasEffect (cur : ReactState) (e : Editor) : Editor :=
  match audioRef (refs e) with
  | Some _ =>
      if canvasRef (refs e)
      then onHost (withClickListener true) (callDrawVisualizer cur e)
      else e
  | None => e
  end.

Definition canvasCleanup (e : Editor) : Editor := onHost (withClickListener false) e.

(** [useEffect(..., [isPlaying, visualizerMode])]: the scheduler.  It
    has no cleanup. *)
Definition schedulerEffect (cur : ReactState) (e : Editor) : Editor :=
  if isPlaying cur then
    let (id, e1) := requestAnimationFrame (Loop cur) e in
    onRefs (withAnimationFrame id) e1
  else
    let (_, e1) := requestAnimationFrame (Loop cur) e in   (* Draw one frame *)
    cancelAnimationFrame (animationFrameRef (refs e1)) e1.

(** [useEffect(..., [songData.url])]: the audio element; its [onended]
    handler is the closure of the render that runs the effect. *)
Definition audioEffect (cur : ReactState) (e : Editor) : Editor :=
  if JS.truthy (url songData) then
    onHost (withOnended (Some cur)) (onRefs (withAudio (Some newAudio)) e)
  else e.

(** The first render and its effects, in the order they are declared. *)
Definition mount : Editor :=
  let e0 := mkEditor initialState
                     (mkRefs true None (mkGraph false false false false) 0 None [])
                     (mkHost [] 1 None None false [] [] webAudio) in
  schedulerEffect initialState
    (canvasEffect initialState
       (timerEffect 0 initialState
          (audioEffect initialState e0))).

(** After a handler changed the state from [prev]: the new render's
    effects whose dependencies changed, cleanup first. *)
Definition rerender (now : Z) (prev : ReactState) (e : Editor) : Editor :=
  let cur := react e in
  let recChanged := negb (Bool.eqb (isRecording prev) (isRecording cur)) in
  let playChanged := negb (Bool.eqb (isPlaying prev) (isPlaying cur)) in
  let modeChanged := negb (modeEqb (visualizerMode prev) (visualizerMode cur)) in
  let e1 := if recChanged then timerEffect now cur (timerCleanup e) else e in
  let e2 := if modeChanged then canvasEffect cur (canvasCleanup e1) else e1 in
  if playChanged || modeChanged then schedulerEffect cur e2 else e2.

(** *** Handlers *)

(** [initAudioContext]: [None] when it throws.  The four refs are
    assigned after every call that can throw, so a throw leaves them
    empty. *)
Definition initAudioContext (e : Editor) : option Editor :=
  if audioContextRef (graph (refs e)) then Some e
  else if audioContextClass (host e)
       then Some (onRefs (withGraph (mkGraph true true true true)) e)
       else None.

(** [handleUserGesture]: when [initAudioContext] throws, the listener
    is left at the throw, before [removeEventListener]: it stays
    registered. *)
Definition handleUserGesture (e : Editor) : Editor :=
  match initAudioContext e with
  | Some e1 => onHost (withClickListener false) e1
  | None => e
  end.

Definition togglePlay (e : Editor) : Editor :=
  match audioRef (refs e) with
  | Some a =>
      if audioContextRef (graph (refs e)) then
        let a' := if isPlaying (react e) then pause a else play a in
        onReact (setIsPlaying (negb (isPlaying (react e))))
                (onRefs (withAudio (Some a')) e)
      else e
  | None => e
  end.

Definition handleStartTimeChange (newTime : Q) (e : Editor) : Editor :=
  let closure := react e in
  let e1 := onReact (setStartTime newTime) e in
  match audioRef (refs e1) with
  | Some a =>
      let e2 := onRefs (withAudio (Some (seek newTime a))) e1 in
      snd (requestAnimationFrame (DrawVisualizer closure) e2)
  | None => e1
  end.

Definition stopRecording (e : Editor) : Editor :=
  match mediaRecorderRef (refs e) with
  | Some r =>
      match state r with
      | inactive => e
      | recording =>
          onRefs (withRecorder
                    (Some (mkRecorder (mimeType r) inactive true (capturedStartTime r)))) e
      end
  | None => e
  end.

(** [startRecording].  A recorder that [mediaRecorderRef] no longer
    names is out of the component's reach and is dropped. *)
Definition startRecording (e : Editor) : Editor :=
  let closure := react e in
  match audioRef (refs e) with
  | Some a =>
      if canvasRef (refs e) && destRef (graph (refs e)) then
        (* Jump to selected start time *)
        let e1 := onRefs (withAudio (Some (play (seek (startTime closure) a)))) e in
        let e2 := onReact (fun s => setRecordedVideoUrl None
                                      (setIsRecording true (setIsPlaying true s))) e1 in
        match find isTypeSupported mimeTypes with
        | None =>
            onReact (fun s => setIsRecording false (setIsPlaying false s))
                    (onHost (withAlert unsupportedMessage) e2)
        | Some selectedMimeType =>
            let failed e' :=
              onReact (fun s => setIsRecording false (setIsPlaying false s))
                      (onHost (withAlert startErrorMessage) e') in
            let stored st :=
              onRefs (fun r => withChunks []
                        (withRecorder
                           (Some (mkRecorder selectedMimeType st false (startTime closure)))
                           r)) e2 in
            match recorderOutcome selectedMimeType with
            | ConstructorThrows => failed e2
            | StartThrows => failed (stored inactive)
            | Starts => stored recording
            end
        end
      else e
  | None => e
  end.

(** [recorder.ondataavailable]. *)
Definition dataAvailable (size : N) (e : Editor) : Editor :=
  match mediaRecorderRef (refs e) with
  | Some _ =>
      if N.ltb 0 size then onRefs (fun r => withChunks (chunksRef r ++ [size]) r) e else e
  | None => e
  end.

(** [recorder.onstop], delivered after [stop()]. *)
Definition recorderStopped (e : Editor) : Editor :=
  match mediaRecorderRef (refs e) with
  | Some r =>
      if stopQueued r then
        let blob := mkBlob (chunksRef (refs e)) (mimeType r) in
        let e1 := onReact (fun s => setIsRecording false
                                      (setIsPlaying false
                                         (setRecordedVideoUrl (Some blob) s))) e in
        let a' := option_map (fun a => seek (capturedStartTime r) (pause a))
                             (audioRef (refs e1)) in
        onRefs (fun rf => withRecorder
                            (Some (mkRecorder (mimeType r) (state r) false
                                              (capturedStartTime r)))
                            (withAudio a' rf)) e1
      else e
  | None => e
  end.

(** [audio.onended]: [isRecording] is the one of the closure. *)
Definition audioEnded (e : Editor) : Editor :=
  match onended (host e) with
  | Some closure =>
      let e1 := onReact (setIsPlaying false) e in
      if isRecording closure then stopRecording e1 else e1
  | None => e
  end.

(** [audio.onloadedmetadata]; the element then has duration [d]. *)
Definition loadedMetadata (d : Q) (e : Editor) : Editor :=
  match audioRef (refs e) with
  | Some a =>
      onReact (setDuration d)
              (onRefs (withAudio (Some (mkAudio (currentTime a) (Some d) (paused a)))) e)
  | None => e
  end.

(** The callback of the recording timer, [start] being the
    [Date.now()] of the effect and [now] the one of this call. *)
Definition elapsedSeconds (start now : Z) : Q := inject_Z (now - start) / 1000.

Definition intervalCallback (start now : Z) (e : Editor) : Editor :=
  let elapsed := elapsedSeconds start now in
  if JS.ge elapsed 30 then stopRecording e else e.

Definition intervalFired (now : Z) (e : Editor) : Editor :=
  match interval (host e) with
  | Some i =>
      intervalCallback (start i) now
        (onHost (withInterval (Some (mkInterval (start i) now))) e)
  | None => e
  end.

Definition downloadName : string :=
  ("StatusBeat-" ++ JS.replaceWhitespaceRuns "-" (name songData) ++ ".webm")%string.

Definition downloadVideo (e : Editor) : option Anchor :=
  match recordedVideoUrl (react e) with
  | None => None
  | Some u => Some (mkAnchor u downloadName)
  end.

(** *** The controls the component renders *)

Inductive UserAction :=
| ClickPlay
| ClickMode (m : VisualizerMode)
| ChangeStart (value : Q)
| ClickRec
| ClickStop
| ClickDownload
| ClickNovo
| ClickPage.

(** Whether the render of state [s] offers the action: the play button
    and the range input are [disabled] while recording, the range input
    only yields values between its [min] and [max], and the three
    recording buttons are rendered conditionally. *)
Definition offered (s : ReactState) (a : UserAction) : bool :=
  match a with
  | ClickPlay => negb (isRecording s)
  | ClickMode _ => true
  | ChangeStart v =>
      negb (isRecording s) && Qle_bool 0 v && Qle_bool v (sliderMax (duration s))
  | ClickRec =>
      negb (isRecording s) && match recordedVideoUrl s with None => true | Some _ => false end
  | ClickStop => isRecording s
  | ClickDownload | ClickNovo =>
      match recordedVideoUrl s with None => false | Some _ => true end
  | ClickPage => true
  end.

Definition isClick (a : UserAction) : bool :=
  match a with ChangeStart _ => false | _ => true end.

Definition handler (a : UserAction) (e : Editor) : Editor :=
  match a with
  | ClickPlay => togglePlay e
  | ClickMode m => onReact (setVisualizerMode m) e
  | ChangeStart v => handleStartTimeChange v e
  | ClickRec => startRecording e
  | ClickStop => stopRecording e
  | ClickDownload => e
  | ClickNovo => onReact (setRecordedVideoUrl None) e
  | ClickPage => e
  end.

(** A user action: the control's handler, then (a click bubbles to the
    document) the one-shot listener if it is registered. *)
Definition user (a : UserAction) (e : Editor) : Editor :=
  if offered (react e) a then
    let e1 := handler a e in
    if isClick a && clickListener (host e1) then handleUserGesture e1 else e1
  else e.

Inductive Event :=
| User (a : UserAction)
| LoadedMetadata (d : Q)
| Ended
| DataAvailable (size : N)
| RecorderStop
| IntervalFired
| AnimationFrame.

Definition handle (now : Z) (ev : Event) (e : Editor) : Editor :=
  match ev with
  | User a => user a e
  | LoadedMetadata d => loadedMetadata d e
  | Ended => audioEnded e
  | DataAvailable size => dataAvailable size e
  | RecorderStop => recorderStopped e
  | IntervalFired => intervalFired now e
  | AnimationFrame => animationFrame e
  end.

(** One event at time [now]: its handler, then the render it causes. *)
Definition step (e : Editor) (ev : Z * Event) : Editor :=
  let prev := react e in
  rerender (fst ev) prev (handle (fst ev) (snd ev) e).

Definition run (evs : list (Z * Event)) (e : Editor) : Editor := fold_left step evs e.
End Component.
End Editor.

(** ** Notions of the specification used in the statements below *)

Module Notions.
Import Editor.
Local Open Scope Q_scope.


(** A track with a name that has a run of two spaces, and platforms for
    the examples: one that records only MP4, one that records nothing. *)
Definition demoSong : SongData :=
  {| url := Some "blob:track"%string; name := "My  Song"%string |}.
Definition onlyMp4 (t : string) : bool := String.eqb t "video/mp4".
Definition nothingSupported (t : string) : bool := false.
(** A platform that records VP8 in WebM and MP4, but not VP9. *)
Definition vp8AndMp4 (t : string) : bool :=
  String.eqb t "video/webm;codecs=vp8" || String.eqb t "video/mp4".
Definition alwaysStarts (t : string) : RecorderOutcome := Starts.
(** A platform that has the audio context class, and one without. *)
Definition webAudio : bool := true.
Definition noWebAudio : bool := false.

(** The editor of [demoSong] after its first click (which opens the
    audio graph) and once the metadata of a track of [d] seconds came. *)
Definition opened (d : Q) : Editor :=
  run onlyMp4 alwaysStarts
      [(0%Z, User ClickPage); (0%Z, AnimationFrame); (5%Z, LoadedMetadata d)]
      (mount demoSong webAudio).

(** What a display refresh leaves alone. *)
Definition sameButFrames (e e' : Editor) : Prop :=
  react e' = react e
  /\ mediaRecorderRef (refs e') = mediaRecorderRef (refs e)
  /\ interval (host e') = interval (host e)
  /\ onended (host e') = onended (host e)
  /\ chunksRef (refs e') = chunksRef (refs e).
End Notions.

(** ** CaptureController: starting a recording *)

Module Capture.
Import Editor Notions.
Local Open Scope Q_scope.

(** The states of the capture controller, read off the component: a
    failed start is back in [Idle] when its handler returns. *)
Inductive Phase := Idle | Recording | Finalizing | Ready.

Definition phase (e : Editor) : Phase :=
  if isRecording (react e) then
    match mediaRecorderRef (refs e) with
    | Some r => match state r with recording => Recording | inactive => Finalizing end
    | None => Finalizing
    end
  else
    match recordedVideoUrl (react e) with
    | Some _ => Ready
    | None => Idle
    end.

(** The three refs [startRecording] needs. *)
Definition wired (e : Editor) (a : Audio) : Prop :=
  canvasRef (refs e) = true /\ destRef (graph (refs e)) = true /\ audioRef (refs e) = Some a.

(** Nothing was ever recorded: no recorder, no chunk, no output. *)
Definition blank (e : Editor) : Prop :=
  mediaRecorderRef (refs e) = None
  /\ chunksRef (refs e) = []
  /\ recordedVideoUrl (react e) = None.

(** A session in progress: the REC button was pressed at 1 s and one
    chunk of 5 bytes has arrived. *)
Definition midSession : Editor :=
  run onlyMp4 alwaysStarts
      [(1000%Z, User ClickRec); (1500%Z, DataAvailable 5%N)] (opened 25).

(** A finished session: stopped by hand at 9 s, flushed, stop delivered. *)
Definition finished : Editor :=
  run onlyMp4 alwaysStarts
      [(9000%Z, User ClickStop); (9001%Z, DataAvailable 7%N); (9002%Z, RecorderStop)]
      midSession.
End Capture.

(** ** The download name *)

Module Download.
Import Editor Notions.
Local Open Scope string_scope.

(** The specification's reading of the name: cut the title into its
    maximal runs of white-space and of other characters, and put a
    single "-" for every white-space run. *)
Fixpoint runs (s : string) : list (bool * string) :=
  match s with
  | EmptyString => []
  | String c s' =>
      let w := JS.isWhiteSpace c in
      match runs s' with
      | (w', r) :: rest =>
          if Bool.eqb w w' then (w, String c r) :: rest
          else (w, String c EmptyString) :: (w', r) :: rest
      | [] => [(w, String c EmptyString)]
      end
  end.

Definition dashRun (r : bool * string) : string := if fst r then "-" else snd r.

Fixpoint glue (l : list string) : string :=
  match l with
  | [] => EmptyString
  | x :: rest => x ++ glue rest
  end.

Definition dashRuns (s : string) : string := glue (map dashRun (runs s)).

Fixpoint allChars (p : ascii -> bool) (s : string) : bool :=
  match s with
  | EmptyString => true
  | String c s' => p c && allChars p s'
  end.

(** A run is not empty and all of one kind. *)
Definition isRun (r : bool * string) : bool :=
  negb (String.eqb (snd r) "")
  && allChars (fun c => Bool.eqb (JS.isWhiteSpace c) (fst r)) (snd r).

(** Neighbouring runs are of different kinds: each run is maximal. *)
Fixpoint alternate (l : list (bool * string)) : bool :=
  match l with
  | a :: ((b :: _) as rest) => negb (Bool.eqb (fst a) (fst b)) && alternate rest
  | _ => true
  end.
End Download.

(** ** Word wrap of the caption *)

Module Wrap.
Import Canvas Render.
Local Open Scope string_scope.
Local Open Scope list_scope.

(** The lines a list of calls draws, in order. *)
Definition textOf (o : Op) : list string :=
  match o with FillText t _ _ => [t] | _ => [] end.

Definition linesOf (ops : list Op) : list string := flat_map textOf ops.

(** The line made of the words of [g]: each word with a space after it. *)
Fixpoint lineOf (g : list string) : string :=
  match g with
  | [] => EmptyString
  | w :: rest => (w ++ " " ++ lineOf rest)%string
  end.

(** The text modulo white-space collapsing: its non-empty pieces
    between white-space characters, [ws] telling which characters are
    white space. *)
Fixpoint pieces (ws : ascii -> bool) (s : string) : list string :=
  match s with
  | EmptyString => [EmptyString]
  | String c s' =>
      if ws c then EmptyString :: pieces ws s'
      else match pieces ws s' with
           | [] => [String c EmptyString]
           | w :: rest => String c w :: rest
           end
  end.

Definition nonEmpty (w : string) : bool := negb (String.eqb w "").

Definition tokens (ws : ascii -> bool) (s : string) : list string :=
  filter nonEmpty (pieces ws s).

(** White space as [split(' ')] has it: the space alone. *)
Definition isSpace (c : ascii) : bool := Ascii.eqb c " ".

(** A word of [split(' ')] has no space in it. *)
Definition spaceFree (w : string) : bool :=
  Download.allChars (fun c => negb (isSpace c)) w.

Section Greedy.
Variable measure : string -> Q.
Variable maxWidth : Q.

(** The loop of [wrapText] on groups of words instead of lines. *)
Fixpoint groupsFrom (words : list string) (n : nat) (cur : list string)
  : list (list string) :=
  match words with
  | [] => [cur]
  | w :: rest =>
      if JS.gt (measure (lineOf cur ++ w ++ " ")%string) maxWidth && Nat.ltb 0 n
      then cur :: groupsFrom rest (S n) [w]
      else groupsFrom rest (S n) (cur ++ [w])
  end.

(** A line fits, or it is a single word. *)
Definition fitsOrSingle (g : list string) : Prop :=
  (measure (lineOf g) <= maxWidth)%Q \/ exists w, g = [w].

(** Every break was forced: the first word of the next line did not
    fit at the end of the line before it. *)
Fixpoint forced (groups : list (list string)) : Prop :=
  match groups with
  | g1 :: ((g2 :: _) as rest) =>
      match g2 with
      | w :: _ => (maxWidth < measure (lineOf g1 ++ w ++ " ")%string)%Q
      | [] => False
      end /\ forced rest
  | _ => True
  end.
End Greedy.

(** A caption with a double space and a word wider than the line, under
    a measure of 10 units per character and a maximum of 60. *)
Definition tenPerChar (s : string) : Q := inject_Z (10 * Z.of_nat (String.length s)).

(** A word of 48 characters: at 10 units per character it measures
    480, the maximum [drawText] gives [wrapText]. *)
Definition word48 : string := "abcdefghijklmnopqrstuvwxyzabcdefghijklmnopqrstuv".

(** A caption of three words of 16 letters separated by a TAB and a LF. *)
Definition tabbed : string :=
  "aaaaaaaaaaaaaaaa"
  ++ String "009"%char ("bbbbbbbbbbbbbbbb" ++ String "010"%char "cccccccccccccccc").

(** The lines [drawText] draws for the sample track with caption [c]
    when every character measures 10 in every font: the title, then
    the lines of the caption. *)
Definition drawnLines (c : string) : list string :=
  linesOf (drawText Notions.demoSong {| backgroundImage := None; caption := c |}
                    (fun _ => tenPerChar)).
End Wrap.

(** ** The frame when the analysis graph is not open *)

Module Frame.
Import Canvas Render Notions.
Local Open Scope Q_scope.

(** The ring of [drawCircle], as painted in context [g]. *)
Definition ringMark (g : GState) : Mark :=
  MStroke (Css "white") 3 (shadowOf (pen g)) (transform (pen g))
          [Arc (CANVAS_WIDTH / 2) (CANVAS_HEIGHT / 2) (radius - 5) 0 2].

(** Two contexts in which a filled rectangle of a given style looks the
    same. *)
Definition sameCanvas (g g' : GState) : Prop :=
  shadowOf (pen g') = shadowOf (pen g) /\ transform (pen g') = transform (pen g).

(** Props and platform answers for the example: no background image, a
    short caption, ten units per character, a track at 5 s of 25 s. *)
Definition demoVisual : VisualData := {| backgroundImage := None; caption := "hi"%string |}.

Definition demoMeasure (fnt s : string) : Q := Wrap.tenPerChar s.

Definition noImage (s : string) : Image :=
  {| src := s; complete := false; width := 0; height := 0 |}.

Definition demoAudio : option Audio := Some (mkAudio 5 (Some 25) false).

Definition demoFrame (mode : VisualizerMode) (analyser : option Analyser) : list Op :=
  drawVisualizer demoSong demoVisual demoMeasure noImage true mode analyser demoAudio.
End Frame.

(** ** RenderLoopScheduler: what happens after a pause *)

Module Scheduler.
Import Editor Notions.

(** [n] display refreshes in a row. *)
Definition refreshes (n : nat) : list (Z * Event) := repeat (0%Z, AnimationFrame) n.

(** The preview is started and paused again. *)
Definition playThenPause : Editor :=
  run onlyMp4 alwaysStarts [(10%Z, User ClickPlay); (20%Z, AnimationFrame); (30%Z, User ClickPlay)]
          (opened 25).

(** The preview is started, the visualization is switched to the
    circle while it plays, and the preview is paused. *)
Definition switchThenPause : Editor :=
  run onlyMp4 alwaysStarts [(10%Z, User ClickPlay); (20%Z, AnimationFrame);
           (30%Z, User (ClickMode circle)); (40%Z, AnimationFrame);
           (50%Z, User ClickPlay)]
          (opened 25).

(** A 25 s track is recorded from its start; it ends, the timer stops
    the recorder 30 s after the start, and the stop is delivered. *)
Definition endedThenCapped : Editor :=
  run onlyMp4 alwaysStarts
      [(1000%Z, User ClickRec); (1010%Z, AnimationFrame); (26000%Z, Ended);
       (26010%Z, AnimationFrame); (31000%Z, IntervalFired); (31001%Z, RecorderStop)]
      (opened 25).

(** The closure of the render after the track ended during a recording. *)
Definition recordingEnded : ReactState := mkReact false true None bars 0 25.

(** The closure of the render in which the preview played bars. *)
Definition playingBars : ReactState := mkReact true false None bars 0 25.

(** A loop closed over a render that was playing or recording is the
    only pending callback. *)
Definition spinning (c : ReactState) (e : Editor) : Prop :=
  canvasRef (refs e) = true
  /\ (isPlaying c || isRecording c) = true
  /\ exists id, rafQueue (host e) = [(id, Loop c)].
End Scheduler.

(** ** Recording sessions: the cap and the natural end of the track *)

Module Session.
Import Editor Notions.
Local Open Scope Z_scope.

(** The encoder is running. *)
Definition encoding (e : Editor) : bool :=
  match mediaRecorderRef (refs e) with
  | Some r => match state r with recording => true | inactive => false end
  | None => false
  end.


Section Runs.
Variable isTypeSupported : string -> bool.
Variable recorderOutcome : string -> RecorderOutcome.


End Runs.

(** A stop that is queued belongs to a recorder that is inactive. *)
Definition stopsAreInactive (e : Editor) : Prop :=
  forall r, mediaRecorderRef (refs e) = Some r -> stopQueued r = true -> state r = inactive.


(** The part of the state the timer and the encoder depend on. *)
Definition core (e : Editor) : bool * option MediaRecorder * option Interval * option ReactState :=
  (isRecording (react e), mediaRecorderRef (refs e), interval (host e), onended (host e)).

(** What every handler respects ([tick]: the handler is the callback
    of the interval, run at [now]). *)
Definition tame (now : Z) (tick : bool) (e e' : Editor) : Prop :=
  onended (host e') = onended (host e)
  /\ (interval (host e') = interval (host e)
      \/ (tick = true
          /\ exists i, interval (host e) = Some i
                       /\ interval (host e') = Some (mkInterval (start i) now)))
  /\ (stopsAreInactive e -> stopsAreInactive e')
  /\ (encoding e = false -> encoding e' = true ->
      isRecording (react e) = false /\ isRecording (react e') = true)
  /\ (stopsAreInactive e -> encoding e = true -> isRecording (react e) = true ->
      encoding e' = true -> isRecording (react e') = true)
  /\ (tick = true -> forall i, interval (host e) = Some i ->
      30000 <= now - start i -> encoding e' = false).

Definition isTick (ev : Event) : bool :=
  match ev with IntervalFired => true | _ => false end.

(** A session on the 25 s track, started at 1 s of the clock. *)
Definition recordingFrom1s : Editor :=
  run onlyMp4 alwaysStarts [(1000, User ClickRec); (1010, AnimationFrame)] (opened 25).

End Session.

(** ** The labels of the trimming panel ([formatTime]) *)

Module Labels.
Import Editor.
Local Open Scope Z_scope.

(** [Math.trunc]: the integer part, rounding toward zero. *)
Definition trunc (x : Q) : Z := Z.quot (Qnum x) (Zpos (Qden x)).

(** [a % b] on numbers: the remainder has the sign of the dividend. *)
Definition rem (a b : Q) : Q := (a - b * inject_Z (trunc (a / b)))%Q.

Definition digitChar (d : Z) : ascii := ascii_of_nat (48 + Z.to_nat d).

(** The decimal digits of [n >= 0] in front of [acc]; [fuel] bounds
    the number of digits. *)
Fixpoint digitsOf (fuel : nat) (n : Z) (acc : string) : string :=
  match fuel with
  | O => acc
  | S fuel' =>
      let acc' := String (digitChar (n mod 10)) acc in
      if n <? 10 then acc' else digitsOf fuel' (n / 10) acc'
  end.

(** [n.toString()] for an integer-valued number (below 10^21 in
    absolute value, where all the digits are printed). *)
Definition numberToString (n : Z) : string :=
  if n <? 0 then String "-" (digitsOf (S (Z.to_nat (Z.log2 (- n)))) (- n) EmptyString)
  else digitsOf (S (Z.to_nat (Z.log2 n))) n EmptyString.

(** [s.padStart(targetLength, c)] for a one-character filler. *)
Definition padStart (targetLength : nat) (c : ascii) (s : string) : string :=
  (string_of_list_ascii (repeat c (targetLength - String.length s)) ++ s)%string.

Definition formatTime (time : Q) : string :=
  let min := Qfloor (time / 60) in
  let sec := Qfloor (rem time 60) in
  (numberToString min ++ ":" ++ padStart 2 "0" (numberToString sec))%string.

(** The time under "Fim": [Math.min(startTime + 30, duration)]. *)
Definition endTime (s : ReactState) : Q := Qmin (startTime s + 30) (duration s).

Definition startLabel (s : ReactState) : string := formatTime (startTime s).
Definition endLabel (s : ReactState) : string := formatTime (endTime s).
End Labels.

(** ** Where the frame renderer draws *)

Module Geometry.
Import Canvas Render.
Local Open Scope Q_scope.

(** The rectangles a list of calls fills, in order: x, y, width, height. *)
Definition rectOf (o : Op) : list (Q * Q * Q * Q) :=
  match o with FillRect x y w h => [(x, y, w, h)] | _ => [] end.

Definition rectsOf (ops : list Op) : list (Q * Q * Q * Q) := flat_map rectOf ops.

Definition isFillText (o : Op) : bool :=
  match o with FillText _ _ _ => true | _ => false end.

(** The shadow a mark was painted with. *)
Definition shadowOfMark (m : Mark) : string * Q :=
  match m with
  | MRect _ sh _ _ _ _ _ => sh
  | MText _ _ _ sh _ _ _ _ => sh
  | MImage sh _ _ _ _ _ _ _ _ _ _ => sh
  | MStroke _ _ sh _ _ => sh
  end.

(** [audio.ontimeupdate]: the new value of the [progress] state. *)
Definition timeUpdate (a : Audio) (progress : Q) : Q :=
  match mediaDuration a with
  | Some d => if Qeq_bool d 0 then progress else (currentTime a / d) * 100
  | None => progress
  end.
End Geometry.

(** ** A take: from REC to the output *)

Module Take.
Import Editor Notions.

(** What a take is made of: the React state, the audio element, the
    recorder and the chunk buffer. *)
Definition take (e : Editor)
  : ReactState * option Audio * option MediaRecorder * list Chunk :=
  (react e, audioRef (refs e), mediaRecorderRef (refs e), chunksRef (refs e)).

(** Events during a take that are neither the user's nor the timer's:
    chunks arriving and display refreshes. *)
Definition quiet (ev : Z * Event) : bool :=
  match snd ev with
  | DataAvailable _ | AnimationFrame => true
  | _ => false
  end.

(** The sizes of the chunks a run delivers, in order. *)
Definition sizes (evs : list (Z * Event)) : list N :=
  flat_map (fun ev => match snd ev with DataAvailable size => [size] | _ => [] end) evs.

Definition nonEmptyChunk (size : N) : bool := N.ltb 0 size.

(** The recording timer is armed. *)
Definition armed (e : Editor) : bool :=
  match interval (host e) with Some _ => true | None => false end.

(** The recording controls a render shows: REC, Stop, and the pair
    Download and "Novo". *)
Definition controls (s : ReactState) : bool * bool * bool :=
  (offered s ClickRec, offered s ClickStop, offered s ClickDownload).

(** The four refs of the audio graph are set, or none is. *)
Definition allOrNothing (g : AudioGraph) : Prop :=
  g = mkGraph false false false false \/ g = mkGraph true true true true.

(** Nothing sounds and nothing is captured: the graph is not open,
    nothing plays and nothing records. *)
Definition silent (e : Editor) : Prop :=
  graph (refs e) = mkGraph false false false false
  /\ isPlaying (react e) = false
  /\ isRecording (react e) = false.
End Take.

(** ** The preview *)

Module Preview.
Import Editor Notions.

(** The editor at rest, ready for a preview: wired, the audio graph
    open, nothing playing or recording and no frame requested. *)
Definition atRest (e : Editor) (a : Audio) : Prop :=
  rafQueue (host e) = []
  /\ isPlaying (react e) = false
  /\ isRecording (react e) = false
  /\ canvasRef (refs e) = true
  /\ audioRef (refs e) = Some a
  /\ audioContextRef (graph (refs e)) = true.
End Preview.

(** ** The removal of the editor *)

Module Unmount.
Import Editor Notions.





End Unmount.

(** ** File names *)

Module Names.
Definition notWhiteSpace (c : ascii) : bool := negb (JS.isWhiteSpace c).
End Names.

(** ** The application around the editor ([App]) *)

Module App.
Local Open Scope string_scope.

(** A [File], by its name. *)
Record File := mkFile { fileName : string }.

Record SongData := mkSong { file : option File; url : option string; name : string }.

Record AiGenerationState := mkAi {
  isGeneratingImage : bool;
  isGeneratingCaption : bool;
  error : option string
}.

(** The [useState] cells of [App]. *)
Record State := mkState {
  songData : SongData;
  visualData : Render.VisualData;
  step : nat;
  aiState : AiGenerationState;
  mood : string
}.

Definition setSongData (v : SongData) (s : State) : State :=
  mkState v (visualData s) (step s) (aiState s) (mood s).
Definition setVisualData (f : Render.VisualData -> Render.VisualData) (s : State) : State :=
  mkState (songData s) (f (visualData s)) (step s) (aiState s) (mood s).
Definition setStep (v : nat) (s : State) : State :=
  mkState (songData s) (visualData s) v (aiState s) (mood s).
Definition setAiState (f : AiGenerationState -> AiGenerationState) (s : State) : State :=
  mkState (songData s) (visualData s) (step s) (f (aiState s)) (mood s).
Definition setMood (v : string) (s : State) : State :=
  mkState (songData s) (visualData s) (step s) (aiState s) v.

Definition noSong : SongData := mkSong None None "".
Definition noVisual : Render.VisualData :=
  {| Render.backgroundImage := None; Render.caption := "" |}.
Definition idle : AiGenerationState := mkAi false false None.

Definition initialState : State := mkState noSong noVisual 1 idle "".

(** The class [[^/.]]. *)
Definition extensionChar (c : ascii) : bool :=
  negb (Ascii.eqb c "/" || Ascii.eqb c ".").

(** Whether [/\.[^/.]+$/] matches [s] from its first character to its
    end. *)
Definition isExtension (s : string) : bool :=
  match s with
  | String c rest =>
      Ascii.eqb c "." && negb (String.eqb rest "") && Download.allChars extensionChar rest
  | EmptyString => false
  end.

(** [s.replace(/\.[^/.]+$/, "")]: the scan tries the positions from the
    left; where the pattern matches, the match (which goes to the end)
    is dropped. *)
Fixpoint stripExtension (s : string) : string :=
  match s with
  | EmptyString => EmptyString
  | String c s' =>
      if isExtension (String c s') then EmptyString else String c (stripExtension s')
  end.

Definition generationError : string :=
  "Falha ao gerar conteúdo IA. Verifique sua chave API.".

(** The two requests of [handleAiGeneration]: the prompt of the image,
    and the song name and mood of the caption. *)
Record Request := mkRequest { imagePrompt : string; captionSong : string; captionMood : string }.

Section Handlers.
(** [URL.createObjectURL]. *)
Variable createObjectURL : File -> string.

(** [files] is [e.target.files]. *)
Definition handleAudioUpload (files : list File) (s : State) : State :=
  match files with
  | f :: _ =>
      setStep 2
        (setSongData (mkSong (Some f) (Some (createObjectURL f)) (stripExtension (fileName f))) s)
  | [] => s
  end.

(** [reader.onload] of [handleImageUpload], [result] being
    [ev.target?.result]. *)
Definition imageLoaded (result : option string) (s : State) : State :=
  if JS.truthy result then
    setVisualData (fun prev => {| Render.backgroundImage := result;
                                  Render.caption := Render.caption prev |}) s
  else s.

(** [handleAiGeneration] up to its [await]: the state and the requests
    sent. *)
Definition handleAiGeneration (s : State) : State * option Request :=
  if JS.truthy (Some (mood s)) then
    (setAiState (fun _ => mkAi true true None) s,
     Some (mkRequest (mood s) (name (songData s)) (mood s)))
  else (s, None).

(** The rest of [handleAiGeneration], run when [Promise.all] settles:
    with the image and the caption, or with a rejection. *)
Definition generationSettled (outcome : option (string * string)) (s : State) : State :=
  let s1 :=
    match outcome with
    | Some (image, caption) =>
        setVisualData (fun _ => {| Render.backgroundImage := Some image;
                                   Render.caption := caption |}) s
    | None =>
        setAiState (fun prev => mkAi (isGeneratingImage prev) (isGeneratingCaption prev)
                                     (Some generationError)) s
    end in
  setAiState (fun _ => mkAi false false None) s1.

Definition reset (s : State) : State :=
  setMood "" (setStep 1 (setVisualData (fun _ => noVisual) (setSongData noSong s))).

(** The props [App] gives the editor. *)
Definition editorSong (s : State) : Render.SongData :=
  {| Render.url := url (songData s); Render.name := name (songData s) |}.

(** *** The controls and the events *)

Inductive Event :=
| AudioChosen (files : list File)
| ImageLoaded (result : option string)
| MoodTyped (v : string)
| CaptionTyped (v : string)
| ClickGenerate
| GenerationSettled (outcome : option (string * string))
| ClickReset
| ClickContinue
| ClickBack.

(** The application with the generation in flight, if any. *)
Record Running := mkRunning { state : State; pending : option Request }.

(** Whether the render of [s] has the control (the header, with its
    reset, is always there; "Gerar" is [disabled] while an image is
    generated or without a mood). *)
Definition offered (r : Running) (ev : Event) : bool :=
  let s := state r in
  match ev with
  | AudioChosen _ => Nat.eqb (step s) 1
  | ImageLoaded _ => true
  | MoodTyped _ | CaptionTyped _ | ClickContinue => Nat.eqb (step s) 2
  | ClickGenerate =>
      Nat.eqb (step s) 2
      && negb (isGeneratingImage (aiState s) || negb (JS.truthy (Some (mood s))))
  | GenerationSettled _ => match pending r with Some _ => true | None => false end
  | ClickReset => true
  | ClickBack => Nat.eqb (step s) 3
  end.

Definition handle (ev : Event) (r : Running) : Running :=
  let s := state r in
  match ev with
  | AudioChosen files => mkRunning (handleAudioUpload files s) (pending r)
  | ImageLoaded result => mkRunning (imageLoaded result s) (pending r)
  | MoodTyped v => mkRunning (setMood v s) (pending r)
  | CaptionTyped v =>
      mkRunning (setVisualData (fun prev => {| Render.backgroundImage := Render.backgroundImage prev;
                                               Render.caption := v |}) s) (pending r)
  | ClickGenerate =>
      match handleAiGeneration s with
      | (s', Some req) => mkRunning s' (Some req)
      | (s', None) => mkRunning s' (pending r)
      end
  | GenerationSettled outcome => mkRunning (generationSettled outcome s) None
  | ClickReset => mkRunning (reset s) (pending r)
  | ClickContinue => mkRunning (setStep 3 s) (pending r)
  | ClickBack => mkRunning (setStep 2 s) (pending r)
  end.

Definition next (r : Running) (ev : Event) : Running :=
  if offered r ev then handle ev r else r.

Definition run (evs : list Event) (r : Running) : Running := fold_left next evs r.

Definition start : Running := mkRunning initialState None.
End Handlers.
End App.

(** * Theorems *)

(** ** The component: what refreshes and renders leave alone *)

Module EditorFacts.
Import Editor Notions.
Local Open Scope Z_scope.

Ltac open_editor e :=
  destruct e as [[p r u m s d0] [cv au gr af mr ch] [q nx iv oe cl al dl wa]].

Lemma runCallback_quiet (cb : Callback) (e : Editor) : sameButFrames e (runCallback cb e).
Proof.
  destruct cb as [c|c]; unfold runCallback, loop, callDrawVisualizer, requestAnimationFrame;
    destruct (canvasRef (refs e)); destruct (isPlaying c || isRecording c);
    repeat split.
Qed.

Lemma animationFrame_quiet (e : Editor) : sameButFrames e (animationFrame e).
Proof.
  unfold animationFrame.
  set (e0 := onHost _ e).
  assert (H0 : sameButFrames e e0) by (repeat split).
  clearbody e0. revert e0 H0.
  induction (rafQueue (host e)) as [|p q IH]; intros e0 H0; cbn [fold_left]; [exact H0|].
  apply IH. destruct H0 as (H1 & H2 & H3 & H4 & H5).
  destruct (runCallback_quiet (snd p) e0) as (K1 & K2 & K3 & K4 & K5).
  repeat split; congruence.
Qed.

Lemma modeEqb_refl (m : VisualizerMode) : modeEqb m m = true.
Proof. destruct m; reflexivity. Qed.

(** What a render leaves alone, and what it does to the timer. *)
Lemma rerender_core (now : Z) (prev : ReactState) (e : Editor) :
  react (rerender now prev e) = react e
  /\ mediaRecorderRef (refs (rerender now prev e)) = mediaRecorderRef (refs e)
  /\ onended (host (rerender now prev e)) = onended (host e)
  /\ interval (host (rerender now prev e))
     = if Bool.eqb (isRecording prev) (isRecording (react e)) then interval (host e)
       else if isRecording (react e) then Some (mkInterval now now) else None.
Proof.
  destruct e as [[p r u m s d] [cv au gr af mr ch] [q nx iv oe cl al dl wa]].
  destruct prev as [p0 r0 u0 m0 s0 d0].
  unfold rerender, timerEffect, timerCleanup, canvasEffect, canvasCleanup,
    schedulerEffect, requestAnimationFrame, cancelAnimationFrame, callDrawVisualizer.
  cbn.
  destruct r0, r, (Bool.eqb p0 p), (modeEqb m0 m), p, au as [a|], cv; cbn; repeat split.
Qed.

Lemma rerender_chunks (now : Z) (prev : ReactState) (e : Editor) :
  chunksRef (refs (rerender now prev e)) = chunksRef (refs e).
Proof.
  open_editor e. destruct prev as [p0 r0 u0 m0 s0 d1].
  unfold rerender, timerEffect, timerCleanup, canvasEffect, canvasCleanup,
    schedulerEffect, requestAnimationFrame, cancelAnimationFrame, callDrawVisualizer.
  cbn.
  destruct r0, r, (Bool.eqb p0 p), (modeEqb m0 m), p, au as [a|], cv; reflexivity.
Qed.

(** A render of an unchanged state runs no effect. *)
Lemma rerender_same (now : Z) (e : Editor) :
  rerender now (react e) e = e.
Proof.
  unfold rerender. rewrite !eqb_reflx.
  rewrite modeEqb_refl. reflexivity.
Qed.
End EditorFacts.

(** ** TrimSelector: the start offset *)

Module TrimFacts.
Import Editor Notions.
Local Open Scope Q_scope.

Lemma gt_true (a b : Q) : JS.gt a b = true <-> b < a.
Proof.
  unfold JS.gt. rewrite negb_true_iff.
  split; intro H.
  - apply Qnot_le_lt. intro L. apply Qle_bool_iff in L. congruence.
  - destruct (Qle_bool a b) eqn:E; [|reflexivity].
    apply Qle_bool_iff in E. exfalso. apply (Qlt_not_le _ _ H E).
Qed.

Lemma gt_false (a b : Q) : JS.gt a b = false <-> a <= b.
Proof.
  unfold JS.gt. rewrite negb_false_iff. apply Qle_bool_iff.
Qed.



(** The range input of a 40 s track ends at 10, that of a 25 s track at 0. *)
Example sliderMax_samples : sliderMax 40 == 10 /\ sliderMax 25 == 0 /\ sliderMax 30 == 0.
Proof. repeat split. Qed.


End TrimFacts.

(** ** CaptureController: starting a recording *)

Module CaptureFacts.
Import Editor Notions Capture EditorFacts.
Local Open Scope Q_scope.

Lemma find_first {A} (f : A -> bool) (before after : list A) (t : A) :
  (forall u, In u before -> f u = false) -> f t = true ->
  find f (before ++ t :: after) = Some t.
Proof.
  induction before as [|b before IH]; intros Hb Ht; simpl.
  - rewrite Ht. reflexivity.
  - rewrite (Hb b (or_introl eq_refl)). apply IH; [|exact Ht].
    intros u Hu. apply Hb. right. exact Hu.
Qed.

Lemma find_nothing {A} (f : A -> bool) (l : list A) :
  (forall u, In u l -> f u = false) -> find f l = None.
Proof.
  induction l as [|b l IH]; intros Hl; simpl; [reflexivity|].
  rewrite (Hl b (or_introl eq_refl)). apply IH.
  intros u Hu. apply Hl. right. exact Hu.
Qed.

Section Start.
Variable isTypeSupported : string -> bool.
Variable recorderOutcome : string -> RecorderOutcome.

(** What a start that gets through does, whatever the state before. *)
Lemma start_proceeds (e : Editor) (a : Audio) (t : string) :
  wired e a -> find isTypeSupported mimeTypes = Some t -> recorderOutcome t = Starts ->
  startRecording isTypeSupported recorderOutcome e =
  mkEditor (setRecordedVideoUrl None (setIsRecording true (setIsPlaying true (react e))))
           (withChunks []
              (withRecorder (Some (mkRecorder t recording false (startTime (react e))))
                 (withAudio (Some (play (seek (startTime (react e)) a))) (refs e))))
           (host e).
Proof.
  intros (Hc & Hd & Ha) Hf Ho. unfold Editor.startRecording.
  rewrite Ha, Hc, Hd, Hf, Ho. reflexivity.
Qed.

Lemma start_unsupported (e : Editor) (a : Audio) :
  wired e a -> find isTypeSupported mimeTypes = None ->
  startRecording isTypeSupported recorderOutcome e =
  mkEditor (setIsRecording false (setIsPlaying false
              (setRecordedVideoUrl None (setIsRecording true (setIsPlaying true (react e))))))
           (withAudio (Some (play (seek (startTime (react e)) a))) (refs e))
           (withAlert unsupportedMessage (host e)).
Proof.
  intros (Hc & Hd & Ha) Hf. unfold Editor.startRecording.
  rewrite Ha, Hc, Hd, Hf. reflexivity.
Qed.
End Start.

(** On a platform without any of the formats the component never gets
    a recorder, a chunk or an output. *)
Section Unsupported.
Variable isTypeSupported : string -> bool.
Variable recorderOutcome : string -> RecorderOutcome.
Hypothesis none : find isTypeSupported mimeTypes = None.

Lemma handler_blank (a : UserAction) (e : Editor) :
  blank e -> blank (handler isTypeSupported recorderOutcome a e).
Proof.
  unfold blank. open_editor e. cbn. intros (-> & -> & ->).
  destruct a; unfold handler, togglePlay, handleStartTimeChange, startRecording,
    stopRecording, requestAnimationFrame; rewrite ?none; cbn;
    try destruct au as [a|]; try destruct (audioContextRef gr);
    try destruct (cv && destRef gr); repeat split.
Qed.

Lemma gesture_blank (e : Editor) : blank e -> blank (handleUserGesture e).
Proof.
  unfold blank. open_editor e. unfold handleUserGesture, initAudioContext. cbn.
  destruct (audioContextRef gr), wa; exact (fun H => H).
Qed.

Lemma handle_blank (now : Z) (ev : Event) (e : Editor) :
  blank e -> blank (handle isTypeSupported recorderOutcome now ev e).
Proof.
  intros Hb. destruct ev as [a|d| |size| | |]; cbn [handle].
  - unfold user. destruct (offered (react e) a); [|exact Hb].
    destruct (isClick a && _); [apply gesture_blank|]; apply handler_blank, Hb.
  - revert Hb. unfold blank, loadedMetadata. open_editor e. cbn.
    destruct au; exact (fun H => H).
  - revert Hb. unfold blank, audioEnded, stopRecording. open_editor e. cbn.
    intros (-> & -> & ->). destruct oe as [c|]; [destruct (isRecording c)|]; repeat split.
  - revert Hb. unfold blank, dataAvailable. open_editor e. cbn.
    intros (-> & -> & ->). repeat split.
  - revert Hb. unfold blank, recorderStopped. open_editor e. cbn.
    intros (-> & -> & ->). repeat split.
  - revert Hb. unfold blank, intervalFired, intervalCallback, stopRecording.
    open_editor e. cbn. intros (-> & -> & ->).
    destruct iv as [i|]; [destruct (JS.ge _ _)|]; repeat split.
  - destruct Hb as (H1 & H2 & H3).
    destruct (animationFrame_quiet e) as (K1 & K2 & _ & _ & K5).
    unfold blank. rewrite K1, K2, K5. repeat split; assumption.
Qed.

Lemma step_blank (ev : Z * Event) (e : Editor) :
  blank e -> blank (step isTypeSupported recorderOutcome e ev).
Proof.
  intros Hb. unfold step.
  destruct (handle_blank (fst ev) (snd ev) e Hb) as (H1 & H2 & H3).
  destruct (rerender_core (fst ev) (react e)
              (handle isTypeSupported recorderOutcome (fst ev) (snd ev) e))
    as (K1 & K2 & _).
  unfold blank. rewrite K1, K2, rerender_chunks. repeat split; assumption.
Qed.

Lemma unsupported_platform_stays_blank
      (songData : SongData) (ctx : bool) (evs : list (Z * Event)) :
  blank (run isTypeSupported recorderOutcome evs (mount songData ctx)).
Proof.
  assert (H : forall e, blank e -> blank (run isTypeSupported recorderOutcome evs e)).
  { induction evs as [|ev evs IH]; intros e Hb; cbn [run fold_left]; [exact Hb|].
    apply IH, step_blank, Hb. }
  apply H. unfold blank, mount, audioEffect.
  destruct (JS.truthy (url songData)); repeat split.
Qed.
End Unsupported.

(** The sample states: REC is not offered during the session nor once
    its output is held, and a request for it changes nothing. *)
Example rec_button_gone_after_start :
  phase (opened 25) = Idle
  /\ phase midSession = Recording
  /\ user onlyMp4 alwaysStarts ClickRec midSession = midSession
  /\ phase (step onlyMp4 alwaysStarts midSession (9000%Z, User ClickStop)) = Finalizing
  /\ phase finished = Ready
  /\ user onlyMp4 alwaysStarts ClickRec finished = finished.
Proof. vm_compute. repeat split; reflexivity. Qed.

(** The document listener leaves the session alone. *)
Lemma gesture_session (e : Editor) :
  react (handleUserGesture e) = react e
  /\ mediaRecorderRef (refs (handleUserGesture e)) = mediaRecorderRef (refs e)
  /\ chunksRef (refs (handleUserGesture e)) = chunksRef (refs e).
Proof.
  open_editor e. unfold handleUserGesture, initAudioContext. cbn.
  destruct (audioContextRef gr), wa; repeat split.
Qed.

(** C4: a start can only be requested through the REC button, and the
    button is rendered exactly in [Idle] (not recording, no output
    held; a failed start is back in [Idle] when its handler returns).
    In [Recording], [Finalizing] and [Ready] the request is not
    delivered: the event leaves the whole state of the component
    unchanged, no second session begins.  From [Idle], with canvas,
    capture sink and audio element present and a format the recorder
    starts with, the request begins a session with a fresh recorder
    and an empty chunk buffer. *)
Theorem start_gated_by_rec_button
        (isTypeSupported : string -> bool) (recorderOutcome : string -> RecorderOutcome)
        (e : Editor) (now : Z) :
  (offered (react e) ClickRec = true <-> phase e = Idle)
  /\ (phase e = Recording \/ phase e = Finalizing \/ phase e = Ready ->
      user isTypeSupported recorderOutcome ClickRec e = e
      /\ step isTypeSupported recorderOutcome e (now, User ClickRec) = e)
  /\ (forall a t, phase e = Idle -> wired e a ->
                  find isTypeSupported mimeTypes = Some t -> recorderOutcome t = Starts ->
                  let e' := step isTypeSupported recorderOutcome e (now, User ClickRec) in
                  phase e' = Recording
                  /\ mediaRecorderRef (refs e')
                     = Some (mkRecorder t recording false (startTime (react e)))
                  /\ chunksRef (refs e') = []).
Proof.
  assert (Hoff : offered (react e) ClickRec = true <-> phase e = Idle).
  { unfold phase, offered.
    destruct (isRecording (react e)); cbn [negb andb].
    - split; [discriminate|].
      destruct (mediaRecorderRef (refs e)) as [r|]; [destruct (state r)|]; discriminate.
    - destruct (recordedVideoUrl (react e)); split; (reflexivity || discriminate). }
  split; [exact Hoff|]. split.
  - intros Hp.
    assert (Hu : user isTypeSupported recorderOutcome ClickRec e = e).
    { unfold user.
      destruct (offered (react e) ClickRec) eqn:E; [|reflexivity].
      destruct Hoff as [Hoff _]. rewrite (Hoff eq_refl) in Hp.
      destruct Hp as [Hp|[Hp|Hp]]; discriminate Hp. }
    split; [exact Hu|].
    unfold step. cbn [fst snd handle]. rewrite Hu. apply rerender_same.
  - intros a t Hidle Hw Hf Ho e'. subst e'.
    destruct Hoff as [_ Hoff]. specialize (Hoff Hidle).
    unfold step. cbn [fst snd handle].
    destruct (rerender_core now (react e) (user isTypeSupported recorderOutcome ClickRec e))
      as (Hr & Hm & _).
    unfold phase. rewrite Hr, Hm, rerender_chunks.
    assert (Hs : react (user isTypeSupported recorderOutcome ClickRec e)
                 = setRecordedVideoUrl None (setIsRecording true (setIsPlaying true (react e)))
                 /\ mediaRecorderRef (refs (user isTypeSupported recorderOutcome ClickRec e))
                    = Some (mkRecorder t recording false (startTime (react e)))
                 /\ chunksRef (refs (user isTypeSupported recorderOutcome ClickRec e)) = []).
    { unfold user. rewrite Hoff. cbn [handler isClick andb].
      rewrite (start_proceeds _ _ e a t Hw Hf Ho).
      match goal with |- context [if ?c then _ else _] => destruct c end;
        [|repeat split].
      match goal with |- context [handleUserGesture ?x] =>
        destruct (gesture_session x) as (G1 & G2 & G3); rewrite G1, G2, G3
      end.
      repeat split. }
    destruct Hs as (S1 & S2 & S3). rewrite S1, S2, S3.
    repeat split.
Qed.

(** The four states on the sample track: a request for a start is
    ignored during the session, while its output is finalized and once
    it is held; from [Idle] it begins the session. *)
Lemma start_gated_by_rec_button_witness :
  let finalizing := step onlyMp4 alwaysStarts midSession (9000%Z, User ClickStop) in
  (phase midSession = Recording
   /\ step onlyMp4 alwaysStarts midSession (2000%Z, User ClickRec) = midSession)
  /\ (phase finalizing = Finalizing
      /\ step onlyMp4 alwaysStarts finalizing (9001%Z, User ClickRec) = finalizing)
  /\ (phase finished = Ready
      /\ step onlyMp4 alwaysStarts finished (9500%Z, User ClickRec) = finished)
  /\ (phase (opened 25) = Idle
      /\ phase (step onlyMp4 alwaysStarts (opened 25) (1000%Z, User ClickRec)) = Recording
      /\ chunksRef (refs (step onlyMp4 alwaysStarts (opened 25) (1000%Z, User ClickRec))) = []).
Proof.
  cbv zeta.
  assert (P1 : phase midSession = Recording) by (vm_compute; reflexivity).
  assert (P2 : phase (step onlyMp4 alwaysStarts midSession (9000%Z, User ClickStop))
               = Finalizing) by (vm_compute; reflexivity).
  assert (P3 : phase finished = Ready) by (vm_compute; reflexivity).
  assert (P4 : phase (opened 25) = Idle) by (vm_compute; reflexivity).
  assert (W : wired (opened 25) (mkAudio 0 (Some 25) true))
    by (repeat split; vm_compute; reflexivity).
  split; [split; [exact P1|]|split; [split; [exact P2|]|split; [split; [exact P3|]|]]].
  - exact (proj2 (proj1 (proj2 (start_gated_by_rec_button onlyMp4 alwaysStarts
                                  midSession 2000%Z))
                   (or_introl P1))).
  - exact (proj2 (proj1 (proj2 (start_gated_by_rec_button onlyMp4 alwaysStarts
                                  (step onlyMp4 alwaysStarts midSession
                                        (9000%Z, User ClickStop)) 9001%Z))
                   (or_intror (or_introl P2)))).
  - exact (proj2 (proj1 (proj2 (start_gated_by_rec_button onlyMp4 alwaysStarts
                                  finished 9500%Z))
                   (or_intror (or_intror P3)))).
  - split; [exact P4|].
    destruct (proj2 (proj2 (start_gated_by_rec_button onlyMp4 alwaysStarts
                              (opened 25) 1000%Z))
                (mkAudio 0 (Some 25) true) "video/mp4"%string P4 W eq_refl eq_refl)
      as (H1 & _ & H3).
    split; [exact H1|exact H3].
Defined.

Lemma find_split {A} (f : A -> bool) (l : list A) (t : A) :
  find f l = Some t ->
  exists before after,
    l = before ++ t :: after /\ (forall u, In u before -> f u = false) /\ f t = true.
Proof.
  induction l as [|b l IH]; simpl; [discriminate|].
  destruct (f b) eqn:E.
  - intros [= <-]. exists [], l. repeat split; [intros u []|exact E].
  - intros H. destruct (IH H) as (before & after & Hl & Hb & Ht).
    exists (b :: before), after. rewrite Hl. repeat split; [|exact Ht].
    intros u [<-|Hu]; [exact E|apply Hb, Hu].
Qed.

(** C5: the preference list is the fixed list of four formats, VP9 in
    WebM first and MP4 last, and the format negotiated is the first of
    it the platform supports: every format before it in the list is
    unsupported.  With it, when the recorder starts, the session begins
    with a recorder of that format and an empty chunk buffer and no
    alert.  When the platform supports none of the four, the start
    fails with the message shown to the user, no recorder is stored,
    the chunk buffer is as it was and the output handle is empty (in
    every state the component can reach on such a platform there is no
    recorder, no chunk and no output at all), the controller is back in
    [Idle] with REC offered, and a later start on a platform that has a
    format begins a session with an empty buffer. *)
Theorem negotiation_first_supported_or_fail
        (isTypeSupported : string -> bool) (recorderOutcome : string -> RecorderOutcome)
        (e : Editor) (a : Audio) :
  wired e a ->
  let e' := startRecording isTypeSupported recorderOutcome e in
  mimeTypes = ["video/webm;codecs=vp9"; "video/webm;codecs=vp8"; "video/webm";
               "video/mp4"]%string
  /\ (forall t, find isTypeSupported mimeTypes = Some t ->
        (exists before after,
            mimeTypes = before ++ t :: after
            /\ (forall u, In u before -> isTypeSupported u = false)
            /\ isTypeSupported t = true)
        /\ (recorderOutcome t = Starts ->
            mediaRecorderRef (refs e')
            = Some (mkRecorder t recording false (startTime (react e)))
            /\ chunksRef (refs e') = []
            /\ phase e' = Recording
            /\ alerts (host e') = alerts (host e)))
  /\ (forall before t after,
      mimeTypes = before ++ t :: after ->
      (forall u, In u before -> isTypeSupported u = false) ->
      isTypeSupported t = true ->
      find isTypeSupported mimeTypes = Some t
      /\ (recorderOutcome t = Starts ->
          mediaRecorderRef (refs e') = Some (mkRecorder t recording false (startTime (react e)))
          /\ chunksRef (refs e') = []))
  /\ (find isTypeSupported mimeTypes = None
      <-> forall u, In u mimeTypes -> isTypeSupported u = false)
  /\ ((forall u, In u mimeTypes -> isTypeSupported u = false) ->
      alerts (host e') = alerts (host e) ++ [unsupportedMessage]
      /\ mediaRecorderRef (refs e') = mediaRecorderRef (refs e)
      /\ chunksRef (refs e') = chunksRef (refs e)
      /\ recordedVideoUrl (react e') = None
      /\ phase e' = Idle
      /\ offered (react e') ClickRec = true
      /\ (forall songData ctx evs,
             e = run isTypeSupported recorderOutcome evs (mount songData ctx) -> blank e')
      /\ forall supported' outcome' t,
          find supported' mimeTypes = Some t -> outcome' t = Starts ->
          let e'' := startRecording supported' outcome' e' in
          phase e'' = Recording
          /\ mediaRecorderRef (refs e'')
             = Some (mkRecorder t recording false (startTime (react e)))
          /\ chunksRef (refs e'') = []).
Proof.
  intros Hw e'. subst e'. split; [reflexivity|]. split; [|split; [|split]].
  - intros t Hf. split; [apply find_split, Hf|].
    intros Ho. rewrite (start_proceeds _ _ e a t Hw Hf Ho). repeat split.
  - intros before t after Hl Hb Ht.
    assert (Hf : find isTypeSupported mimeTypes = Some t).
    { rewrite Hl. apply find_first; assumption. }
    split; [exact Hf|].
    intros Ho. rewrite (start_proceeds _ _ e a t Hw Hf Ho). split; reflexivity.
  - split; [|apply find_nothing].
    intros Hn u Hu. apply (find_none _ _ Hn u Hu).
  - intros Hnone.
    rewrite (start_unsupported _ _ e a Hw (find_nothing _ _ Hnone)).
    do 6 (split; [reflexivity|]).
    split.
    { intros songData ctx evs He.
      rewrite <- (start_unsupported isTypeSupported recorderOutcome e a Hw
                    (find_nothing _ _ Hnone)).
      apply (handler_blank _ recorderOutcome (find_nothing _ _ Hnone) ClickRec).
      rewrite He. apply unsupported_platform_stays_blank, find_nothing, Hnone. }
    intros supported' outcome' t Hf Ho e''. subst e''.
    destruct Hw as (Hc & Hd & Ha).
    erewrite start_proceeds; [| |exact Hf|exact Ho].
    + repeat split; reflexivity.
    + split; [exact Hc|]. split; [exact Hd|reflexivity].
Qed.

(** On the sample track: a platform with VP8 and MP4 gets VP8, the
    first of the list it supports (VP9 is before it and unsupported,
    MP4 after it); a platform with MP4 alone gets MP4, the last of the
    list; a platform with none gets the alert and stays [Idle] without
    a recorder, and a start on an MP4 platform after that failure
    begins a session with an empty buffer. *)
Lemma negotiation_witness :
  (mediaRecorderRef (refs (startRecording vp8AndMp4 alwaysStarts (opened 25)))
   = Some (mkRecorder "video/webm;codecs=vp8" recording false 0)
   /\ chunksRef (refs (startRecording vp8AndMp4 alwaysStarts (opened 25))) = [])
  /\ (mediaRecorderRef (refs (startRecording onlyMp4 alwaysStarts (opened 25)))
      = Some (mkRecorder "video/mp4" recording false 0)
      /\ phase (startRecording onlyMp4 alwaysStarts (opened 25)) = Recording)
  /\ (phase (startRecording nothingSupported alwaysStarts (opened 25)) = Idle
      /\ alerts (host (startRecording nothingSupported alwaysStarts (opened 25)))
         = [unsupportedMessage]
      /\ mediaRecorderRef (refs (startRecording nothingSupported alwaysStarts (opened 25)))
         = None)
  /\ (phase (startRecording onlyMp4 alwaysStarts
                (startRecording nothingSupported alwaysStarts (opened 25))) = Recording
      /\ chunksRef (refs (startRecording onlyMp4 alwaysStarts
                             (startRecording nothingSupported alwaysStarts (opened 25))))
         = []).
Proof.
  assert (W : wired (opened 25) (mkAudio 0 (Some 25) true))
    by (repeat split; vm_compute; reflexivity).
  split; [|split; [|split]].
  - destruct (negotiation_first_supported_or_fail vp8AndMp4 alwaysStarts (opened 25)
                (mkAudio 0 (Some 25) true) W) as (_ & _ & H & _).
    destruct (H ["video/webm;codecs=vp9"%string] "video/webm;codecs=vp8"%string
                ["video/webm"%string; "video/mp4"%string] eq_refl) as [_ Hs].
    + intros u [<-|[]]. reflexivity.
    + reflexivity.
    + exact (Hs eq_refl).
  - destruct (negotiation_first_supported_or_fail onlyMp4 alwaysStarts (opened 25)
                (mkAudio 0 (Some 25) true) W) as (_ & H & _).
    destruct (H "video/mp4"%string eq_refl) as [_ Hs].
    destruct (Hs eq_refl) as (H1 & _ & H3 & _).
    split; [exact H1|exact H3].
  - destruct (negotiation_first_supported_or_fail nothingSupported alwaysStarts
                (opened 25) (mkAudio 0 (Some 25) true) W) as (_ & _ & _ & _ & H).
    destruct (H (fun u _ => eq_refl)) as (H1 & H2 & _ & _ & H5 & _).
    split; [exact H5|]. split; [exact H1|exact H2].
  - destruct (negotiation_first_supported_or_fail nothingSupported alwaysStarts
                (opened 25) (mkAudio 0 (Some 25) true) W) as (_ & _ & _ & _ & H).
    destruct (H (fun u _ => eq_refl)) as (_ & _ & _ & _ & _ & _ & _ & H8).
    destruct (H8 onlyMp4 alwaysStarts "video/mp4"%string eq_refl eq_refl) as (K1 & _ & K3).
    split; [exact K1|exact K3].
Defined.

(** C9: when the guard of [startRecording] passes, the output handle is
    cleared whatever the negotiation then gives; if no format is
    supported, the start has failed (no recorder stored, [Idle]) and
    the output of the previous recording can no longer be downloaded. *)
Theorem failed_start_drops_previous_output
        (songData : SongData)
        (isTypeSupported : string -> bool) (recorderOutcome : string -> RecorderOutcome)
        (e : Editor) (a : Audio) (previous : Blob) :
  wired e a ->
  recordedVideoUrl (react e) = Some previous ->
  let e' := startRecording isTypeSupported recorderOutcome e in
  downloadVideo songData e = Some (mkAnchor previous (downloadName songData))
  /\ recordedVideoUrl (react e') = None
  /\ ((forall u, In u mimeTypes -> isTypeSupported u = false) ->
      downloadVideo songData e' = None
      /\ mediaRecorderRef (refs e') = mediaRecorderRef (refs e)
      /\ phase e' = Idle).
Proof.
  intros Hw Hprev e'. subst e'. split; [|split].
  - unfold downloadVideo. rewrite Hprev. reflexivity.
  - destruct Hw as (Hc & Hd & Ha). unfold startRecording.
    rewrite Ha, Hc, Hd. cbn [andb].
    destruct (find isTypeSupported mimeTypes) as [t|]; [|reflexivity].
    destruct (recorderOutcome t); reflexivity.
  - intros Hnone.
    rewrite (start_unsupported _ _ e a Hw (find_nothing _ _ Hnone)).
    repeat split; reflexivity.
Qed.

Lemma failed_start_drops_previous_output_witness :
  recordedVideoUrl (react finished) = Some (mkBlob [5%N; 7%N] "video/mp4")
  /\ recordedVideoUrl (react (startRecording nothingSupported alwaysStarts finished)) = None
  /\ downloadVideo demoSong (startRecording nothingSupported alwaysStarts finished) = None.
Proof.
  destruct (failed_start_drops_previous_output demoSong nothingSupported alwaysStarts
              finished (mkAudio 0 (Some 25) true) (mkBlob [5%N; 7%N] "video/mp4")
              (conj eq_refl (conj eq_refl eq_refl)) eq_refl) as (_ & H2 & H3).
  split; [reflexivity|]. split; [exact H2|].
  exact (proj1 (H3 (fun u _ => eq_refl))).
Defined.
End CaptureFacts.

(** ** The download name *)

Module DownloadFacts.
Import Editor Notions Download.
Local Open Scope string_scope.

Lemma isRun_cons (c : ascii) (r : string) :
  isRun (JS.isWhiteSpace c, r) = true -> isRun (JS.isWhiteSpace c, String c r) = true.
Proof.
  unfold isRun. cbn. intros H. apply andb_prop in H as [_ H].
  rewrite eqb_reflx, H. reflexivity.
Qed.

Lemma isRun_single (c : ascii) : isRun (JS.isWhiteSpace c, String c EmptyString) = true.
Proof. unfold isRun. cbn. rewrite eqb_reflx. reflexivity. Qed.

(** [runs] does cut the string into its maximal runs. *)
Lemma runs_sound (s : string) :
  glue (map snd (runs s)) = s
  /\ forallb isRun (runs s) = true
  /\ alternate (runs s) = true.
Proof.
  induction s as [|c s (IH1 & IH2 & IH3)]; [repeat split|].
  cbn [runs]. destruct (runs s) as [|[w' r] rest] eqn:E.
  - cbn in IH1. subst s. cbn [map glue snd forallb alternate].
    rewrite isRun_single. repeat split.
  - destruct (Bool.eqb (JS.isWhiteSpace c) w') eqn:W.
    + apply eqb_prop in W. subst w'.
      cbn [map glue snd forallb alternate fst] in *.
      apply andb_prop in IH2 as [IH2 IH2'].
      rewrite (isRun_cons _ _ IH2), IH2'. cbn [append]. rewrite IH1.
      repeat split. exact IH3.
    + cbn [map glue snd forallb alternate fst] in *.
      rewrite isRun_single, IH2, W. cbn [append]. rewrite IH1.
      repeat split. exact IH3.
Qed.

(** The scan of [replace(/\s+/g, '-')] computes the specification's
    name; in the middle of a match the run in progress gives nothing. *)
Lemma replaceWs_runs (s : string) :
  JS.replaceWs "-" false s = dashRuns s
  /\ JS.replaceWs "-" true s
     = match runs s with
       | (true, _) :: rest => glue (map dashRun rest)
       | _ => dashRuns s
       end.
Proof.
  unfold dashRuns.
  induction s as [|c s [IHf IHt]]; [split; reflexivity|].
  cbn [JS.replaceWs runs].
  destruct (JS.isWhiteSpace c) eqn:W.
  - rewrite IHt. destruct (runs s) as [|[[|] r] rest]; split; reflexivity.
  - rewrite IHf. destruct (runs s) as [|[[|] r] rest]; split; reflexivity.
Qed.

(** C10: whenever an output is held, whatever its type, the anchor's
    name is "StatusBeat-", the title with each maximal white-space run
    turned into one "-", and ".webm"; and the output a recorder leaves
    when it stops has the negotiated type of that recorder while its
    download name is this same ".webm" name. *)
Theorem download_name_is_webm (songData : SongData) (e : Editor) (u : Blob) :
  recordedVideoUrl (react e) = Some u ->
  downloadVideo songData e
  = Some (mkAnchor u ("StatusBeat-" ++ dashRuns (name songData) ++ ".webm"))
  /\ forall pending r,
      mediaRecorderRef (refs pending) = Some r -> stopQueued r = true ->
      downloadVideo songData (recorderStopped pending)
      = Some (mkAnchor (mkBlob (chunksRef (refs pending)) (mimeType r))
                       ("StatusBeat-" ++ dashRuns (name songData) ++ ".webm")).
Proof.
  intros Hu. unfold downloadVideo, downloadName, JS.replaceWhitespaceRuns.
  rewrite (proj1 (replaceWs_runs (name songData))). split.
  - rewrite Hu. reflexivity.
  - intros pending r Hr Hq. unfold recorderStopped. rewrite Hr, Hq. reflexivity.
Qed.

Lemma download_name_is_webm_witness :
  recordedVideoUrl (react Capture.finished) = Some (mkBlob [5%N; 7%N] "video/mp4")
  /\ downloadVideo demoSong Capture.finished
     = Some (mkAnchor (mkBlob [5%N; 7%N] "video/mp4") "StatusBeat-My-Song.webm").
Proof.
  split; [reflexivity|].
  exact (proj1 (download_name_is_webm demoSong Capture.finished
                  (mkBlob [5%N; 7%N] "video/mp4") eq_refl)).
Defined.
End DownloadFacts.

(** ** Word wrap of the caption *)

Module WrapFacts.
Import Canvas Render Wrap.
Local Open Scope string_scope.
Local Open Scope list_scope.

(** *** Strings *)

Lemma append_assoc (a b c : string) : ((a ++ b) ++ c = a ++ b ++ c)%string.
Proof. induction a as [|x a IH]; cbn; [reflexivity|]. rewrite IH. reflexivity. Qed.

Lemma lineOf_snoc (g : list string) (w : string) :
  lineOf (g ++ [w]) = (lineOf g ++ w ++ " ")%string.
Proof.
  induction g as [|v g IH]; cbn [lineOf app].
  - reflexivity.
  - rewrite IH, !append_assoc. reflexivity.
Qed.

Lemma split_nonempty (sep : ascii) (s : string) : JS.split sep s <> [].
Proof.
  destruct s as [|c s]; cbn; [discriminate|].
  destruct (Ascii.eqb c sep); [discriminate|].
  destruct (JS.split sep s); discriminate.
Qed.

Lemma split_app_sep (sep : ascii) (a b : string) :
  JS.split sep (a ++ String sep b)%string = JS.split sep a ++ JS.split sep b.
Proof.
  induction a as [|c a IH]; cbn [append JS.split].
  - rewrite Ascii.eqb_refl. reflexivity.
  - rewrite IH. destruct (Ascii.eqb c sep); [reflexivity|].
    destruct (JS.split sep a) eqn:E; [|reflexivity].
    exfalso. exact (split_nonempty sep a E).
Qed.


Lemma join_split (sep : ascii) (s : string) :
  JS.join (String sep EmptyString) (JS.split sep s) = s.
Proof.
  induction s as [|c s IH]; [reflexivity|].
  cbn [JS.split]. destruct (Ascii.eqb c sep) eqn:E.
  - apply Ascii.eqb_eq in E. subst c.
    destruct (JS.split sep s) as [|w ws] eqn:Es; [exfalso; exact (split_nonempty _ _ Es)|].
    change (JS.join (String sep "") ("" :: w :: ws))
      with (String sep (JS.join (String sep "") (w :: ws))).
    rewrite IH. reflexivity.
  - destruct (JS.split sep s) as [|w ws] eqn:Es; [exfalso; exact (split_nonempty _ _ Es)|].
    rewrite <- IH. destruct ws; reflexivity.
Qed.

Lemma split_spaceFree (s : string) :
  Forall (fun w => spaceFree w = true) (JS.split " "%char s).
Proof.
  induction s as [|c s IH]; cbn [JS.split].
  - constructor; [reflexivity|constructor].
  - destruct (Ascii.eqb c " ") eqn:E.
    + constructor; [reflexivity|exact IH].
    + destruct (JS.split " " s) as [|w rest]; constructor.
      * unfold spaceFree, isSpace. cbn. rewrite E. reflexivity.
      * constructor.
      * inversion IH; subst. unfold spaceFree, isSpace in *. cbn. rewrite E. assumption.
      * inversion IH; assumption.
Qed.

Section Collapsing.
Variable ws : ascii -> bool.
Hypothesis ws_space : ws " "%char = true.

Lemma pieces_nonempty (s : string) : pieces ws s <> [].
Proof.
  destruct s as [|c s]; cbn; [discriminate|].
  destruct (ws c); [discriminate|].
  destruct (pieces ws s); discriminate.
Qed.

Lemma pieces_app_space (a b : string) :
  pieces ws (a ++ String " "%char b)%string = pieces ws a ++ pieces ws b.
Proof.
  induction a as [|c a IH]; cbn [append pieces].
  - rewrite ws_space. reflexivity.
  - rewrite IH. destruct (ws c); [reflexivity|].
    destruct (pieces ws a) eqn:E; [|reflexivity].
    exfalso. exact (pieces_nonempty a E).
Qed.

Lemma tokens_app_space (a b : string) :
  tokens ws (a ++ " " ++ b)%string = tokens ws a ++ tokens ws b.
Proof.
  unfold tokens. change (a ++ " " ++ b)%string with (a ++ String " "%char b)%string.
  rewrite pieces_app_space, filter_app. reflexivity.
Qed.

Lemma tokens_lineOf (g : list string) : tokens ws (lineOf g) = flat_map (tokens ws) g.
Proof.
  induction g as [|w g IH]; [reflexivity|].
  cbn [lineOf flat_map]. rewrite tokens_app_space, IH. reflexivity.
Qed.

Lemma tokens_join (lines : list string) :
  tokens ws (JS.join " " lines) = flat_map (tokens ws) lines.
Proof.
  induction lines as [|l [|l' rest] IH]; [reflexivity| |].
  - cbn. rewrite app_nil_r. reflexivity.
  - change (JS.join " " (l :: l' :: rest))
      with (l ++ " " ++ JS.join " " (l' :: rest))%string.
    rewrite tokens_app_space, IH. reflexivity.
Qed.

(** The text has the tokens of its words. *)
Lemma tokens_text (s : string) :
  tokens ws s = flat_map (tokens ws) (JS.split " "%char s).
Proof.
  rewrite <- (join_split " "%char s) at 1. apply tokens_join.
Qed.

Lemma tokens_lines (groups : list (list string)) :
  flat_map (tokens ws) (map lineOf groups) = flat_map (tokens ws) (List.concat groups).
Proof.
  induction groups as [|g groups IH]; [reflexivity|].
  cbn [map flat_map List.concat]. rewrite tokens_lineOf, flat_map_app, IH. reflexivity.
Qed.
End Collapsing.

(** *** The loop *)

Section Loop.
Variable measure : string -> Q.
Variables x maxWidth lineHeight : Q.

Lemma wrapLoop_groups (words : list string) :
  forall (n : nat) (cur : list string) (y : Q),
    linesOf (wrapLoop measure x maxWidth lineHeight words n (lineOf cur) y)
    = map lineOf (groupsFrom measure maxWidth words n cur).
Proof.
  induction words as [|w rest IH]; intros n cur y; [reflexivity|].
  cbn [wrapLoop groupsFrom].
  destruct (JS.gt (measure (lineOf cur ++ w ++ " ")%string) maxWidth && Nat.ltb 0 n).
  - cbn [linesOf flat_map textOf app map].
    change (w ++ " ")%string with (lineOf [w]) at 1.
    fold (linesOf (wrapLoop measure x maxWidth lineHeight rest (S n) (lineOf [w])
                            (y + lineHeight)%Q)).
    rewrite IH. reflexivity.
  - rewrite <- lineOf_snoc. apply IH.
Qed.

Lemma groupsFrom_concat (words : list string) :
  forall n cur, List.concat (groupsFrom measure maxWidth words n cur) = cur ++ words.
Proof.
  induction words as [|w rest IH]; intros n cur; cbn [groupsFrom].
  - cbn. rewrite app_nil_r. reflexivity.
  - destruct (_ && _).
    + cbn [List.concat]. rewrite IH. reflexivity.
    + rewrite IH, <- app_assoc. reflexivity.
Qed.

(** The first group continues the line in progress. *)
Lemma groupsFrom_head (words : list string) :
  forall n cur, exists more others,
      groupsFrom measure maxWidth words n cur = (cur ++ more) :: others.
Proof.
  induction words as [|w rest IH]; intros n cur; cbn [groupsFrom].
  - exists [], []. rewrite app_nil_r. reflexivity.
  - destruct (_ && _).
    + exists [], (groupsFrom measure maxWidth rest (S n) [w]).
      rewrite app_nil_r. reflexivity.
    + destruct (IH (S n) (cur ++ [w])) as (more & others & E).
      exists (w :: more), others. rewrite E, <- app_assoc. reflexivity.
Qed.

Lemma groupsFrom_fit (words : list string) :
  forall n cur,
    (n = O -> cur = []) ->
    (n <> O -> cur <> [] /\ fitsOrSingle measure maxWidth cur) ->
    (n = O -> words <> []) ->
    Forall (fun g => g <> [] /\ fitsOrSingle measure maxWidth g)
           (groupsFrom measure maxWidth words n cur).
Proof.
  induction words as [|w rest IH]; intros n cur H0 Hn Hw; cbn [groupsFrom].
  - constructor; [|constructor].
    destruct n; [exfalso; apply (Hw eq_refl); reflexivity|].
    apply Hn. discriminate.
  - destruct (JS.gt (measure (lineOf cur ++ w ++ " ")%string) maxWidth) eqn:G;
      destruct n as [|n]; cbn [andb Nat.ltb Nat.leb].
    + rewrite (H0 eq_refl). apply IH; try discriminate.
      intros _. split; [discriminate|]. right. exists w. reflexivity.
    + constructor; [apply Hn; discriminate|].
      apply IH; try discriminate.
      intros _. split; [discriminate|]. right. exists w. reflexivity.
    + rewrite (H0 eq_refl). apply IH; try discriminate.
      intros _. split; [discriminate|]. right. exists w. reflexivity.
    + apply IH; try discriminate.
      intros _. split; [destruct cur; discriminate|].
      left. rewrite lineOf_snoc. apply TrimFacts.gt_false. exact G.
Qed.

Lemma groupsFrom_forced (words : list string) :
  forall n cur, forced measure maxWidth (groupsFrom measure maxWidth words n cur).
Proof.
  induction words as [|w rest IH]; intros n cur; cbn [groupsFrom]; [exact I|].
  destruct (JS.gt (measure (lineOf cur ++ w ++ " ")%string) maxWidth) eqn:G; cbn [andb].
  - destruct (Nat.ltb 0 n); [|apply IH].
    destruct (groupsFrom_head rest (S n) [w]) as (more & others & E).
    specialize (IH (S n) [w]). rewrite E in IH |- *.
    cbn [forced app]. split; [|exact IH].
    apply TrimFacts.gt_true. exact G.
  - apply IH.
Qed.
End Loop.

(** C7, as stated, part (b): a drawn line is wider than the maximum
    only when it is a single white-space-separated word that is itself
    wider than the maximum.  [drawText] wraps the caption at the
    maximum 480.  At 10 units per character the caption made of [a]
    and a word of 48 characters is drawn as two lines: the second
    measures 490 as drawn, though its one word measures 480 and is not
    wider than the maximum.  And the caption [tabbed], whose three
    words are separated by a TAB and a LF, has no space to be cut at:
    it is drawn as one line of three words that measures 510. *)
Lemma line_wider_than_its_fitting_word :
  (CANVAS_WIDTH - 60 == 480)%Q
  /\ drawnLines ("a " ++ word48) = [name Notions.demoSong; "a "; (word48 ++ " ")%string]
  /\ (tenPerChar word48 <= 480)%Q
  /\ (480 < tenPerChar (word48 ++ " "))%Q
  /\ drawnLines tabbed = [name Notions.demoSong; (tabbed ++ " ")%string]
  /\ tokens JS.isWhiteSpace tabbed
     = ["aaaaaaaaaaaaaaaa"; "bbbbbbbbbbbbbbbb"; "cccccccccccccccc"]
  /\ (480 < tenPerChar (tabbed ++ " "))%Q.
Proof.
  split; [reflexivity|].
  split; [vm_compute; reflexivity|].
  split; [unfold Qle; vm_compute; discriminate|].
  split; [unfold Qlt; vm_compute; reflexivity|].
  split; [vm_compute; reflexivity|].
  split; [vm_compute; reflexivity|].
  unfold Qlt; vm_compute; reflexivity.
Qed.

(** C7, amended: the words of [wrapText] are the pieces of the text
    between space characters: no word has a space in it, and the words
    joined by single spaces are the text (other white space, a TAB or a
    LF, stays inside a word).  [wrapText] cuts this list of words into
    consecutive non-empty groups and draws one line per group, each word
    whole and followed by a space, in the order of the text; every line
    fits the maximum or is a single word; a line that is wider than the
    maximum as drawn, with its trailing space, is one word followed by
    a space; every line break was forced (the next word did not fit);
    and the lines joined by single spaces have the same tokens as the
    text, white space collapsed, for every class of white space that
    has the space in it (the space alone, or the class [\s]). *)
Theorem wrapText_wraps_whole_words
        (measure : string -> Q) (text : string) (x y maxWidth lineHeight : Q) :
  let words := JS.split " "%char text in
  let lines := linesOf (wrapText measure text x y maxWidth lineHeight) in
  Forall (fun w => spaceFree w = true) words
  /\ JS.join " " words = text
  /\ Forall (fun l => (measure l <= maxWidth)%Q
                      \/ exists w, In w words /\ spaceFree w = true /\ l = (w ++ " ")%string
                                   /\ (maxWidth < measure (w ++ " ")%string)%Q) lines
  /\ exists groups : list (list string),
    List.concat groups = words
    /\ lines = map lineOf groups
    /\ Forall (fun g => g <> [] /\ fitsOrSingle measure maxWidth g) groups
    /\ forced measure maxWidth groups
    /\ (forall ws, ws " "%char = true -> tokens ws (JS.join " " lines) = tokens ws text).
Proof.
  intros words lines.
  assert (Hl : lines = map lineOf (groupsFrom measure maxWidth words 0 [])).
  { subst lines. unfold wrapText. fold words.
    change EmptyString with (lineOf []). apply wrapLoop_groups. }
  assert (Hfit : Forall (fun g => g <> [] /\ fitsOrSingle measure maxWidth g)
                        (groupsFrom measure maxWidth words 0 [])).
  { apply groupsFrom_fit; [reflexivity|intros H; contradiction|].
    intros _. apply split_nonempty. }
  assert (Hfree : Forall (fun w => spaceFree w = true) words) by apply split_spaceFree.
  split; [exact Hfree|]. split; [apply (join_split " "%char)|]. split.
  - rewrite Hl. apply Forall_forall. intros l Hin.
    apply in_map_iff in Hin as (g & <- & Hg).
    rewrite Forall_forall in Hfit. destruct (Hfit g Hg) as [_ [Hle|[w ->]]].
    + left. exact Hle.
    + destruct (Qlt_le_dec maxWidth (measure (lineOf [w]))) as [Hlt|Hle]; [|left; exact Hle].
      right. exists w.
      assert (Hw : In w words).
      { change words with ([] ++ words).
        rewrite <- (groupsFrom_concat measure maxWidth words 0 []).
        apply in_concat. exists [w]. split; [exact Hg|left; reflexivity]. }
      rewrite Forall_forall in Hfree.
      split; [exact Hw|]. split; [apply Hfree, Hw|]. split; [reflexivity|exact Hlt].
  - exists (groupsFrom measure maxWidth words 0 []).
    split; [apply groupsFrom_concat|]. split; [exact Hl|].
    split; [exact Hfit|]. split.
    + apply groupsFrom_forced.
    + intros ws Hws.
      rewrite Hl, (tokens_join ws Hws), (tokens_lines ws Hws), groupsFrom_concat.
      symmetry. apply (tokens_text ws Hws).
Qed.

Example wrap_sample :
  linesOf (wrapText tenPerChar "aa bb  cccccccc d e" 270 580 60 30)
  = ["aa bb "; " "; "cccccccc "; "d e "].
Proof. vm_compute. reflexivity. Qed.

Example wrap_sample_tokens :
  tokens isSpace (JS.join " " ["aa bb "; " "; "cccccccc "; "d e "])
  = ["aa"; "bb"; "cccccccc"; "d"; "e"]
  /\ tokens JS.isWhiteSpace "aa bb  cccccccc d e" = ["aa"; "bb"; "cccccccc"; "d"; "e"].
Proof. split; vm_compute; reflexivity. Qed.
End WrapFacts.

(** ** The frame when the analysis graph is not open *)

Module FrameFacts.
Import Canvas Render Notions Frame.
Local Open Scope Q_scope.

Lemma paint_app (g : GState) (a b : list Op) :
  paint g (a ++ b)
  = (fst (paint g a) ++ fst (paint (snd (paint g a)) b), snd (paint (snd (paint g a)) b)).
Proof.
  revert g. induction a as [|o a IH]; intros g; cbn [app paint].
  - cbn [fst snd app]. destruct (paint g b); reflexivity.
  - destruct (exec g o) as [m g1]. rewrite IH.
    destruct (paint g1 a) as [ma g2]. cbn [fst snd].
    destruct (paint g2 b) as [mb g3]. cbn [fst snd].
    rewrite app_assoc. reflexivity.
Qed.

Lemma marks_app (g : GState) (a b : list Op) :
  marks g (a ++ b) = marks g a ++ marks (snd (paint g a)) b.
Proof. unfold marks. rewrite paint_app. reflexivity. Qed.

Lemma all_zero_nth (data : list Z) :
  Forall (fun v => v = 0%Z) data -> forall k, nth k data 0%Z = 0%Z.
Proof.
  induction 1 as [|v data Hv _ IH]; intros [|k]; cbn; auto.
Qed.

Lemma silent_data :
  Forall (fun v => v = 0%Z)
         (getByteFrequencyData silentAnalyser (frequencyBinCount silentAnalyser)).
Proof.
  vm_compute. repeat constructor.
Qed.

(** The bars of an all-zero frame leave no mark and touch the fill
    style only. *)
Lemma silent_bars (data : list Z) (bufferLength : nat) (barWidth : Q) :
  (forall k, nth k data 0%Z = 0%Z) ->
  forall count i x g,
    fst (paint g (drawBarsLoop data bufferLength barWidth count i x)) = []
    /\ sameCanvas g (snd (paint g (drawBarsLoop data bufferLength barWidth count i x))).
Proof.
  intros Hz. induction count as [|count IH]; intros i x g.
  - split; [reflexivity|split; reflexivity].
  - cbn [drawBarsLoop paint exec]. rewrite Hz.
    change (emptyRect barWidth (inject_Z 0 * 1.5)) with (Qeq_bool barWidth 0 || true).
    rewrite orb_true_r.
    match goal with |- context [paint ?g1 (drawBarsLoop _ _ _ _ ?j ?y)] =>
      destruct (IH j y g1) as [Hm Hs]; destruct (paint g1 (drawBarsLoop data bufferLength barWidth count j y)) as [ms g2]
    end.
    cbn [fst snd] in *. subst ms. split; [reflexivity|].
    destruct Hs as [Hs Ht]. split; [rewrite Hs|rewrite Ht]; reflexivity.
Qed.

(** The ticks of an all-zero frame leave no mark and keep the stack of
    saved states and the path. *)
Lemma silent_ticks (data : list Z) (bufferLength : nat) :
  (forall k, nth k data 0%Z = 0%Z) ->
  forall l g,
    fst (paint g (flat_map (drawSegment data bufferLength) l)) = []
    /\ saved (snd (paint g (flat_map (drawSegment data bufferLength) l))) = saved g
    /\ path (snd (paint g (flat_map (drawSegment data bufferLength) l))) = path g.
Proof.
  intros Hz. induction l as [|i l IH]; intros g.
  - repeat split.
  - cbn [flat_map drawSegment app paint exec]. rewrite Hz.
    change (emptyRect 4 (inject_Z 0 * 0.8)) with true. cbv iota.
    match goal with |- context [paint ?g1 (flat_map _ l)] =>
      destruct (IH g1) as (Hm & Hs & Hp);
      destruct (paint g1 (flat_map (drawSegment data bufferLength) l)) as [ms g2]
    end.
    cbn [fst snd] in *. subst ms. split; [reflexivity|].
    split; [rewrite Hs|rewrite Hp]; reflexivity.
Qed.

(** The progress bar sets its own fill style. *)
Lemma progress_same (audioRef : option Audio) (g g' : GState) :
  sameCanvas g g' -> marks g' (drawProgress audioRef) = marks g (drawProgress audioRef).
Proof.
  intros [Hs Ht]. unfold drawProgress.
  destruct audioRef as [a|]; [|reflexivity].
  destruct (mediaDuration a) as [d|]; [|reflexivity].
  destruct (Qeq_bool d 0); [reflexivity|].
  unfold marks. cbn [paint exec fst withPen pen].
  unfold shadowOf in *. cbn [shadowColor shadowBlur transform].
  destruct (emptyRect _ _); [reflexivity|].
  cbn. injection Hs as Hc Hb. rewrite Hc, Hb, Ht. reflexivity.
Qed.

(** The all-zero radial spectrum paints the ring and nothing else. *)
Lemma silent_circle (data : list Z) (bufferLength : nat) (g : GState) :
  (forall k, nth k data 0%Z = 0%Z) ->
  fst (paint g (drawCircle data bufferLength)) = [ringMark g]
  /\ sameCanvas g (snd (paint g (drawCircle data bufferLength))).
Proof.
  intros Hz. unfold drawCircle. generalize (seq 0 segments). intros l.
  cbn [app paint exec]. rewrite paint_app.
  match goal with |- context [paint ?g1 (flat_map _ _)] =>
    destruct (silent_ticks data bufferLength Hz l g1) as (Hm & Hs & Hp);
    set (r := paint g1 (flat_map (drawSegment data bufferLength) l)) in *
  end.
  clearbody r. destruct r as [ms g2]. cbn [fst snd] in *. subst ms.
  cbn [app paint exec drawRing]. rewrite Hs. cbn [saved withPen pen].
  destruct g as [p sv pa].
  cbn [fst snd app pen saved path withPen].
  split; [reflexivity|split; reflexivity].
Qed.

(** In bars mode the two frames of the example paint the same. *)
Example closed_graph_bars_sample :
  marks freshContext (demoFrame bars None)
  = marks freshContext (demoFrame bars (Some silentAnalyser))
  /\ List.length (demoFrame bars None) = 18%nat
  /\ List.length (demoFrame bars (Some silentAnalyser)) = 274%nat.
Proof. vm_compute. repeat split; reflexivity. Qed.

(** C6, as stated, fails in radial mode: without an analyser the frame
    of the example has six marks, the frame of the all-zero analysis
    has a seventh, the ring. *)
Lemma closed_graph_has_no_ring :
  List.length (marks freshContext (demoFrame circle None)) = 6%nat
  /\ List.length (marks freshContext (demoFrame circle (Some silentAnalyser))) = 7%nat
  /\ marks freshContext (demoFrame circle None)
     <> marks freshContext (demoFrame circle (Some silentAnalyser)).
Proof.
  assert (H6 : List.length (marks freshContext (demoFrame circle None)) = 6%nat)
    by (vm_compute; reflexivity).
  assert (H7 : List.length (marks freshContext (demoFrame circle (Some silentAnalyser))) = 7%nat)
    by (vm_compute; reflexivity).
  split; [exact H6|]. split; [exact H7|].
  intro E. rewrite E, H7 in H6. discriminate H6.
Qed.

(** C6, amended: when the graph is not open the spectrum step is
    skipped, so the frame is exactly background, title, caption and
    progress bar.  In bars mode this paints what the all-zero analysis
    frame paints (its bars have no height).  In radial mode the all-zero
    analysis frame has one more mark, the ring, between the text and the
    progress bar; the frame without an analyser does not have it. *)
Theorem closed_graph_skips_spectrum
        (songData : SongData) (visualData : VisualData)
        (measureText : string -> string -> Q) (loadImage : string -> Image)
        (audioRef : option Audio) (g : GState) :
  let frame mode analyser :=
      drawVisualizer songData visualData measureText loadImage true mode analyser audioRef in
  let layers := drawBackground visualData loadImage
                ++ drawText songData visualData measureText in
  let g1 := snd (paint g layers) in
  (forall mode, frame mode None = layers ++ drawProgress audioRef)
  /\ marks g (frame bars None) = marks g (frame bars (Some silentAnalyser))
  /\ marks g (frame circle None) = marks g layers ++ marks g1 (drawProgress audioRef)
  /\ marks g (frame circle (Some silentAnalyser))
     = marks g layers ++ [ringMark g1] ++ marks g1 (drawProgress audioRef).
Proof.
  intros frame layers g1.
  assert (Hnone : forall mode, frame mode None = layers ++ drawProgress audioRef).
  { intros mode. subst frame layers. unfold drawVisualizer, drawSpectrum.
    cbn [app]. rewrite app_assoc. reflexivity. }
  assert (Hsome : forall mode,
             frame mode (Some silentAnalyser)
             = layers ++ drawSpectrum mode (Some silentAnalyser) ++ drawProgress audioRef).
  { intros mode. subst frame layers. unfold drawVisualizer.
    rewrite app_assoc. reflexivity. }
  pose proof (all_zero_nth _ silent_data) as Hz.
  split; [exact Hnone|]. split; [|split].
  - rewrite Hnone, Hsome, !marks_app. fold g1. f_equal.
    unfold drawSpectrum, drawBars.
    match goal with |- context [drawBarsLoop ?d ?n ?w ?c ?i ?x] =>
      destruct (silent_bars d n w Hz c i x g1) as [Hm Hs]
    end.
    unfold marks at 2. rewrite Hm. cbn [app].
    symmetry. apply progress_same. exact Hs.
  - rewrite Hnone, marks_app. reflexivity.
  - rewrite Hsome, !marks_app. fold g1. f_equal.
    unfold drawSpectrum.
    destruct (silent_circle _ (frequencyBinCount silentAnalyser) g1 Hz) as [Hm Hs].
    unfold marks at 1. rewrite Hm. cbn [app]. f_equal.
    apply progress_same. exact Hs.
Qed.
End FrameFacts.

(** ** RenderLoopScheduler: what happens after a pause *)

Module SchedulerFacts.
Import Editor Notions Scheduler EditorFacts.

(** One refresh of a spinning loop draws once more, from the same
    closure, and spins on; the React state is not touched. *)
Lemma spinning_refresh (sup : string -> bool) (out : string -> RecorderOutcome)
      (c : ReactState) (e : Editor) (t : Z) :
  spinning c e ->
  let e' := step sup out e (t, AnimationFrame) in
  spinning c e'
  /\ drawLog (host e') = drawLog (host e) ++ [c]
  /\ react e' = react e.
Proof.
  intros (Hc & Hp & id & Hq) e'. subst e'.
  unfold step. cbn [fst snd handle].
  assert (Hr : react (animationFrame e) = react e
               /\ canvasRef (refs (animationFrame e)) = true
               /\ rafQueue (host (animationFrame e)) = [(rafNext (host e), Loop c)]
               /\ drawLog (host (animationFrame e)) = drawLog (host e) ++ [c]).
  { unfold animationFrame. rewrite Hq. cbn [fold_left snd runCallback].
    unfold loop, callDrawVisualizer. cbn [onHost refs]. rewrite Hc, Hp.
    cbn. rewrite Hc. repeat split; reflexivity. }
  destruct Hr as (Hr & Hc' & Hq' & Hd).
  pose proof (rerender_same t (animationFrame e)) as Hsame.
  rewrite Hr in Hsame. rewrite Hsame.
  split; [|split; [exact Hd|exact Hr]].
  split; [exact Hc'|]. split; [exact Hp|]. eexists. exact Hq'.
Qed.

(** The intended behaviour, on the simple run: after the pause one
    settling frame is drawn and nothing is pending any more. *)
Example pause_settles :
  isPlaying (react playThenPause) = false
  /\ List.length (drawLog (host (run onlyMp4 alwaysStarts (refreshes 1) playThenPause)))
     = S (List.length (drawLog (host playThenPause)))
  /\ rafQueue (host (run onlyMp4 alwaysStarts (refreshes 1) playThenPause)) = []
  /\ run onlyMp4 alwaysStarts (refreshes 5) playThenPause = run onlyMp4 alwaysStarts (refreshes 1) playThenPause.
Proof. vm_compute. repeat split; reflexivity. Qed.

Lemma switchThenPause_settled :
  spinning playingBars (run onlyMp4 alwaysStarts (refreshes 1) switchThenPause)
  /\ react (run onlyMp4 alwaysStarts (refreshes 1) switchThenPause) = mkReact false false None circle 0 25
  /\ List.length (drawLog (host (run onlyMp4 alwaysStarts (refreshes 1) switchThenPause)))
     = (List.length (drawLog (host switchThenPause)) + 2)%nat.
Proof.
  split; [|split; vm_compute; reflexivity].
  split; [vm_compute; reflexivity|]. split; [reflexivity|].
  exists 8%nat. vm_compute. reflexivity.
Qed.

(** A spinning loop spins for ever. *)
Lemma spinning_forever (sup : string -> bool) (out : string -> RecorderOutcome)
      (c : ReactState) (n : nat) :
  forall e0, spinning c e0 ->
    spinning c (run sup out (refreshes n) e0)
    /\ react (run sup out (refreshes n) e0) = react e0
    /\ drawLog (host (run sup out (refreshes n) e0)) = drawLog (host e0) ++ repeat c n.
Proof.
  induction n as [|n IH]; intros e0 Hs.
  - cbn. rewrite app_nil_r. repeat split; try reflexivity; apply Hs.
  - destruct (spinning_refresh sup out c e0 0%Z Hs) as (Hs' & Hd & Hr').
    destruct (IH _ Hs') as (Hs'' & Hr'' & Hd'').
    change (run sup out (refreshes (S n)) e0)
      with (run sup out (refreshes n) (step sup out e0 (0%Z, AnimationFrame))).
    split; [exact Hs''|]. split; [rewrite Hr''; exact Hr'|].
    rewrite Hd'', Hd, <- app_assoc. reflexivity.
Qed.

Lemma refreshes_succ (sup : string -> bool) (out : string -> RecorderOutcome)
      (n : nat) (e : Editor) :
  run sup out (refreshes (S n)) e = run sup out (refreshes n) (run sup out (refreshes 1) e).
Proof. reflexivity. Qed.

(** The same happens without any change of mode when the track ends
    during a recording: once the timer has stopped the recorder the
    session is inactive, and the loop of the render that was recording
    goes on for ever. *)
Lemma capped_after_natural_end_keeps_spinning :
  forall n : nat,
    isPlaying (react endedThenCapped) = false
    /\ isRecording (react endedThenCapped) = false
    /\ (exists id, rafQueue (host (run onlyMp4 alwaysStarts (refreshes n) endedThenCapped))
                   = [(id, Loop recordingEnded)])
    /\ drawLog (host (run onlyMp4 alwaysStarts (refreshes n) endedThenCapped))
       = drawLog (host endedThenCapped) ++ repeat recordingEnded n.
Proof.
  intros n.
  assert (Hs : spinning recordingEnded endedThenCapped).
  { split; [vm_compute; reflexivity|]. split; [reflexivity|].
    exists 5%nat. vm_compute. reflexivity. }
  assert (Hp : isPlaying (react endedThenCapped) = false) by (vm_compute; reflexivity).
  assert (Hr : isRecording (react endedThenCapped) = false) by (vm_compute; reflexivity).
  revert Hs Hp Hr. generalize endedThenCapped. intros e Hs Hp Hr.
  destruct (spinning_forever onlyMp4 alwaysStarts recordingEnded n e Hs)
    as ((_ & _ & Hq) & _ & Hd).
  split; [exact Hp|]. split; [exact Hr|]. split; [exact Hq|exact Hd].
Qed.

(** C8 on the run that switches the visualization while playing and
    then pauses: the session is inactive (paused, not recording, the
    mode is the circle), yet after the refresh that draws the settling
    frame a loop of the render that was playing bars is still pending,
    and each further refresh draws one more frame from that closure and
    leaves the loop pending: the scheduler never stops. *)
Theorem paused_scheduler_keeps_spinning :
  forall n : nat,
    let settled := run onlyMp4 alwaysStarts (refreshes 1) switchThenPause in
    let e := run onlyMp4 alwaysStarts (refreshes (S n)) switchThenPause in
    react e = mkReact false false None circle 0 25
    /\ (exists id, rafQueue (host e) = [(id, Loop playingBars)])
    /\ drawLog (host e) = drawLog (host settled) ++ repeat playingBars n.
Proof.
  intros n. cbv zeta. rewrite refreshes_succ.
  generalize switchThenPause_settled.
  generalize (run onlyMp4 alwaysStarts (refreshes 1) switchThenPause).
  intros settled (Hs & Hr & _).
  destruct (spinning_forever onlyMp4 alwaysStarts playingBars n settled Hs)
    as ((_ & _ & Hq) & Hr' & Hd).
  split; [rewrite Hr'; exact Hr|]. split; [exact Hq|exact Hd].
Qed.
End SchedulerFacts.

(** ** Recording sessions: the cap and the natural end of the track *)

Module SessionFacts.
Import Editor Notions Session EditorFacts.
Local Open Scope Z_scope.

(** The test of the timer, in milliseconds. *)
Lemma cap_reached (s t : Z) : JS.ge (elapsedSeconds s t) 30 = (30000 <=? t - s).
Proof.
  unfold JS.ge, elapsedSeconds.
  assert (H : (30 <= inject_Z (t - s) / 1000)%Q <-> 30000 <= t - s).
  { unfold Qle, Qdiv, Qmult, Qinv, inject_Z. cbn. lia. }
  destruct (30000 <=? t - s) eqn:E.
  - apply Z.leb_le in E. apply Qle_bool_iff, H, E.
  - apply Z.leb_gt in E. destruct (Qle_bool _ _) eqn:F; [|reflexivity].
    apply Qle_bool_iff, H in F. lia.
Qed.

Lemma tame_core (now : Z) (tick : bool) (e e1 e2 : Editor) :
  tame now tick e e1 -> core e2 = core e1 -> tame now tick e e2.
Proof.
  unfold core, tame, stopsAreInactive, encoding.
  intros H [= H1 H2 H3 H4]. rewrite H1, H2, H3, H4. exact H.
Qed.

Lemma tame_refl (now : Z) (e : Editor) : tame now false e e.
Proof.
  unfold tame. repeat split; intros; try solve [auto | discriminate | congruence].
Qed.

Lemma tame_same (now : Z) (e e' : Editor) : core e' = core e -> tame now false e e'.
Proof. intros H. exact (tame_core now false e e e' (tame_refl now e) H). Qed.

Lemma gesture_core (e : Editor) : core (handleUserGesture e) = core e.
Proof.
  open_editor e. unfold handleUserGesture, initAudioContext. cbn.
  destruct (audioContextRef gr), wa; reflexivity.
Qed.

Lemma togglePlay_core (e : Editor) : core (togglePlay e) = core e.
Proof.
  open_editor e. unfold togglePlay. cbn.
  destruct au; [destruct (audioContextRef gr)|]; reflexivity.
Qed.

Lemma handleStartTimeChange_core (v : Q) (e : Editor) :
  core (handleStartTimeChange v e) = core e.
Proof.
  open_editor e. unfold handleStartTimeChange. cbn. destruct au; reflexivity.
Qed.

Lemma dataAvailable_core (size : N) (e : Editor) : core (dataAvailable size e) = core e.
Proof.
  open_editor e. unfold dataAvailable. cbn.
  destruct mr; [destruct (N.ltb 0 size)|]; reflexivity.
Qed.

Lemma loadedMetadata_core (d : Q) (e : Editor) : core (loadedMetadata d e) = core e.
Proof.
  open_editor e. unfold loadedMetadata. cbn. destruct au; reflexivity.
Qed.

Ltac tame_cases :=
  unfold tame, stopsAreInactive, encoding; cbn;
  repeat split; intros;
  repeat match goal with
         | H : Some _ = Some _ |- _ => injection H as H; subst
         | H : exists _, _ |- _ => destruct H
         | H : _ /\ _ |- _ => destruct H
         | H : forall r, Some _ = Some r -> _ |- _ => specialize (H _ eq_refl)
         end;
  cbn in *;
  try solve [auto | discriminate | congruence | lia | intuition congruence].

Lemma stopRecording_tame (now : Z) (e : Editor) : tame now false e (stopRecording e).
Proof.
  open_editor e. unfold stopRecording. cbn.
  destruct mr as [[mt [|] sq cs]|]; tame_cases.
Qed.

Lemma audioEnded_tame (now : Z) (e : Editor) : tame now false e (audioEnded e).
Proof.
  open_editor e. unfold audioEnded, stopRecording. cbn.
  destruct oe as [c|]; [destruct (isRecording c)|];
    try destruct mr as [[mt [|] sq cs]|]; tame_cases.
Qed.

Lemma recorderStopped_tame (now : Z) (e : Editor) : tame now false e (recorderStopped e).
Proof.
  open_editor e. unfold recorderStopped. cbn.
  destruct mr as [[mt [|] sq cs]|]; [destruct sq| destruct sq|]; cbn; tame_cases.
Qed.

Lemma startRecording_tame (sup : string -> bool) (out : string -> RecorderOutcome)
      (now : Z) (e : Editor) :
  isRecording (react e) = false -> tame now false e (startRecording sup out e).
Proof.
  open_editor e. unfold startRecording.
  generalize (find sup mimeTypes). intros f. cbn. intros ->.
  destruct au as [a|]; [|tame_cases].
  destruct (cv && destRef gr); [|tame_cases].
  destruct f as [t|]; [destruct (out t)|]; cbn.
  all: destruct mr as [[mt [|] sq cs]|]; tame_cases.
Qed.

Lemma intervalFired_tame (now : Z) (e : Editor) : tame now true e (intervalFired now e).
Proof.
  open_editor e. unfold intervalFired, intervalCallback, stopRecording. cbn.
  destruct iv as [[s0 l0]|]; [|tame_cases].
  rewrite cap_reached. cbn.
  destruct (30000 <=? now - s0) eqn:E;
    [apply Z.leb_le in E|apply Z.leb_gt in E];
    destruct mr as [[mt [|] sq cs]|]; tame_cases.
  all: try (right; split; [reflexivity|]; eexists; split; reflexivity).
Qed.

Section Steps.
Variable isTypeSupported : string -> bool.
Variable recorderOutcome : string -> RecorderOutcome.

Lemma user_tame (now : Z) (a : UserAction) (e : Editor) :
  tame now false e (user isTypeSupported recorderOutcome a e).
Proof.
  unfold user. destruct (offered (react e) a) eqn:Hoff; [|apply tame_refl].
  assert (H : tame now false e (handler isTypeSupported recorderOutcome a e)).
  { destruct a; cbn [handler].
    - apply tame_same, togglePlay_core.
    - apply tame_same. destruct e as [[] ? ?]. reflexivity.
    - apply tame_same, handleStartTimeChange_core.
    - apply startRecording_tame. cbn in Hoff.
      destruct (isRecording (react e)); [discriminate|reflexivity].
    - apply stopRecording_tame.
    - apply tame_refl.
    - apply tame_same. destruct e as [[] ? ?]. reflexivity.
    - apply tame_refl. }
  destruct (isClick a && clickListener (host (handler isTypeSupported recorderOutcome a e)));
    [|exact H].
  exact (tame_core _ _ _ _ _ H (gesture_core _)).
Qed.

Lemma handle_tame (now : Z) (ev : Event) (e : Editor) :
  tame now (isTick ev) e (handle isTypeSupported recorderOutcome now ev e).
Proof.
  destruct ev as [a|d| |size| | |]; cbn [handle isTick].
  - apply user_tame.
  - apply tame_same, loadedMetadata_core.
  - apply audioEnded_tame.
  - apply tame_same, dataAvailable_core.
  - apply recorderStopped_tame.
  - apply intervalFired_tame.
  - apply tame_same. destruct (animationFrame_quiet e) as (H1 & H2 & H3 & H4 & _).
    unfold core. rewrite H1, H2, H3, H4. reflexivity.
Qed.

(** A step, on the core: the handler, then the timer effect. *)
Lemma step_core (t : Z) (ev : Event) (e : Editor) :
  let e' := handle isTypeSupported recorderOutcome t ev e in
  let e'' := step isTypeSupported recorderOutcome e (t, ev) in
  react e'' = react e'
  /\ mediaRecorderRef (refs e'') = mediaRecorderRef (refs e')
  /\ onended (host e'') = onended (host e')
  /\ interval (host e'')
     = if Bool.eqb (isRecording (react e)) (isRecording (react e'))
       then interval (host e')
       else if isRecording (react e') then Some (mkInterval t t) else None.
Proof. unfold step. cbn [fst snd]. apply rerender_core. Qed.



Lemma onended_step (ev : Z * Event) (e : Editor) :
  onended (host (step isTypeSupported recorderOutcome e ev)) = onended (host e).
Proof.
  destruct ev as [t ev].
  destruct (handle_tame t ev e) as (H1 & _).
  destruct (step_core t ev e) as (_ & _ & Ho & _).
  rewrite Ho. exact H1.
Qed.





Lemma onended_run (evs : list (Z * Event)) :
  forall e, onended (host (run isTypeSupported recorderOutcome evs e)) = onended (host e).
Proof.
  induction evs as [|ev evs IH]; intros e; cbn [run fold_left]; [reflexivity|].
  unfold run in IH. rewrite IH. apply onended_step.
Qed.

End Steps.

Lemma mount_onended (songData : SongData) (ctx : bool) :
  onended (host (mount songData ctx))
  = if JS.truthy (url songData) then Some initialState else None.
Proof.
  unfold mount, audioEffect. destruct (JS.truthy (url songData)); reflexivity.
Qed.


(** In every state the component can reach, the [ended] event of the
    audio element leaves the recorder and [isRecording] as they are:
    the handler is the closure of the first render, whose [isRecording]
    is false. *)
Lemma ended_never_stops_encoder
      (songData : SongData) (ctx : bool)
      (sup : string -> bool) (out : string -> RecorderOutcome)
      (evs : list (Z * Event)) (t : Z) :
  let e := run sup out evs (mount songData ctx) in
  mediaRecorderRef (refs (step sup out e (t, Ended))) = mediaRecorderRef (refs e)
  /\ isRecording (react (step sup out e (t, Ended))) = isRecording (react e).
Proof.
  intros e.
  assert (Ho : onended (host e) = if JS.truthy (url songData) then Some initialState else None).
  { subst e. rewrite onended_run. apply mount_onended. }
  destruct (step_core sup out t Ended e) as (Hr & Hm & _).
  rewrite Hr, Hm. cbn [handle]. unfold audioEnded. rewrite Ho.
  destruct (JS.truthy (url songData)); split; reflexivity.
Qed.

(** C1 on a 25 s track recorded from its start: when the track ends
    (26 s on the clock), a manual stop would signal the encoder, but the
    [ended] handler does not: the recorder goes on recording, and it is
    the timer that stops it, at its tick 30 s after the start. *)
Theorem natural_end_is_not_a_stop :
  let ended := step onlyMp4 alwaysStarts recordingFrom1s (26000, Ended) in
  let stopped := step onlyMp4 alwaysStarts recordingFrom1s (26000, User ClickStop) in
  Capture.phase recordingFrom1s = Capture.Recording
  /\ Capture.phase stopped = Capture.Finalizing
  /\ Capture.phase ended = Capture.Recording
  /\ mediaRecorderRef (refs ended) = mediaRecorderRef (refs recordingFrom1s)
  /\ isPlaying (react ended) = false
  /\ encoding (run onlyMp4 alwaysStarts [(30900, IntervalFired)] ended) = true
  /\ encoding (run onlyMp4 alwaysStarts
                   [(30900, IntervalFired); (31000, IntervalFired)] ended) = false.
Proof. vm_compute. repeat split; reflexivity. Qed.


End SessionFacts.

(** ** The labels of the trimming panel *)

Module LabelsFacts.
Import Editor Notions Labels.
Local Open Scope Z_scope.

Lemma floor_unique (x : Q) (z : Z) :
  (inject_Z z <= x)%Q -> (x < inject_Z (z + 1))%Q -> Qfloor x = z.
Proof.
  intros Hl Hu.
  assert (H1 : z <= Qfloor x).
  { rewrite <- (Qfloor_Z z). apply Qfloor_resp_le, Hl. }
  assert (H2 : Qfloor x < z + 1).
  { rewrite Zlt_Qlt. eapply Qle_lt_trans; [apply Qfloor_le|exact Hu]. }
  lia.
Qed.

Lemma trunc_nonneg (x : Q) : (0 <= x)%Q -> trunc x = Qfloor x.
Proof.
  destruct x as [n d]. unfold Qle, trunc, Qfloor. cbn. intros H.
  apply Z.quot_div_nonneg; lia.
Qed.

(** The two numbers [formatTime] prints, for a time that is not negative. *)
Lemma minutes_seconds (time : Q) :
  (0 <= time)%Q ->
  Qfloor (time / 60) = Qfloor time / 60
  /\ Qfloor (rem time 60) = Qfloor time mod 60.
Proof.
  intros H0.
  pose proof (Qfloor_le time) as Hl. pose proof (Qlt_floor time) as Hu.
  set (f := Qfloor time) in *.
  assert (Hf : 0 <= f).
  { unfold f. rewrite <- (Qfloor_Z 0). apply Qfloor_resp_le, H0. }
  pose proof (Z.div_mod f 60 ltac:(lia)) as Hdm.
  pose proof (Z.mod_pos_bound f 60 ltac:(lia)) as Hm.
  set (q := f / 60) in *. set (r := f mod 60) in *.
  assert (Hq : Qfloor (time / 60) = q).
  { apply floor_unique.
    - apply Qle_shift_div_l; [reflexivity|].
      eapply Qle_trans; [|exact Hl]. change 60%Q with (inject_Z 60).
      rewrite <- inject_Z_mult, <- Zle_Qle. lia.
    - apply Qlt_shift_div_r; [reflexivity|].
      eapply Qlt_le_trans; [exact Hu|]. change 60%Q with (inject_Z 60).
      rewrite <- inject_Z_mult, <- Zle_Qle. lia. }
  split; [exact Hq|].
  unfold rem. rewrite trunc_nonneg.
  - rewrite Hq. apply floor_unique.
    + apply (Qplus_le_l _ _ (60 * inject_Z q)). ring_simplify.
      eapply Qle_trans; [|exact Hl].
      change 60%Q with (inject_Z 60).
      rewrite <- inject_Z_mult, <- inject_Z_plus, <- Zle_Qle. lia.
    + apply (Qplus_lt_l _ _ (60 * inject_Z q)). ring_simplify.
      eapply Qlt_le_trans; [exact Hu|].
      change 60%Q with (inject_Z 60).
      rewrite <- inject_Z_mult, <- inject_Z_plus, <- Zle_Qle. lia.
  - apply Qle_shift_div_l; [reflexivity|]. ring_simplify. exact H0.
Qed.

Lemma two_digits (n : Z) :
  0 <= n < 100 ->
  padStart 2 "0" (numberToString n)
  = String (digitChar (n / 10)) (String (digitChar (n mod 10)) EmptyString).
Proof.
  intros Hn. unfold numberToString.
  destruct (n <? 0) eqn:E0; [apply Z.ltb_lt in E0; lia|].
  destruct (Z_lt_le_dec n 10) as [Hs|Hb].
  - cbn [digitsOf]. apply Z.ltb_lt in Hs as Hs'. rewrite Hs'.
    rewrite (Z.div_small n 10) by lia. reflexivity.
  - assert (Hlog : 3 <= Z.log2 n).
    { apply Z.log2_le_pow2; lia. }
    destruct (Z.to_nat (Z.log2 n)) as [|k] eqn:Ek; [lia|].
    cbn [digitsOf].
    assert (E1 : (n <? 10) = false) by (apply Z.ltb_ge; lia).
    assert (E2 : (n / 10 <? 10) = true).
    { apply Z.ltb_lt. apply Z.div_lt_upper_bound; lia. }
    rewrite E1, E2.
    rewrite (Z.mod_small (n / 10) 10).
    + reflexivity.
    + split; [apply Z.div_pos; lia|apply Z.div_lt_upper_bound; lia].
Qed.

(** X1: for a time that is not negative, [formatTime] prints the whole
    minutes of the time in decimal, a colon, and the remaining whole
    seconds (0 to 59) with exactly two digits: the seconds are padded
    with a zero, and minutes and seconds are those of the integer part
    of the time (a fractional part is dropped, never rounded up). *)
Theorem formatTime_minutes_seconds (time : Q) :
  (0 <= time)%Q ->
  let whole := Qfloor time in
  formatTime time
  = (numberToString (whole / 60) ++ ":"
     ++ String (digitChar (whole mod 60 / 10))
          (String (digitChar (whole mod 60 mod 10)) EmptyString))%string.
Proof.
  intros H0 whole. unfold formatTime.
  destruct (minutes_seconds time H0) as [Hq Hr]. fold whole in Hq, Hr.
  rewrite Hq, Hr, two_digits; [reflexivity|].
  pose proof (Z.mod_pos_bound whole 60 ltac:(lia)). lia.
Qed.

Lemma formatTime_minutes_seconds_witness :
  (0 <= 754.5)%Q /\ formatTime 754.5 = "12:34"%string.
Proof.
  split; [discriminate|].
  exact (formatTime_minutes_seconds 754.5 ltac:(discriminate)).
Defined.

(** X2: for a track of duration [d >= 0] and a start offset the range
    input can hold (between 0 and its [max]), the two times shown under
    "Inicio" and "Fim" delimit a window inside the track, and its length
    is [min(30, d)]: 30 s when the track is longer, the whole track
    otherwise. *)
Theorem trim_window_fits (s : ReactState) :
  (0 <= duration s)%Q ->
  (0 <= startTime s)%Q -> (startTime s <= sliderMax (duration s))%Q ->
  (startTime s <= endTime s)%Q
  /\ (endTime s <= duration s)%Q
  /\ (endTime s - startTime s == Qmin 30 (duration s))%Q.
Proof.
  unfold endTime, sliderMax. destruct s as [p r u m st d]. cbn.
  intros Hd H0 Hmax.
  destruct (JS.gt d 30) eqn:G.
  - apply TrimFacts.gt_true in G.
    rewrite (Q.min_l (st + 30) d) by lra.
    rewrite (Q.min_l 30 d) by lra.
    split; [lra|]. split; [lra|]. ring.
  - apply TrimFacts.gt_false in G.
    assert (Hs : (st == 0)%Q) by lra.
    rewrite (Q.min_r 30 d) by lra.
    rewrite (Q.min_r (st + 30) d) by lra.
    split; [lra|]. split; [lra|]. rewrite Hs. ring.
Qed.

Lemma trim_window_fits_witness :
  let s := mkReact false false None bars 12 95 in
  (startTime s <= endTime s)%Q
  /\ (endTime s <= duration s)%Q
  /\ (endTime s - startTime s == Qmin 30 (duration s))%Q.
Proof.
  apply (trim_window_fits (mkReact false false None bars 12 95));
    vm_compute; discriminate.
Defined.
End LabelsFacts.

(** ** Where the frame renderer draws *)

Module GeometryFacts.
Import Canvas Render Geometry.
Local Open Scope Q_scope.

Lemma ofNat_S (k : nat) : ofNat (S k) == ofNat k + 1.
Proof.
  unfold ofNat. rewrite Nat2Z.inj_succ, <- Z.add_1_r, inject_Z_plus. reflexivity.
Qed.

Lemma ofNat_pos (n : nat) : (0 < n)%nat -> 0 < ofNat n.
Proof.
  intros H. unfold ofNat. change 0 with (inject_Z 0). rewrite <- Zlt_Qlt. lia.
Qed.

(** *** Bars *)

Lemma drawBarsLoop_rects (data : list Z) (n : nat) (bw : Q) :
  forall count i x k, (k < count)%nat ->
    exists x',
      nth_error (rectsOf (drawBarsLoop data n bw count i x)) k
      = Some (x', CANVAS_HEIGHT - inject_Z (nth (i + k) data 0%Z) * 1.5 - 120, bw,
              inject_Z (nth (i + k) data 0%Z) * 1.5)
      /\ x' == x + ofNat k * (bw + 1).
Proof.
  induction count as [|count IH]; intros i x k Hk; [lia|].
  cbn [drawBarsLoop rectsOf flat_map rectOf app].
  destruct k as [|k].
  - exists x. rewrite Nat.add_0_r. split; [reflexivity|].
    unfold ofNat. cbn [Z.of_nat]. ring.
  - destruct (IH (S i) (x + bw + 1) k ltac:(lia)) as (x' & Hn & Hx).
    exists x'. cbn [nth_error]. fold (rectsOf (drawBarsLoop data n bw count (S i) (x + bw + 1))).
    rewrite Nat.add_succ_r. cbn [Nat.add] in Hn. split; [exact Hn|].
    rewrite Hx, ofNat_S. ring.
Qed.

Lemma drawBarsLoop_count (data : list Z) (n : nat) (bw : Q) :
  forall count i x, List.length (rectsOf (drawBarsLoop data n bw count i x)) = count.
Proof.
  induction count as [|count IH]; intros i x; [reflexivity|].
  cbn [drawBarsLoop rectsOf flat_map rectOf app List.length].
  f_equal. apply IH.
Qed.

(** X3: [drawBars] fills one rectangle per bucket; bar [k] has the
    width [1350 / bufferLength] (that is [540 / bufferLength * 2.5]),
    starts at [k] times the width plus one, whatever the magnitudes
    are, is 1.5 times its magnitude high and stands on the line 120
    pixels above the bottom of the canvas. *)
Theorem drawBars_layout (data : list Z) (n k : nat) :
  (k < n)%nat ->
  let h := inject_Z (nth k data 0%Z) * 1.5 in
  List.length (rectsOf (drawBars data n)) = n
  /\ exists x w,
      nth_error (rectsOf (drawBars data n)) k = Some (x, CANVAS_HEIGHT - h - 120, w, h)
      /\ w == 1350 / ofNat n
      /\ x == ofNat k * (w + 1)
      /\ (CANVAS_HEIGHT - h - 120) + h == CANVAS_HEIGHT - 120.
Proof.
  intros Hk h. unfold drawBars. split; [apply drawBarsLoop_count|].
  destruct (drawBarsLoop_rects data n (CANVAS_WIDTH / ofNat n * 2.5) n 0 0 k Hk)
    as (x & Hn & Hx).
  exists x, (CANVAS_WIDTH / ofNat n * 2.5). cbn [Nat.add] in Hn.
  split; [exact Hn|].
  assert (Hpos : ~ ofNat n == 0).
  { intros E. pose proof (ofNat_pos n ltac:(lia)) as P. rewrite E in P.
    exact (Qlt_irrefl 0 P). }
  split; [unfold CANVAS_WIDTH; field; exact Hpos|].
  split; [rewrite Hx; ring|ring].
Qed.

Lemma drawBars_layout_witness :
  (3 < 128)%nat
  /\ exists x w,
      nth_error (rectsOf (drawBars (repeat 200%Z 128) 128)) 3
      = Some (x, CANVAS_HEIGHT - inject_Z 200 * 1.5 - 120, w, inject_Z 200 * 1.5)
      /\ w == 1350 / ofNat 128
      /\ x == ofNat 3 * (w + 1)
      /\ (CANVAS_HEIGHT - inject_Z 200 * 1.5 - 120) + inject_Z 200 * 1.5
         == CANVAS_HEIGHT - 120.
Proof.
  split; [lia|].
  exact (proj2 (drawBars_layout (repeat 200%Z 128) 128 3 ltac:(lia))).
Defined.

Lemma bar_on_canvas (n k : nat) (x w : Q) :
  (0 < n)%nat -> w == 1350 / ofNat n -> x == ofNat k * (w + 1) ->
  (x < CANVAS_WIDTH <-> (k * (1350 + n) < 540 * n)%nat).
Proof.
  intros Hn Hw Hx.
  pose proof (ofNat_pos n Hn) as Hpos.
  assert (Hne : ~ ofNat n == 0).
  { intros E. rewrite E in Hpos. exact (Qlt_irrefl 0 Hpos). }
  assert (E : x * ofNat n == inject_Z (Z.of_nat (k * (1350 + n)))).
  { rewrite Hx, Hw. rewrite Nat2Z.inj_mul, Nat2Z.inj_add, inject_Z_mult, inject_Z_plus.
    unfold ofNat. change (inject_Z (Z.of_nat 1350)) with 1350. field. exact Hne. }
  assert (F : CANVAS_WIDTH * ofNat n == inject_Z (Z.of_nat (540 * n))).
  { rewrite Nat2Z.inj_mul, inject_Z_mult. reflexivity. }
  rewrite <- (Qmult_lt_r x CANVAS_WIDTH (ofNat n) Hpos), E, F, <- Zlt_Qlt.
  lia.
Qed.

(** X4: a bar of [drawBars] starts left of the right edge of the canvas
    exactly when [k * (1350 + bufferLength) < 540 * bufferLength]: the
    bars take 2.5 times the width of the canvas, so those of the upper
    buckets are drawn outside it.  With the 128 buckets of the analyser
    the component creates ([fftSize = 256]) these are the bars from
    index 47 on. *)
Theorem bars_beyond_canvas (data : list Z) (n k : nat) :
  (k < n)%nat ->
  exists x y w h,
    nth_error (rectsOf (drawBars data n)) k = Some (x, y, w, h)
    /\ (x < CANVAS_WIDTH <-> (k * (1350 + n) < 540 * n)%nat)
    /\ (n = 128%nat -> (x < CANVAS_WIDTH <-> (k < 47)%nat)).
Proof.
  intros Hk. unfold drawBars.
  destruct (drawBarsLoop_rects data n (CANVAS_WIDTH / ofNat n * 2.5) n 0 0 k Hk)
    as (x & Hn & Hx).
  eexists x, _, _, _. split; [exact Hn|].
  assert (Hne : ~ ofNat n == 0).
  { intros E. pose proof (ofNat_pos n ltac:(lia)) as P. rewrite E in P.
    exact (Qlt_irrefl 0 P). }
  assert (Hon : x < CANVAS_WIDTH <-> (k * (1350 + n) < 540 * n)%nat).
  { apply (bar_on_canvas n k x (CANVAS_WIDTH / ofNat n * 2.5)); [lia| |].
    - unfold CANVAS_WIDTH. field. exact Hne.
    - rewrite Hx. ring. }
  split; [exact Hon|].
  intros ->. rewrite Hon. lia.
Qed.

Lemma bars_beyond_canvas_witness :
  (47 < 128)%nat
  /\ exists x y w h,
      nth_error (rectsOf (drawBars (repeat 200%Z 128) 128)) 47 = Some (x, y, w, h)
      /\ CANVAS_WIDTH <= x.
Proof.
  split; [lia|].
  destruct (bars_beyond_canvas (repeat 200%Z 128) 128 47 ltac:(lia))
    as (x & y & w & h & Hn & _ & H128).
  exists x, y, w, h. split; [exact Hn|].
  apply Qnot_lt_le. intros Hlt. apply (H128 eq_refl) in Hlt. lia.
Defined.

(** *** The radial spectrum *)

(** The bucket a tick reads. *)
Lemma segment_bucket (n i : nat) :
  Qfloor (ofNat i * (ofNat n / 2) / ofNat segments)
  = (Z.of_nat (i * n) / 240)%Z.
Proof.
  rewrite (Zdiv_Qdiv (Z.of_nat (i * n)) 240).
  apply Qfloor_comp.
  rewrite Nat2Z.inj_mul, inject_Z_mult. unfold ofNat, segments.
  change (inject_Z (Z.of_nat 120)) with 120. change (inject_Z 240) with 240.
  field.
Qed.

(** X5: tick [i] of the radial spectrum (of 120) reads the bucket
    [floor(i * bufferLength / 240)], which lies in the lower half of the
    buckets, so the read is always inside the data array; the ticks
    are turned by equal angles that add up to one full turn, and tick
    [i] has the hue [3 i]. *)
Theorem drawCircle_reads_lower_half (data : list Z) (n i : nat) :
  (0 < n)%nat -> (i < segments)%nat ->
  exists k turn,
    drawSegment data n i
    = [Rotate turn; SetFillStyle (Hsl (ofNat i * 3));
       FillRect 0 radius 4 (inject_Z (nth k data 0%Z) * 0.8)]
    /\ k = (i * n / 240)%nat
    /\ (2 * k < n)%nat
    /\ turn * ofNat segments == 2.
Proof.
  intros Hn Hi. unfold drawSegment. rewrite segment_bucket.
  exists (i * n / 240)%nat, (360 / ofNat segments / 180).
  assert (Ek : Z.to_nat (Z.of_nat (i * n) / 240) = (i * n / 240)%nat).
  { change 240%Z with (Z.of_nat 240). rewrite <- Nat2Z.inj_div. apply Nat2Z.id. }
  rewrite Ek. split; [reflexivity|]. split; [reflexivity|]. split.
  - unfold segments in Hi.
    pose proof (Nat.Div0.mul_div_le (i * n) 240) as Hd.
    assert (Hin : (i * n <= 119 * n)%nat) by (apply Nat.mul_le_mono_r; lia).
    lia.
  - vm_compute. reflexivity.
Qed.

Lemma drawCircle_reads_lower_half_witness :
  (0 < 128)%nat /\ (119 < segments)%nat
  /\ exists k turn,
      drawSegment (repeat 7%Z 128) 128 119
      = [Rotate turn; SetFillStyle (Hsl (ofNat 119 * 3));
         FillRect 0 radius 4 (inject_Z (nth k (repeat 7%Z 128) 0%Z) * 0.8)]
      /\ k = (119 * 128 / 240)%nat
      /\ (2 * k < 128)%nat
      /\ turn * ofNat segments == 2.
Proof.
  split; [lia|]. split; [unfold segments; lia|].
  exact (drawCircle_reads_lower_half (repeat 7%Z 128) 128 119
           ltac:(lia) ltac:(unfold segments; lia)).
Defined.

(** The ticks change the fill style and the transform only. *)
Lemma ticks_state (data : list Z) (n : nat) :
  forall l g,
    saved (snd (paint g (flat_map (drawSegment data n) l))) = saved g
    /\ path (snd (paint g (flat_map (drawSegment data n) l))) = path g.
Proof.
  induction l as [|i l IH]; intros g; [split; reflexivity|].
  cbn [flat_map drawSegment app paint exec].
  match goal with |- context [paint ?g1 (flat_map _ l)] =>
    destruct (IH g1) as (Hs & Hp);
    destruct (paint g1 (flat_map (drawSegment data n) l)) as [ms g2]
  end.
  cbn [fst snd] in *. split; [rewrite Hs|rewrite Hp]; reflexivity.
Qed.

(** X6: [drawCircle] leaves the drawing context as it found it, up
    to the stroke style and the line width of the ring: the stack of
    saved states, the transform (the translation and the 120 rotations
    are undone by [restore]), the fill style, the font and the shadow
    are those before the call, and the current path is the ring. *)
Theorem drawCircle_restores_context (data : list Z) (n : nat) (g : GState) :
  let g' := snd (paint g (drawCircle data n)) in
  saved g' = saved g
  /\ pen g' = mkPen (fillStyle (pen g)) (Css "white") 3 (font (pen g)) (textAlign (pen g))
                    (shadowColor (pen g)) (shadowBlur (pen g)) (transform (pen g))
  /\ path g' = [Arc (CANVAS_WIDTH / 2) (CANVAS_HEIGHT / 2) (radius - 5) 0 2].
Proof.
  unfold drawCircle. generalize (seq 0 segments). intros l.
  cbn [app paint exec]. rewrite FrameFacts.paint_app.
  match goal with |- context [paint ?g1 (flat_map _ _)] =>
    destruct (ticks_state data n l g1) as (Hs & Hp);
    set (r := paint g1 (flat_map (drawSegment data n) l)) in *
  end.
  clearbody r. destruct r as [ms g2]. cbn [fst snd] in *.
  cbn [app paint exec drawRing]. rewrite Hs. cbn [saved withPen pen].
  destruct g as [p sv pa].
  cbn [fst snd app pen saved path withPen fillStyle strokeStyle lineWidth font textAlign
       shadowColor shadowBlur transform].
  split; [reflexivity|]. split; reflexivity.
Qed.

(** *** The background image *)

(** X7: for an image and a target of positive sizes, [drawImageCover]
    draws the whole image, scaled by one factor in both directions
    (its aspect ratio is kept), centred on the target, covering the
    target on all four sides, and as small as that allows: its width or
    its height is the target's. *)
Theorem drawImageCover_covers (img : Image) (w h : Q) :
  0 < width img -> 0 < height img -> 0 < w -> 0 < h ->
  exists dx dy dw dh,
    drawImageCover img w h = [DrawImage img 0 0 (width img) (height img) dx dy dw dh]
    /\ dx <= 0 /\ dy <= 0 /\ w <= dx + dw /\ h <= dy + dh
    /\ dx + dw / 2 == w / 2 /\ dy + dh / 2 == h / 2
    /\ dw * height img == dh * width img
    /\ (dw == w \/ dh == h).
Proof.
  intros Hiw Hih Hw Hh. unfold drawImageCover.
  set (r := Qmax (w / width img) (h / height img)).
  eexists _, _, _, _. split; [reflexivity|].
  assert (Hiw' : ~ width img == 0) by (intros E; rewrite E in Hiw; exact (Qlt_irrefl 0 Hiw)).
  assert (Hih' : ~ height img == 0) by (intros E; rewrite E in Hih; exact (Qlt_irrefl 0 Hih)).
  assert (Ha : w / width img <= r) by apply Q.le_max_l.
  assert (Hb : h / height img <= r) by apply Q.le_max_r.
  assert (Ha' : w <= width img * r).
  { apply (Qmult_le_compat_r _ _ (width img)) in Ha; [|lra].
    setoid_replace (w / width img * width img) with w in Ha by (field; exact Hiw').
    lra. }
  assert (Hb' : h <= height img * r).
  { apply (Qmult_le_compat_r _ _ (height img)) in Hb; [|lra].
    setoid_replace (h / height img * height img) with h in Hb by (field; exact Hih').
    lra. }
  assert (Ht : width img * r == w \/ height img * r == h).
  { destruct (Q.max_spec (w / width img) (h / height img)) as [[_ E]|[_ E]]; fold r in E.
    - right. rewrite E. field. exact Hih'.
    - left. rewrite E. field. exact Hiw'. }
  clearbody r. clear Ha Hb.
  unfold Qdiv. change (/ 2) with (1 # 2).
  split; [lra|]. split; [lra|]. split; [lra|]. split; [lra|].
  split; [ring|]. split; [ring|]. split; [ring|exact Ht].
Qed.

Lemma drawImageCover_covers_witness :
  let img := {| src := "data:cover"%string; complete := true; width := 1000; height := 500 |} in
  exists dx dy dw dh,
    drawImageCover img CANVAS_WIDTH CANVAS_HEIGHT
    = [DrawImage img 0 0 (width img) (height img) dx dy dw dh]
    /\ dx <= 0 /\ dy <= 0 /\ CANVAS_WIDTH <= dx + dw /\ CANVAS_HEIGHT <= dy + dh
    /\ dx + dw / 2 == CANVAS_WIDTH / 2 /\ dy + dh / 2 == CANVAS_HEIGHT / 2
    /\ dw * height img == dh * width img
    /\ (dw == CANVAS_WIDTH \/ dh == CANVAS_HEIGHT).
Proof.
  apply (drawImageCover_covers
           {| src := "data:cover"%string; complete := true; width := 1000; height := 500 |}
           CANVAS_WIDTH CANVAS_HEIGHT); reflexivity.
Defined.

(** *** The progress bar *)

(** X8: when the audio element has a duration [d > 0] and its cursor
    is between 0 and [d], the progress bar of the frame is a green
    rectangle 6 pixels high at the bottom of the canvas, starting at
    the left edge, whose width lies between 0 and the canvas width; it
    is the fraction of the canvas width that the [progress] state set
    by [ontimeupdate] gives in percent, and that percentage lies
    between 0 and 100. *)
Theorem progress_bar_within_canvas (a : Audio) (d progress : Q) :
  mediaDuration a = Some d -> 0 < d -> 0 <= currentTime a -> currentTime a <= d ->
  exists w,
    drawProgress (Some a)
    = [SetFillStyle (Css "#22c55e"); FillRect 0 (CANVAS_HEIGHT - 6) w 6]
    /\ 0 <= w /\ w <= CANVAS_WIDTH
    /\ w == CANVAS_WIDTH * (timeUpdate a progress / 100)
    /\ 0 <= timeUpdate a progress /\ timeUpdate a progress <= 100.
Proof.
  intros Hd Hpos H0 H1. unfold drawProgress, timeUpdate. rewrite Hd.
  assert (Hne : ~ d == 0) by (intros E; rewrite E in Hpos; exact (Qlt_irrefl 0 Hpos)).
  destruct (Qeq_bool d 0) eqn:E; [apply Qeq_bool_iff in E; contradiction|].
  eexists. split; [reflexivity|].
  assert (Hq0 : 0 <= currentTime a / d) by (apply Qle_shift_div_l; lra).
  assert (Hq1 : currentTime a / d <= 1) by (apply Qle_shift_div_r; lra).
  unfold CANVAS_WIDTH.
  split; [apply Qmult_le_0_compat; lra|].
  split; [setoid_replace 540 with (540 * 1) at 2 by ring; apply Qmult_le_l; lra|].
  split; [field; exact Hne|].
  split; [apply Qmult_le_0_compat; lra|].
  setoid_replace 100 with (1 * 100) at 2 by ring. apply Qmult_le_r; lra.
Qed.

Lemma progress_bar_within_canvas_witness :
  exists w,
    drawProgress (Some (mkAudio 5 (Some 25) false))
    = [SetFillStyle (Css "#22c55e"); FillRect 0 (CANVAS_HEIGHT - 6) w 6]
    /\ 0 <= w /\ w <= CANVAS_WIDTH
    /\ w == CANVAS_WIDTH * (timeUpdate (mkAudio 5 (Some 25) false) 0 / 100)
    /\ 0 <= timeUpdate (mkAudio 5 (Some 25) false) 0
    /\ timeUpdate (mkAudio 5 (Some 25) false) 0 <= 100.
Proof.
  apply (progress_bar_within_canvas (mkAudio 5 (Some 25) false) 25 0);
    [reflexivity|reflexivity|discriminate|discriminate].
Defined.

(** *** The text *)

Section Lines.
Variable measure : string -> Q.
Variables x maxWidth lineHeight : Q.

Lemma wrapLoop_places (words : list string) :
  forall n line cy k o,
    nth_error (wrapLoop measure x maxWidth lineHeight words n line cy) k = Some o ->
    exists t py, o = FillText t x py /\ py == cy + ofNat k * lineHeight.
Proof.
  induction words as [|wd rest IH]; intros n line cy k o; cbn [wrapLoop].
  - destruct k as [|k]; cbn [nth_error].
    + intros [= <-]. exists line, cy. split; [reflexivity|].
      unfold ofNat. cbn [Z.of_nat]. ring.
    + destruct k; discriminate.
  - destruct (JS.gt _ _ && Nat.ltb 0 n).
    + destruct k as [|k]; cbn [nth_error].
      * intros [= <-]. exists line, cy. split; [reflexivity|].
        unfold ofNat. cbn [Z.of_nat]. ring.
      * intros H. destruct (IH _ _ _ _ _ H) as (t & py & -> & Hpy).
        exists t, py. split; [reflexivity|]. rewrite Hpy, ofNat_S. ring.
    + apply IH.
Qed.

Lemma wrapLoop_texts (words : list string) :
  forall n line cy,
    forallb isFillText (wrapLoop measure x maxWidth lineHeight words n line cy) = true.
Proof.
  induction words as [|wd rest IH]; intros n line cy; cbn [wrapLoop]; [reflexivity|].
  destruct (JS.gt _ _ && Nat.ltb 0 n); [cbn [forallb isFillText andb]|]; apply IH.
Qed.
End Lines.

(** X9: every call [wrapText] makes is a [fillText] at the given [x],
    and the [k]-th of them (from 0) is at [y + k * lineHeight]: the
    lines are stacked downwards, one line height apart, from the given
    [y]. *)
Theorem wrapText_line_positions
        (measure : string -> Q) (text : string) (x y maxWidth lineHeight : Q)
        (k : nat) (o : Op) :
  nth_error (wrapText measure text x y maxWidth lineHeight) k = Some o ->
  exists t py, o = FillText t x py /\ py == y + ofNat k * lineHeight.
Proof. unfold wrapText. apply wrapLoop_places. Qed.

Lemma wrapText_line_positions_witness :
  nth_error (wrapText Wrap.tenPerChar "aa bb  cccccccc d e" 270 580 60 30) 2
  = Some (FillText "cccccccc " 270 (580 + 30 + 30))
  /\ exists t py, FillText "cccccccc " 270 (580 + 30 + 30) = FillText t 270 py
                  /\ py == 580 + ofNat 2 * 30.
Proof.
  assert (H : nth_error (wrapText Wrap.tenPerChar "aa bb  cccccccc d e" 270 580 60 30) 2
              = Some (FillText "cccccccc " 270 (580 + 30 + 30)))
    by (vm_compute; reflexivity).
  split; [exact H|].
  exact (wrapText_line_positions Wrap.tenPerChar "aa bb  cccccccc d e" 270 580 60 30 2 _ H).
Defined.

(** Text calls leave the context alone and paint under its shadow. *)
Lemma paint_texts (ops : list Op) :
  forallb isFillText ops = true ->
  forall g, snd (paint g ops) = g
            /\ Forall (fun m => shadowOfMark m = shadowOf (pen g)) (fst (paint g ops)).
Proof.
  induction ops as [|o ops IH]; intros H g; [split; [reflexivity|constructor]|].
  cbn [forallb] in H. apply andb_prop in H as [Ho H].
  destruct o; try discriminate Ho.
  cbn [paint exec]. destruct (IH H g) as [Hs Hm].
  destruct (paint g ops) as [ms g2]. cbn [fst snd] in *.
  split; [exact Hs|]. constructor; [reflexivity|exact Hm].
Qed.

(** X10: whatever the drawing context, the title and the caption,
    [drawText] paints at least one text, every text it paints has the
    shadow ["rgba(0,0,0,0.8)"] with blur 10, and it leaves the blur at
    0, the stack of saved states and the transform as they were: the
    shadow of the text does not reach what is drawn after it. *)
Theorem drawText_shadow_stays_on_text
        (songData : SongData) (visualData : VisualData)
        (measureText : string -> string -> Q) (g : GState) :
  let ops := drawText songData visualData measureText in
  let g' := snd (paint g ops) in
  Forall (fun m => shadowOfMark m = ("rgba(0,0,0,0.8)"%string, 10)) (marks g ops)
  /\ marks g ops <> []
  /\ shadowBlur (pen g') = 0
  /\ saved g' = saved g
  /\ transform (pen g') = transform (pen g).
Proof.
  intros ops g'. subst g' ops. unfold drawText, marks.
  set (cap := if JS.truthy (Some (caption visualData)) then _ else _).
  assert (Hcap : forallb isFillText cap = true).
  { subst cap. destruct (JS.truthy _); [|reflexivity]. unfold wrapText. apply wrapLoop_texts. }
  clearbody cap.
  cbn [app paint exec]. rewrite FrameFacts.paint_app.
  match goal with |- context [paint ?g1 cap] =>
    destruct (paint_texts cap Hcap g1) as [Hs Hm]; revert Hs Hm;
    set (r := paint g1 cap)
  end.
  clearbody r. destruct r as [ms g2]. cbn [fst snd]. intros -> Hm.
  destruct g as [p sv pa].
  cbn [paint exec fst snd app withPen pen saved path shadowOf shadowColor shadowBlur
       fillStyle strokeStyle lineWidth font textAlign transform] in *.
  split; [|split; [discriminate|repeat split]].
  constructor; [reflexivity|]. rewrite app_nil_r. exact Hm.
Qed.
End GeometryFacts.

(** ** A take: from REC to the output *)

Module TakeFacts.
Import Editor Notions Capture Take EditorFacts.
Local Open Scope Z_scope.

Lemma runCallback_take (cb : Callback) (e : Editor) :
  take (runCallback cb e) = take e /\ graph (refs (runCallback cb e)) = graph (refs e).
Proof.
  destruct cb as [c|c]; unfold runCallback, loop, callDrawVisualizer, requestAnimationFrame;
    destruct (canvasRef (refs e)); destruct (isPlaying c || isRecording c);
    split; reflexivity.
Qed.

Lemma animationFrame_take (e : Editor) :
  take (animationFrame e) = take e /\ graph (refs (animationFrame e)) = graph (refs e).
Proof.
  unfold animationFrame.
  set (e0 := onHost _ e).
  assert (H0 : take e0 = take e /\ graph (refs e0) = graph (refs e)) by (split; reflexivity).
  clearbody e0. revert e0 H0.
  induction (rafQueue (host e)) as [|p q IH]; intros e0 H0; cbn [fold_left]; [exact H0|].
  apply IH. destruct (runCallback_take (snd p) e0) as [K1 K2].
  destruct H0 as [H1 H2]. split; congruence.
Qed.

Lemma rerender_take (now : Z) (prev : ReactState) (e : Editor) :
  take (rerender now prev e) = take e
  /\ graph (refs (rerender now prev e)) = graph (refs e).
Proof.
  open_editor e. destruct prev as [p0 r0 u0 m0 s0 d1].
  unfold rerender, timerEffect, timerCleanup, canvasEffect, canvasCleanup,
    schedulerEffect, requestAnimationFrame, cancelAnimationFrame, callDrawVisualizer.
  cbn.
  destruct r0, r, (Bool.eqb p0 p), (modeEqb m0 m), p, au as [a|], cv; split; reflexivity.
Qed.

Lemma gesture_take (e : Editor) : take (handleUserGesture e) = take e.
Proof.
  open_editor e. unfold handleUserGesture, initAudioContext. cbn.
  destruct (audioContextRef gr), wa; reflexivity.
Qed.

Section Steps.
Variable isTypeSupported : string -> bool.
Variable recorderOutcome : string -> RecorderOutcome.

Lemma step_take (t : Z) (ev : Event) (e : Editor) :
  take (step isTypeSupported recorderOutcome e (t, ev))
  = take (handle isTypeSupported recorderOutcome t ev e).
Proof. unfold step. cbn [fst snd]. apply rerender_take. Qed.

(** A click on a control that is offered: its handler, as far as the
    take goes. *)
Lemma click_take (t : Z) (a : UserAction) (e : Editor) :
  offered (react e) a = true ->
  take (step isTypeSupported recorderOutcome e (t, User a))
  = take (handler isTypeSupported recorderOutcome a e).
Proof.
  intros Hoff. rewrite step_take. cbn [handle]. unfold user. rewrite Hoff.
  destruct (isClick a && _); [apply gesture_take|reflexivity].
Qed.

(** During a take the quiet events only add their non-empty chunks. *)
Lemma quiet_run (evs : list (Z * Event)) :
  forall e s au r ch,
    forallb quiet evs = true ->
    take e = (s, au, Some r, ch) ->
    take (run isTypeSupported recorderOutcome evs e)
    = (s, au, Some r, (ch ++ filter nonEmptyChunk (sizes evs))%list).
Proof.
  induction evs as [|[t ev] evs IH]; intros e s au r ch Hq He; cbn [run fold_left].
  - cbn. rewrite app_nil_r. exact He.
  - cbn [forallb] in Hq. apply andb_prop in Hq as [Hq1 Hq].
    fold (run isTypeSupported recorderOutcome evs
              (step isTypeSupported recorderOutcome e (t, ev))).
    destruct ev as [a|d| |size| | |]; try discriminate Hq1.
    + rewrite (IH _ s au r (ch ++ filter nonEmptyChunk [size])%list Hq).
      * cbn [sizes flat_map snd]. rewrite filter_app, <- app_assoc. reflexivity.
      * rewrite step_take. cbn [handle]. revert He. unfold take, dataAvailable.
        intros [= H1 H2 H3 H4]. rewrite H3. unfold nonEmptyChunk. cbn [filter].
        destruct (N.ltb 0 size); cbn; rewrite ?app_nil_r; congruence.
    + rewrite (IH _ s au r ch Hq); [reflexivity|].
      rewrite step_take. cbn [handle]. rewrite (proj1 (animationFrame_take e)). exact He.
Qed.
End Steps.

Lemma stop_take (e : Editor) s au r ch :
  take e = (s, au, Some r, ch) -> state r = recording ->
  take (stopRecording e)
  = (s, au, Some (mkRecorder (mimeType r) inactive true (capturedStartTime r)), ch).
Proof.
  unfold take, stopRecording. intros [= H1 H2 H3 H4] Hr. rewrite H3, Hr. cbn.
  congruence.
Qed.

Lemma stopped_take (e : Editor) s au r ch :
  take e = (s, au, Some r, ch) -> stopQueued r = true ->
  take (recorderStopped e)
  = (setIsRecording false (setIsPlaying false
       (setRecordedVideoUrl (Some (mkBlob ch (mimeType r))) s)),
     option_map (fun a => seek (capturedStartTime r) (pause a)) au,
     Some (mkRecorder (mimeType r) (state r) false (capturedStartTime r)), ch).
Proof.
  unfold take, recorderStopped. intros [= H1 H2 H3 H4] Hq. rewrite H3, Hq. cbn.
  congruence.
Qed.

(** X11: a take, from any state in which REC is offered and canvas,
    capture sink and audio element exist, on a platform on which the
    format [ty] is negotiated and the recorder starts: REC is clicked,
    chunks arrive and frames are drawn, Stop is clicked, more chunks
    arrive, and the [stop] event is delivered.  The output then held is
    the blob of type [ty] made of the non-empty chunks in the order of
    their arrival, those that came after the click on Stop included
    and nothing of an earlier take; nothing is recording or playing,
    the audio element is paused with its cursor back on the start
    offset, the recorder is inactive and the controller is [Ready]. *)
Theorem take_output_holds_every_chunk
        (sup : string -> bool) (out : string -> RecorderOutcome)
        (e : Editor) (a : Audio) (ty : string)
        (before after : list (Z * Event)) (t0 t1 t2 : Z) :
  wired e a -> offered (react e) ClickRec = true ->
  find sup mimeTypes = Some ty -> out ty = Starts ->
  forallb quiet before = true -> forallb quiet after = true ->
  let e' := run sup out
                ((t0, User ClickRec) :: before
                 ++ (t1, User ClickStop) :: after ++ [(t2, RecorderStop)])%list e in
  recordedVideoUrl (react e')
  = Some (mkBlob (filter nonEmptyChunk (sizes before ++ sizes after)) ty)
  /\ isRecording (react e') = false
  /\ isPlaying (react e') = false
  /\ audioRef (refs e') = Some (mkAudio (startTime (react e)) (mediaDuration a) true)
  /\ mediaRecorderRef (refs e')
     = Some (mkRecorder ty inactive false (startTime (react e)))
  /\ phase e' = Ready.
Proof.
  intros Hw Hoff Hf Ho Hb Ha e'.
  set (e1 := step sup out e (t0, User ClickRec)).
  set (e2 := run sup out before e1).
  set (e3 := step sup out e2 (t1, User ClickStop)).
  set (e4 := run sup out after e3).
  assert (He' : e' = step sup out e4 (t2, RecorderStop)).
  { subst e' e4 e3 e2 e1. unfold run. cbn [fold_left].
    rewrite fold_left_app. cbn [fold_left]. rewrite fold_left_app. reflexivity. }
  set (s1 := setRecordedVideoUrl None (setIsRecording true (setIsPlaying true (react e)))).
  set (st := startTime (react e)).
  assert (T1 : take e1 = (s1, Some (play (seek st a)),
                          Some (mkRecorder ty recording false st), [])).
  { subst e1. rewrite (click_take sup out t0 ClickRec e Hoff). cbn [handler].
    rewrite (CaptureFacts.start_proceeds sup out e a ty Hw Hf Ho). reflexivity. }
  pose proof (quiet_run sup out before e1 _ _ _ _ Hb T1) as T2. fold e2 in T2.
  cbn [app] in T2.
  assert (T3 : take e3 = (s1, Some (play (seek st a)),
                          Some (mkRecorder ty inactive true st),
                          filter nonEmptyChunk (sizes before))).
  { subst e3. rewrite (click_take sup out t1 ClickStop e2).
    - cbn [handler]. rewrite (stop_take e2 _ _ _ _ T2 eq_refl). reflexivity.
    - unfold take in T2. injection T2 as -> _ _ _. destruct (react e) as [p r u m s d].
      reflexivity. }
  pose proof (quiet_run sup out after e3 _ _ _ _ Ha T3) as T4. fold e4 in T4.
  assert (T5 : take e' = take (recorderStopped e4)).
  { rewrite He'. apply (step_take sup out t2 RecorderStop e4). }
  rewrite (stopped_take e4 _ _ _ _ T4 eq_refl) in T5.
  unfold phase. unfold take in T5. injection T5 as -> -> -> _.
  rewrite <- filter_app.
  subst s1 st. destruct (react e) as [p r u m s d]. destruct a as [ct md pa].
  cbn. repeat split; reflexivity.
Qed.

Lemma take_output_holds_every_chunk_witness :
  let e' := run onlyMp4 alwaysStarts
                [(1000, User ClickRec); (1500, DataAvailable 5%N); (1600, AnimationFrame);
                 (2000, DataAvailable 0%N); (9000, User ClickStop);
                 (9001, DataAvailable 7%N); (9002, RecorderStop)] (opened 25) in
  recordedVideoUrl (react e') = Some (mkBlob [5%N; 7%N] "video/mp4")
  /\ isRecording (react e') = false
  /\ isPlaying (react e') = false
  /\ audioRef (refs e') = Some (mkAudio 0 (Some 25%Q) true)
  /\ mediaRecorderRef (refs e') = Some (mkRecorder "video/mp4" inactive false 0)
  /\ phase e' = Ready.
Proof.
  exact (take_output_holds_every_chunk onlyMp4 alwaysStarts (opened 25)
           (mkAudio 0 (Some 25%Q) true) "video/mp4"
           [(1500, DataAvailable 5%N); (1600, AnimationFrame); (2000, DataAvailable 0%N)]
           [(9001, DataAvailable 7%N)] 1000 9000 9002
           (conj eq_refl (conj eq_refl eq_refl)) eq_refl eq_refl eq_refl eq_refl eq_refl).
Defined.

(** *** The audio graph *)

Lemma handler_graph (sup : string -> bool) (out : string -> RecorderOutcome)
      (a : UserAction) (e : Editor) :
  graph (refs (handler sup out a e)) = graph (refs e).
Proof.
  open_editor e.
  destruct a; unfold handler, togglePlay, handleStartTimeChange, startRecording,
    stopRecording, requestAnimationFrame.
  4: generalize (find sup mimeTypes); intros f.
  all: cbn; try destruct au as [a|]; try destruct (audioContextRef gr);
    try destruct (cv && destRef gr); try reflexivity.
  all: try (destruct f as [t|]; [destruct (out t)|]; reflexivity).
  all: destruct mr as [[mt [|] sq cs]|]; reflexivity.
Qed.

Lemma gesture_graph (e : Editor) :
  graph (refs (handleUserGesture e))
  = if audioContextRef (graph (refs e)) then graph (refs e)
    else if audioContextClass (host e) then mkGraph true true true true
         else graph (refs e).
Proof.
  open_editor e. unfold handleUserGesture, initAudioContext. cbn.
  destruct (audioContextRef gr), wa; reflexivity.
Qed.

(** *** The platform's audio context class does not change *)

Lemma runCallback_platform (cb : Callback) (e : Editor) :
  audioContextClass (host (runCallback cb e)) = audioContextClass (host e).
Proof.
  destruct cb as [c|c]; unfold runCallback, loop, callDrawVisualizer, requestAnimationFrame;
    destruct (canvasRef (refs e)); destruct (isPlaying c || isRecording c); reflexivity.
Qed.

Lemma animationFrame_platform (e : Editor) :
  audioContextClass (host (animationFrame e)) = audioContextClass (host e).
Proof.
  unfold animationFrame.
  set (e0 := onHost _ e).
  assert (H0 : audioContextClass (host e0) = audioContextClass (host e)) by reflexivity.
  clearbody e0. revert e0 H0.
  induction (rafQueue (host e)) as [|p q IH]; intros e0 H0; cbn [fold_left]; [exact H0|].
  apply IH. rewrite runCallback_platform. exact H0.
Qed.

Lemma rerender_platform (now : Z) (prev : ReactState) (e : Editor) :
  audioContextClass (host (rerender now prev e)) = audioContextClass (host e).
Proof.
  open_editor e. destruct prev as [p0 r0 u0 m0 s0 d1].
  unfold rerender, timerEffect, timerCleanup, canvasEffect, canvasCleanup,
    schedulerEffect, requestAnimationFrame, cancelAnimationFrame, callDrawVisualizer.
  cbn.
  destruct r0, r, (Bool.eqb p0 p), (modeEqb m0 m), p, au as [a|], cv; reflexivity.
Qed.

Lemma handler_platform (sup : string -> bool) (out : string -> RecorderOutcome)
      (a : UserAction) (e : Editor) :
  audioContextClass (host (handler sup out a e)) = audioContextClass (host e).
Proof.
  open_editor e.
  destruct a; unfold handler, togglePlay, handleStartTimeChange, startRecording,
    stopRecording, requestAnimationFrame.
  4: generalize (find sup mimeTypes); intros f.
  all: cbn; try destruct au as [a|]; try destruct (audioContextRef gr);
    try destruct (cv && destRef gr); try reflexivity.
  all: try (destruct f as [t|]; [destruct (out t)|]; reflexivity).
  all: destruct mr as [[mt [|] sq cs]|]; reflexivity.
Qed.

Lemma gesture_platform (e : Editor) :
  audioContextClass (host (handleUserGesture e)) = audioContextClass (host e).
Proof.
  open_editor e. unfold handleUserGesture, initAudioContext. cbn.
  destruct (audioContextRef gr), wa; reflexivity.
Qed.

Lemma handle_platform (sup : string -> bool) (out : string -> RecorderOutcome)
      (now : Z) (ev : Event) (e : Editor) :
  audioContextClass (host (handle sup out now ev e)) = audioContextClass (host e).
Proof.
  destruct ev as [a|d| |size| | |]; cbn [handle].
  - unfold user. destruct (offered (react e) a); [|reflexivity].
    destruct (isClick a && _); [rewrite gesture_platform|]; apply handler_platform.
  - open_editor e. unfold loadedMetadata. cbn. destruct au; reflexivity.
  - open_editor e. unfold audioEnded, stopRecording. cbn.
    destruct oe as [c|]; [destruct (isRecording c)|]; try reflexivity.
    destruct mr as [[mt [|] sq cs]|]; reflexivity.
  - open_editor e. unfold dataAvailable. cbn.
    destruct mr; [destruct (N.ltb 0 size)|]; reflexivity.
  - open_editor e. unfold recorderStopped. cbn.
    destruct mr as [[mt st [|] cs]|]; reflexivity.
  - open_editor e. unfold intervalFired, intervalCallback, stopRecording. cbn.
    destruct iv as [[s0 l0]|]; [destruct (JS.ge _ _)|]; try reflexivity.
    destruct mr as [[mt [|] sq cs]|]; reflexivity.
  - apply animationFrame_platform.
Qed.

Lemma step_platform (sup : string -> bool) (out : string -> RecorderOutcome)
      (ev : Z * Event) (e : Editor) :
  audioContextClass (host (step sup out e ev)) = audioContextClass (host e).
Proof. unfold step. rewrite rerender_platform. apply handle_platform. Qed.

Lemma handle_graph (sup : string -> bool) (out : string -> RecorderOutcome)
      (now : Z) (ev : Event) (e : Editor) :
  graph (refs (handle sup out now ev e)) = graph (refs e)
  \/ (audioContextRef (graph (refs e)) = false
      /\ audioContextClass (host e) = true
      /\ graph (refs (handle sup out now ev e)) = mkGraph true true true true).
Proof.
  destruct ev as [a|d| |size| | |]; cbn [handle].
  - unfold user. destruct (offered (react e) a); [|left; reflexivity].
    destruct (isClick a && _).
    + rewrite gesture_graph, handler_graph, handler_platform.
      destruct (audioContextRef (graph (refs e))) eqn:E; [left; reflexivity|].
      destruct (audioContextClass (host e)); [right; repeat split|left]; reflexivity.
    + left. apply handler_graph.
  - left. open_editor e. unfold loadedMetadata. cbn. destruct au; reflexivity.
  - left. open_editor e. unfold audioEnded, stopRecording. cbn.
    destruct oe as [c|]; [destruct (isRecording c)|]; try reflexivity.
    destruct mr as [[mt [|] sq cs]|]; reflexivity.
  - left. open_editor e. unfold dataAvailable. cbn.
    destruct mr; [destruct (N.ltb 0 size)|]; reflexivity.
  - left. open_editor e. unfold recorderStopped. cbn.
    destruct mr as [[mt st [|] cs]|]; reflexivity.
  - left. open_editor e. unfold intervalFired, intervalCallback, stopRecording. cbn.
    destruct iv as [[s0 l0]|]; [destruct (JS.ge _ _)|]; try reflexivity.
    destruct mr as [[mt [|] sq cs]|]; reflexivity.
  - left. apply animationFrame_take.
Qed.

Lemma step_graph (sup : string -> bool) (out : string -> RecorderOutcome)
      (ev : Z * Event) (e : Editor) :
  graph (refs (step sup out e ev)) = graph (refs e)
  \/ (audioContextRef (graph (refs e)) = false
      /\ audioContextClass (host e) = true
      /\ graph (refs (step sup out e ev)) = mkGraph true true true true).
Proof.
  unfold step. rewrite (proj2 (rerender_take _ _ _)). apply handle_graph.
Qed.

(** While the graph is not open no handler starts the audio or a
    recording. *)
Lemma handle_quiet_state (sup : string -> bool) (out : string -> RecorderOutcome)
      (now : Z) (ev : Event) (e : Editor) :
  graph (refs e) = mkGraph false false false false ->
  isPlaying (react e) = false -> isRecording (react e) = false ->
  isPlaying (react (handle sup out now ev e)) = false
  /\ isRecording (react (handle sup out now ev e)) = false.
Proof.
  intros Hg Hp Hr.
  destruct ev as [a|d| |size| | |]; cbn [handle].
  - unfold user. destruct (offered (react e) a); [|split; assumption].
    assert (H : isPlaying (react (handler sup out a e)) = false
                /\ isRecording (react (handler sup out a e)) = false).
    { open_editor e. cbn in Hg, Hp, Hr. subst gr p r.
      destruct a; unfold handler, togglePlay, handleStartTimeChange, startRecording,
        stopRecording, requestAnimationFrame.
      all: cbn; try destruct au as [a|]; try rewrite andb_false_r; try (split; reflexivity).
      all: destruct mr as [[mt [|] sq cs]|]; split; reflexivity. }
    destruct (isClick a && _); [|exact H].
    pose proof (gesture_take (handler sup out a e)) as G. unfold take in G.
    assert (G' : react (handleUserGesture (handler sup out a e))
                 = react (handler sup out a e)) by congruence.
    rewrite G'. exact H.
  - open_editor e. cbn in Hp, Hr. subst p r. unfold loadedMetadata. cbn.
    destruct au; split; reflexivity.
  - open_editor e. cbn in Hp, Hr. subst p r. unfold audioEnded, stopRecording. cbn.
    destruct oe as [c|]; [destruct (isRecording c)|]; try (split; reflexivity).
    destruct mr as [[mt [|] sq cs]|]; split; reflexivity.
  - open_editor e. cbn in Hp, Hr. subst p r. unfold dataAvailable. cbn.
    destruct mr; [destruct (N.ltb 0 size)|]; split; reflexivity.
  - open_editor e. cbn in Hp, Hr. subst p r. unfold recorderStopped. cbn.
    destruct mr as [[mt st [|] cs]|]; split; reflexivity.
  - open_editor e. cbn in Hp, Hr. subst p r.
    unfold intervalFired, intervalCallback, stopRecording. cbn.
    destruct iv as [[s0 l0]|]; [destruct (JS.ge _ _)|]; try (split; reflexivity).
    destruct mr as [[mt [|] sq cs]|]; split; reflexivity.
  - pose proof (animationFrame_take e) as [G _]. unfold take in G.
    assert (G' : react (animationFrame e) = react e) by congruence.
    rewrite G'. split; assumption.
Qed.

(** On a platform without an audio context class the component stays
    silent. *)
Lemma run_silent (sup : string -> bool) (out : string -> RecorderOutcome)
      (evs : list (Z * Event)) :
  forall e, audioContextClass (host e) = false -> silent e ->
            silent (run sup out evs e).
Proof.
  induction evs as [|[t ev] evs IH]; intros e Hc Hs; cbn [run fold_left]; [exact Hs|].
  apply IH; [rewrite step_platform; exact Hc|].
  destruct Hs as (Hg & Hp & Hr).
  destruct (handle_quiet_state sup out t ev e Hg Hp Hr) as [Hp' Hr'].
  destruct (rerender_core t (react e) (handle sup out t ev e)) as (Hre & _).
  unfold silent, step. cbn [fst snd]. rewrite Hre.
  split; [|split; assumption].
  rewrite (proj2 (rerender_take _ _ _)).
  destruct (handle_graph sup out t ev e) as [E|(_ & E & _)]; [congruence|congruence].
Qed.

(** X12: in every state the component can reach, the four refs of the
    audio graph are all set or all empty (so the guard of [togglePlay],
    on the context, and the one of [startRecording], on the capture
    sink, pass together), and once the graph is open no event changes
    it: [initAudioContext] builds it at most once. *)
Theorem audio_graph_opens_once
        (songData : SongData) (ctx : bool)
        (sup : string -> bool) (out : string -> RecorderOutcome)
        (evs more : list (Z * Event)) :
  let e := run sup out evs (mount songData ctx) in
  allOrNothing (graph (refs e))
  /\ (destRef (graph (refs e)) = audioContextRef (graph (refs e)))
  /\ (audioContextRef (graph (refs e)) = true ->
      graph (refs (run sup out more e)) = graph (refs e)).
Proof.
  intros e.
  assert (Hinv : forall l e0, allOrNothing (graph (refs e0)) ->
                              allOrNothing (graph (refs (run sup out l e0)))).
  { induction l as [|ev l IH]; intros e0 H0; cbn [run fold_left]; [exact H0|].
    apply IH. destruct (step_graph sup out ev e0) as [E|(_ & _ & E)]; rewrite E; [exact H0|].
    right. reflexivity. }
  assert (Hall : allOrNothing (graph (refs e))).
  { apply Hinv. left. unfold mount, audioEffect.
    destruct (JS.truthy (url songData)); reflexivity. }
  split; [exact Hall|]. split.
  - destruct Hall as [E|E]; rewrite E; reflexivity.
  - generalize e. induction more as [|ev l IH]; intros e0 H0; cbn [run fold_left];
      [reflexivity|].
    destruct (step_graph sup out ev e0) as [E|(E & _)]; [|congruence].
    unfold run in IH. rewrite IH; [exact E|]. rewrite E. exact H0.
Qed.

(** X13: after the mount of a song that has a URL the audio graph is
    not open and the click listener is registered, and if the first
    click on the page is a click on the play button, [togglePlay]
    returns without playing; the click then reaches the document
    listener.  On a platform that has an audio context class the
    listener opens the graph and removes itself, and the next click on
    the play button starts the preview.  On a platform that has none,
    [initAudioContext] throws: the graph stays closed and the listener
    stays registered, the click has changed nothing, and whatever
    happens afterwards the graph is never open, nothing plays and
    nothing records. *)
Theorem first_click_on_play_only_opens_graph
        (songData : SongData) (ctx : bool)
        (sup : string -> bool) (out : string -> RecorderOutcome) (t t' : Z) :
  JS.truthy (url songData) = true ->
  let e0 := mount songData ctx in
  let e1 := step sup out e0 (t, User ClickPlay) in
  let e2 := step sup out e1 (t', User ClickPlay) in
  graph (refs e0) = mkGraph false false false false
  /\ clickListener (host e0) = true
  /\ isPlaying (react e1) = false
  /\ audioRef (refs e1) = Some newAudio
  /\ (ctx = true ->
      graph (refs e1) = mkGraph true true true true
      /\ clickListener (host e1) = false
      /\ isPlaying (react e2) = true
      /\ audioRef (refs e2) = Some (play newAudio))
  /\ (ctx = false ->
      e1 = e0
      /\ graph (refs e1) = mkGraph false false false false
      /\ clickListener (host e1) = true
      /\ forall evs, silent (run sup out evs e0)).
Proof.
  intros Hu e0 e1 e2. subst e2 e1 e0.
  split; [unfold mount, audioEffect; rewrite Hu; reflexivity|].
  split; [unfold mount, audioEffect; rewrite Hu; reflexivity|].
  split; [unfold step, mount, audioEffect; rewrite Hu; destruct ctx; reflexivity|].
  split; [unfold step, mount, audioEffect; rewrite Hu; destruct ctx; reflexivity|].
  split; intros ->.
  - unfold step, mount, audioEffect. rewrite Hu. repeat split; reflexivity.
  - split; [unfold step, mount, audioEffect; rewrite Hu; reflexivity|].
    split; [unfold step, mount, audioEffect; rewrite Hu; reflexivity|].
    split; [unfold step, mount, audioEffect; rewrite Hu; reflexivity|].
    intros evs. apply run_silent.
    + unfold mount, audioEffect. rewrite Hu. reflexivity.
    + unfold silent, mount, audioEffect. rewrite Hu. repeat split; reflexivity.
Qed.

Lemma first_click_on_play_only_opens_graph_witness :
  (let e1 := step onlyMp4 alwaysStarts (mount demoSong webAudio) (10, User ClickPlay) in
   let e2 := step onlyMp4 alwaysStarts e1 (20, User ClickPlay) in
   graph (refs (mount demoSong webAudio)) = mkGraph false false false false
   /\ isPlaying (react e1) = false
   /\ graph (refs e1) = mkGraph true true true true
   /\ clickListener (host e1) = false
   /\ isPlaying (react e2) = true
   /\ audioRef (refs e2) = Some (play newAudio))
  /\ (let e1 := step onlyMp4 alwaysStarts (mount demoSong noWebAudio) (10, User ClickPlay) in
      graph (refs e1) = mkGraph false false false false
      /\ clickListener (host e1) = true
      /\ silent (run onlyMp4 alwaysStarts
                     [(20, User ClickPlay); (30, LoadedMetadata 25%Q); (40, User ClickRec)]
                     (mount demoSong noWebAudio))).
Proof.
  split.
  - destruct (first_click_on_play_only_opens_graph demoSong webAudio onlyMp4 alwaysStarts
                10 20 eq_refl) as (H1 & _ & H3 & _ & H5 & _).
    destruct (H5 eq_refl) as (K1 & K2 & K3 & K4).
    cbv zeta. repeat split; assumption.
  - destruct (first_click_on_play_only_opens_graph demoSong noWebAudio onlyMp4 alwaysStarts
                10 20 eq_refl) as (_ & _ & _ & _ & _ & H6).
    destruct (H6 eq_refl) as (_ & K2 & K3 & K4).
    cbv zeta. split; [exact K2|]. split; [exact K3|apply K4].
Defined.

(** *** Stopping *)

(** X14: [stopRecording] is idempotent; it touches neither the React
    state nor the chunks, after it the encoder is not running, and when
    the encoder is not running (no recorder, or an inactive one) it
    does nothing at all. *)
Theorem stopRecording_is_idempotent (e : Editor) :
  stopRecording (stopRecording e) = stopRecording e
  /\ react (stopRecording e) = react e
  /\ chunksRef (refs (stopRecording e)) = chunksRef (refs e)
  /\ Session.encoding (stopRecording e) = false
  /\ (Session.encoding e = false -> stopRecording e = e).
Proof.
  open_editor e. unfold stopRecording, Session.encoding. cbn.
  destruct mr as [[mt [|] sq cs]|]; cbn; repeat split; discriminate.
Qed.

(** X15: a run of the timer's callback less than 30 s after the
    timer was armed changes nothing in the component (the platform
    notes the run): the timer does not cut a recording short. *)
Theorem timer_waits_for_cap
        (sup : string -> bool) (out : string -> RecorderOutcome)
        (e : Editor) (i : Interval) (now : Z) :
  interval (host e) = Some i -> now - start i < 30000 ->
  step sup out e (now, IntervalFired)
  = onHost (withInterval (Some (mkInterval (start i) now))) e.
Proof.
  intros Hi Hlt. unfold step. cbn [fst snd handle]. unfold intervalFired. rewrite Hi.
  unfold intervalCallback. rewrite SessionFacts.cap_reached.
  destruct (30000 <=? now - start i) eqn:E; [apply Z.leb_le in E; lia|].
  set (e1 := onHost _ e). change (react e) with (react e1). apply rerender_same.
Qed.

Lemma timer_waits_for_cap_witness :
  interval (host Session.recordingFrom1s) = Some (mkInterval 1000 1000)
  /\ step onlyMp4 alwaysStarts Session.recordingFrom1s (30999, IntervalFired)
     = onHost (withInterval (Some (mkInterval 1000 30999))) Session.recordingFrom1s.
Proof.
  split; [reflexivity|].
  apply (timer_waits_for_cap onlyMp4 alwaysStarts Session.recordingFrom1s
           (mkInterval 1000 1000) 30999); [reflexivity|cbn; lia].
Defined.

(** *** A start that fails *)

(** X16: a start that fails, because no format is supported or because
    the construction or the start of the recorder throws, shows one
    alert (the "unsupported" message exactly when no format was found)
    and ends with [isPlaying], [isRecording] false and no output; but
    the audio element, moved to the start offset and started before the
    negotiation, is left playing.  When [start()] throws, the recorder
    that failed is already stored, inactive, and the chunk buffer is
    already emptied; when the constructor throws, recorder and buffer
    are as before. *)
Theorem failed_start_leaves_audio_playing
        (sup : string -> bool) (out : string -> RecorderOutcome)
        (e : Editor) (a : Audio) :
  wired e a ->
  (forall t, find sup mimeTypes = Some t -> out t <> Starts) ->
  let e' := startRecording sup out e in
  isPlaying (react e') = false
  /\ isRecording (react e') = false
  /\ recordedVideoUrl (react e') = None
  /\ audioRef (refs e') = Some (mkAudio (startTime (react e)) (mediaDuration a) false)
  /\ (exists msg, alerts (host e') = (alerts (host e) ++ [msg])%list
                  /\ (msg = unsupportedMessage <-> find sup mimeTypes = None))
  /\ (forall t, find sup mimeTypes = Some t -> out t = StartThrows ->
                mediaRecorderRef (refs e') = Some (mkRecorder t inactive false (startTime (react e)))
                /\ chunksRef (refs e') = [])
  /\ (forall t, find sup mimeTypes = Some t -> out t = ConstructorThrows ->
                mediaRecorderRef (refs e') = mediaRecorderRef (refs e)
                /\ chunksRef (refs e') = chunksRef (refs e)).
Proof.
  intros (Hc & Hd & Ha) Hfail e'. subst e'. unfold startRecording.
  rewrite Ha, Hc, Hd. cbn [andb].
  revert Hfail. generalize (find sup mimeTypes). intros [t|] Hfail.
  - specialize (Hfail t eq_refl).
    assert (Hmsg : startErrorMessage <> unsupportedMessage) by discriminate.
    destruct (out t) eqn:Ho; [contradiction| |].
    all: do 4 (split; [reflexivity|]).
    all: split; [exists startErrorMessage; split; [reflexivity|];
                 split; [intros H; contradiction|discriminate]|].
    all: split; intros t' [= <-] Ho'; try congruence; split; reflexivity.
  - do 4 (split; [reflexivity|]).
    split; [exists unsupportedMessage; split; [reflexivity|]; split; reflexivity|].
    split; intros t' H; discriminate H.
Qed.

Lemma failed_start_leaves_audio_playing_witness :
  let e' := startRecording nothingSupported alwaysStarts (opened 25) in
  isPlaying (react e') = false
  /\ isRecording (react e') = false
  /\ audioRef (refs e') = Some (mkAudio 0 (Some 25%Q) false).
Proof.
  assert (Hfail : forall t, find nothingSupported mimeTypes = Some t ->
                            alwaysStarts t <> Starts)
    by (intros t H; discriminate H).
  destruct (failed_start_leaves_audio_playing nothingSupported alwaysStarts (opened 25)
              (mkAudio 0 (Some 25%Q) true) (conj eq_refl (conj eq_refl eq_refl)) Hfail)
    as (H1 & H2 & _ & H4 & _).
  split; [exact H1|]. split; [exact H2|exact H4].
Defined.

(** *** Invariants of the recording controls *)

Lemma handle_output (sup : string -> bool) (out : string -> RecorderOutcome)
      (now : Z) (ev : Event) (e : Editor) :
  (isRecording (react e) = true -> recordedVideoUrl (react e) = None) ->
  isRecording (react (handle sup out now ev e)) = true ->
  recordedVideoUrl (react (handle sup out now ev e)) = None.
Proof.
  destruct ev as [a|d| |size| | |]; cbn [handle].
  - unfold user. destruct (offered (react e) a); [|exact (fun H => H)].
    assert (H : (isRecording (react e) = true -> recordedVideoUrl (react e) = None) ->
                isRecording (react (handler sup out a e)) = true ->
                recordedVideoUrl (react (handler sup out a e)) = None).
    { open_editor e.
      destruct a; unfold handler, togglePlay, handleStartTimeChange, startRecording,
        stopRecording, requestAnimationFrame.
      4: generalize (find sup mimeTypes); intros f.
      all: cbn; try destruct au as [a|]; try destruct (audioContextRef gr);
        try destruct (cv && destRef gr); try exact (fun H => H); try reflexivity.
      all: try (destruct f as [t|]; [destruct (out t)|]; cbn;
                intros; try reflexivity; discriminate).
      all: destruct mr as [[mt [|] sq cs]|]; exact (fun H => H). }
    destruct (isClick a && _); [|exact H].
    assert (G : react (handleUserGesture (handler sup out a e)) = react (handler sup out a e)).
    { pose proof (gesture_take (handler sup out a e)) as G. unfold take in G. congruence. }
    rewrite G. exact H.
  - open_editor e. unfold loadedMetadata. cbn. destruct au; exact (fun H => H).
  - open_editor e. unfold audioEnded, stopRecording. cbn.
    destruct oe as [c|]; [destruct (isRecording c)|]; try exact (fun H => H).
    destruct mr as [[mt [|] sq cs]|]; exact (fun H => H).
  - open_editor e. unfold dataAvailable. cbn.
    destruct mr; [destruct (N.ltb 0 size)|]; exact (fun H => H).
  - open_editor e. unfold recorderStopped. cbn.
    destruct mr as [[mt st [|] cs]|]; cbn; try exact (fun H => H).
    intros _ H. discriminate H.
  - open_editor e. unfold intervalFired, intervalCallback, stopRecording. cbn.
    destruct iv as [[s0 l0]|]; [destruct (JS.ge _ _)|]; try exact (fun H => H).
    destruct mr as [[mt [|] sq cs]|]; exact (fun H => H).
  - pose proof (animationFrame_take e) as [G _]. unfold take in G.
    assert (G' : react (animationFrame e) = react e) by congruence.
    rewrite G'. exact (fun H => H).
Qed.

(** X17: in every state the component can reach, an output is never
    held while [isRecording] is true; so every render shows exactly
    one of the three recording controls: REC, Stop, or the pair
    Download and "Novo". *)
Theorem one_recording_control_at_a_time
        (songData : SongData) (ctx : bool)
        (sup : string -> bool) (out : string -> RecorderOutcome)
        (evs : list (Z * Event)) :
  let s := react (run sup out evs (mount songData ctx)) in
  (isRecording s = true -> recordedVideoUrl s = None)
  /\ (controls s = (true, false, false)
      \/ controls s = (false, true, false)
      \/ controls s = (false, false, true)).
Proof.
  intros s.
  assert (H : isRecording s = true -> recordedVideoUrl s = None).
  { subst s.
    assert (Hinv : forall e, (isRecording (react e) = true -> recordedVideoUrl (react e) = None) ->
                             isRecording (react (run sup out evs e)) = true ->
                             recordedVideoUrl (react (run sup out evs e)) = None).
    { induction evs as [|[t ev] evs IH]; intros e He; cbn [run fold_left]; [exact He|].
      apply IH. destruct (rerender_core t (react e) (handle sup out t ev e)) as (Hr & _).
      unfold step. cbn [fst snd]. rewrite Hr. apply handle_output, He. }
    apply Hinv. unfold mount, audioEffect.
    destruct (JS.truthy (url songData)); intros H; discriminate H. }
  split; [exact H|].
  unfold controls, offered.
  destruct (isRecording s); [rewrite (H eq_refl); right; left; reflexivity|].
  destruct (recordedVideoUrl s); [right; right|left]; reflexivity.
Qed.

(** X18: in every state the component can reach, the recording timer
    is armed exactly when [isRecording] is true: the effect arms it in
    the render that follows the start and its cleanup clears it in the
    render that follows the end of the recording, whatever ended it. *)
Theorem timer_armed_while_recording
        (songData : SongData) (ctx : bool)
        (sup : string -> bool) (out : string -> RecorderOutcome)
        (evs : list (Z * Event)) :
  let e := run sup out evs (mount songData ctx) in
  armed e = isRecording (react e).
Proof.
  intros e. subst e.
  assert (Hinv : forall e0, armed e0 = isRecording (react e0) ->
                            armed (run sup out evs e0) = isRecording (react (run sup out evs e0))).
  { induction evs as [|[t ev] evs IH]; intros e0 H0; cbn [run fold_left]; [exact H0|].
    apply IH.
    destruct (SessionFacts.step_core sup out t ev e0) as (Hr & _ & _ & Hi).
    destruct (SessionFacts.handle_tame sup out t ev e0) as (_ & Ht & _).
    assert (Ha : armed (handle sup out t ev e0) = armed e0).
    { unfold armed. destruct Ht as [E|(_ & i & E1 & E2)]; [rewrite E|rewrite E1, E2];
        reflexivity. }
    unfold armed in *. rewrite Hi, Hr.
    destruct (Bool.eqb (isRecording (react e0)) (isRecording (react (handle sup out t ev e0))))
      eqn:E.
    - apply eqb_prop in E. rewrite <- E, <- H0. exact Ha.
    - destruct (isRecording (react (handle sup out t ev e0))); reflexivity. }
  apply Hinv. unfold mount, audioEffect.
  destruct (JS.truthy (url songData)); reflexivity.
Qed.
End TakeFacts.

(** ** The preview: play, pause and the scheduler *)

Module PreviewFacts.
Import Editor Notions Scheduler Preview EditorFacts.
Local Open Scope nat_scope.

(** One refresh while the ref holds the handle of the only loop. *)
Lemma held_refresh (sup : string -> bool) (out : string -> RecorderOutcome)
      (c R : ReactState) au gr af mr ch iv oe cl al dl wa (t : Z) :
  (isPlaying c || isRecording c) = true ->
  step sup out (mkEditor R (mkRefs true au gr af mr ch)
                         (mkHost [(af, Loop c)] (S af) iv oe cl al dl wa)) (t, AnimationFrame)
  = mkEditor R (mkRefs true au gr (S af) mr ch)
             (mkHost [(S af, Loop c)] (S (S af)) iv oe cl al (dl ++ [c]) wa).
Proof.
  intros Hp. unfold step. cbn [fst snd handle react].
  assert (E : animationFrame (mkEditor R (mkRefs true au gr af mr ch)
                                       (mkHost [(af, Loop c)] (S af) iv oe cl al dl wa))
              = mkEditor R (mkRefs true au gr (S af) mr ch)
                         (mkHost [(S af, Loop c)] (S (S af)) iv oe cl al (dl ++ [c]) wa)).
  { unfold animationFrame. cbn [host rafQueue fold_left snd runCallback].
    unfold loop, callDrawVisualizer. cbn [onHost refs canvasRef]. rewrite Hp. reflexivity. }
  rewrite E.
  change R with (react (mkEditor R (mkRefs true au gr (S af) mr ch)
                         (mkHost [(S af, Loop c)] (S (S af)) iv oe cl al (dl ++ [c]) wa))) at 1.
  apply rerender_same.
Qed.

Lemma held_run (sup : string -> bool) (out : string -> RecorderOutcome)
      (c R : ReactState) au gr mr ch iv oe cl al wa (n : nat) :
  (isPlaying c || isRecording c) = true ->
  forall af dl,
    run sup out (refreshes n)
        (mkEditor R (mkRefs true au gr af mr ch)
                  (mkHost [(af, Loop c)] (S af) iv oe cl al dl wa))
    = mkEditor R (mkRefs true au gr (n + af) mr ch)
               (mkHost [(n + af, Loop c)] (S (n + af)) iv oe cl al (dl ++ repeat c n) wa).
Proof.
  intros Hp. induction n as [|n IH]; intros af dl.
  - cbn. rewrite app_nil_r. reflexivity.
  - change (run sup out (refreshes (S n)) ?e)
      with (run sup out (refreshes n) (step sup out e (0%Z, AnimationFrame))).
    rewrite (held_refresh sup out c R au gr af mr ch iv oe cl al dl wa 0%Z Hp), IH.
    rewrite Nat.add_succ_r. cbn [repeat]. rewrite <- app_assoc. reflexivity.
Qed.

Lemma eqb_succ (k : nat) : Nat.eqb (S k) k = false.
Proof. apply Nat.eqb_neq. lia. Qed.

(** X19: the scheduler does settle when the visualization is not
    switched during the preview.  From the editor at rest, a click on
    play, any number [n] of display refreshes, a click on play again
    (the pause) and one more refresh draw exactly [n] frames from the
    render that was playing and one settling frame from the paused
    render; after that no callback is pending, the React state is the
    one before the preview, the audio element is paused, and further
    refreshes change nothing. *)
Theorem preview_pause_settles
        (sup : string -> bool) (out : string -> RecorderOutcome)
        (e : Editor) (a : Audio) (n : nat) (t1 t2 t3 : Z) :
  atRest e a ->
  let e' := run sup out ((t1, User ClickPlay) :: refreshes n
                         ++ [(t2, User ClickPlay); (t3, AnimationFrame)]) e in
  rafQueue (host e') = []
  /\ drawLog (host e') = drawLog (host e) ++ repeat (setIsPlaying true (react e)) n ++ [react e]
  /\ react e' = react e
  /\ audioRef (refs e') = Some (pause a)
  /\ forall m, run sup out (refreshes m) e' = e'.
Proof.
  intros (Hq & Hp & Hr & Hc & Ha & Hg) e'.
  assert (Hrest : forall x : Editor, rafQueue (host x) = [] ->
                                     forall m, run sup out (refreshes m) x = x).
  { intros x Hx m. induction m as [|m IH]; [reflexivity|].
    change (run sup out (refreshes (S m)) x)
      with (run sup out (refreshes m) (step sup out x (0%Z, AnimationFrame))).
    assert (E : step sup out x (0%Z, AnimationFrame) = x).
    { unfold step. cbn [fst snd handle].
      assert (F : animationFrame x = x).
      { unfold animationFrame. rewrite Hx. destruct x as [rx fx [q nx iv oe cl al dl wa]].
        cbn in Hx. subst q. reflexivity. }
      rewrite F. apply rerender_same. }
    rewrite E. exact IH. }
  revert Hq Hp Hr Hc Ha Hg. subst e'. open_editor e. destruct gr as [ac an so de].
  cbn [host refs react rafQueue isPlaying isRecording canvasRef audioRef graph audioContextRef].
  intros -> -> -> -> -> ->.
  set (e0 := mkEditor (mkReact false false u m s d0)
                      (mkRefs true (Some a) (mkGraph true an so de) af mr ch)
                      (mkHost [] nx iv oe cl al dl wa)).
  assert (He' : run sup out ((t1, User ClickPlay) :: refreshes n
                             ++ [(t2, User ClickPlay); (t3, AnimationFrame)]) e0
                = step sup out
                    (step sup out
                       (run sup out (refreshes n) (step sup out e0 (t1, User ClickPlay)))
                       (t2, User ClickPlay))
                    (t3, AnimationFrame)).
  { unfold run. cbn [fold_left]. rewrite fold_left_app. reflexivity. }
  rewrite He'. subst e0. clear He'.
  set (playing := mkReact true false u m s d0).
  assert (E1 : step sup out
                 (mkEditor (mkReact false false u m s d0)
                    (mkRefs true (Some a) (mkGraph true an so de) af mr ch)
                    (mkHost [] nx iv oe cl al dl wa)) (t1, User ClickPlay)
               = mkEditor playing (mkRefs true (Some (play a)) (mkGraph true an so de) nx mr ch)
                          (mkHost [(nx, Loop playing)] (S nx) iv oe false al dl wa)).
  { destruct cl, m; reflexivity. }
  rewrite E1, (held_run sup out playing playing _ _ _ _ _ _ _ _ _ n eq_refl nx dl).
  generalize (n + nx). intros k.
  assert (E2 : step sup out
                 (mkEditor playing
                    (mkRefs true (Some (play a)) (mkGraph true an so de) k mr ch)
                    (mkHost [(k, Loop playing)] (S k) iv oe false al (dl ++ repeat playing n) wa))
                 (t2, User ClickPlay)
               = mkEditor (mkReact false false u m s d0)
                   (mkRefs true (Some (pause (play a))) (mkGraph true an so de) k mr ch)
                   (mkHost [(S k, Loop (mkReact false false u m s d0))] (S (S k)) iv oe false al
                           (dl ++ repeat playing n) wa)).
  { subst playing. unfold step. cbn [fst snd handle].
    assert (U : user sup out ClickPlay
                  (mkEditor (mkReact true false u m s d0)
                     (mkRefs true (Some (play a)) (mkGraph true an so de) k mr ch)
                     (mkHost [(k, Loop (mkReact true false u m s d0))] (S k) iv oe false al
                             (dl ++ repeat (mkReact true false u m s d0) n) wa))
                = mkEditor (mkReact false false u m s d0)
                    (mkRefs true (Some (pause (play a))) (mkGraph true an so de) k mr ch)
                    (mkHost [(k, Loop (mkReact true false u m s d0))] (S k) iv oe false al
                            (dl ++ repeat (mkReact true false u m s d0) n) wa))
      by reflexivity.
    rewrite U. unfold rerender.
    cbn [react isRecording isPlaying visualizerMode Bool.eqb negb orb].
    rewrite modeEqb_refl. cbn [negb orb].
    unfold schedulerEffect, requestAnimationFrame, cancelAnimationFrame.
    cbn [isPlaying host rafNext rafQueue app onHost onRefs withRaf refs react
         animationFrameRef interval onended clickListener alerts drawLog].
    unfold onHost, withRaf.
    cbn [host rafNext rafQueue refs react interval onended clickListener alerts drawLog
         filter fst negb].
    rewrite Nat.eqb_refl, eqb_succ. reflexivity. }
  rewrite E2.
  assert (E3 : step sup out
                 (mkEditor (mkReact false false u m s d0)
                   (mkRefs true (Some (pause (play a))) (mkGraph true an so de) k mr ch)
                   (mkHost [(S k, Loop (mkReact false false u m s d0))] (S (S k)) iv oe false al
                           (dl ++ repeat playing n) wa))
                 (t3, AnimationFrame)
               = mkEditor (mkReact false false u m s d0)
                   (mkRefs true (Some (pause (play a))) (mkGraph true an so de) k mr ch)
                   (mkHost [] (S (S k)) iv oe false al
                           ((dl ++ repeat playing n) ++ [mkReact false false u m s d0]) wa)).
  { subst playing. unfold step. cbn [fst snd handle]. unfold animationFrame.
    cbn [host rafQueue fold_left snd runCallback]. unfold loop, callDrawVisualizer.
    cbn [onHost refs canvasRef isPlaying isRecording orb react].
    unfold rerender. cbn [react isRecording isPlaying visualizerMode Bool.eqb negb].
    rewrite modeEqb_refl. reflexivity. }
  rewrite E3.
  split; [reflexivity|]. split; [cbn; rewrite <- app_assoc; reflexivity|].
  split; [reflexivity|]. split; [destruct a; reflexivity|].
  apply Hrest. reflexivity.
Qed.

Lemma preview_pause_settles_witness :
  let e' := run onlyMp4 alwaysStarts
                ((10%Z, User ClickPlay) :: refreshes 3
                 ++ [(30%Z, User ClickPlay); (40%Z, AnimationFrame)]) (opened 25) in
  rafQueue (host e') = []
  /\ drawLog (host e')
     = drawLog (host (opened 25)) ++ repeat (setIsPlaying true (react (opened 25))) 3
       ++ [react (opened 25)]
  /\ react e' = react (opened 25)
  /\ audioRef (refs e') = Some (pause (mkAudio 0 (Some 25%Q) true))
  /\ forall m, run onlyMp4 alwaysStarts (refreshes m) e' = e'.
Proof.
  apply (preview_pause_settles onlyMp4 alwaysStarts (opened 25) (mkAudio 0 (Some 25%Q) true)
           3 10%Z 30%Z 40%Z).
  repeat split.
Defined.

(** X20: the scheduler also settles after a take that is stopped by
    hand.  From the editor at rest with no output held, on a platform
    on which the recorder starts: REC, [n] refreshes, Stop, [k]
    refreshes, the [stop] event and one more refresh draw [n + k]
    frames from the render that was recording and one settling frame
    from the render that holds the output; then no callback is pending,
    the timer is cleared, and further refreshes change nothing. *)
Theorem take_settles_scheduler
        (sup : string -> bool) (out : string -> RecorderOutcome)
        (e : Editor) (a : Audio) (ty : string) (n k : nat) (t0 t1 t2 t3 : Z) :
  atRest e a -> destRef (graph (refs e)) = true -> recordedVideoUrl (react e) = None ->
  find sup mimeTypes = Some ty -> out ty = Starts ->
  let recordingRender :=
      setRecordedVideoUrl None (setIsRecording true (setIsPlaying true (react e))) in
  let e' := run sup out ((t0, User ClickRec) :: refreshes n
                         ++ (t1, User ClickStop) :: refreshes k
                         ++ [(t2, RecorderStop); (t3, AnimationFrame)]) e in
  rafQueue (host e') = []
  /\ interval (host e') = None
  /\ react e' = setRecordedVideoUrl (Some (mkBlob [] ty)) (react e)
  /\ drawLog (host e')
     = drawLog (host e) ++ repeat recordingRender (n + k) ++ [react e']
  /\ forall m, run sup out (refreshes m) e' = e'.
Proof.
  intros (Hq & Hp & Hr & Hc & Ha & Hg) Hd Hu Hf Ho recordingRender e'.
  assert (Hrest : forall x : Editor, rafQueue (host x) = [] ->
                                     forall m, run sup out (refreshes m) x = x).
  { intros x Hx m. induction m as [|m IH]; [reflexivity|].
    change (run sup out (refreshes (S m)) x)
      with (run sup out (refreshes m) (step sup out x (0%Z, AnimationFrame))).
    assert (E : step sup out x (0%Z, AnimationFrame) = x).
    { unfold step. cbn [fst snd handle].
      assert (F : animationFrame x = x).
      { unfold animationFrame. rewrite Hx. destruct x as [rx fx [q nx iv oe cl al dl wa]].
        cbn in Hx. subst q. reflexivity. }
      rewrite F. apply rerender_same. }
    rewrite E. exact IH. }
  revert Hq Hp Hr Hc Ha Hg Hd Hu. subst e' recordingRender.
  open_editor e. destruct gr as [ac an so de].
  cbn [host refs react rafQueue isPlaying isRecording canvasRef audioRef graph audioContextRef
       destRef recordedVideoUrl].
  intros -> -> -> -> -> -> -> ->.
  set (e0 := mkEditor (mkReact false false None m s d0)
                      (mkRefs true (Some a) (mkGraph true an so true) af mr ch)
                      (mkHost [] nx iv oe cl al dl wa)).
  assert (He' : run sup out ((t0, User ClickRec) :: refreshes n
                             ++ (t1, User ClickStop) :: refreshes k
                             ++ [(t2, RecorderStop); (t3, AnimationFrame)]) e0
                = step sup out
                    (step sup out
                       (run sup out (refreshes k)
                          (step sup out
                             (run sup out (refreshes n) (step sup out e0 (t0, User ClickRec)))
                             (t1, User ClickStop)))
                       (t2, RecorderStop))
                    (t3, AnimationFrame)).
  { unfold run. cbn [fold_left]. rewrite fold_left_app. cbn [fold_left].
    rewrite fold_left_app. reflexivity. }
  rewrite He'. clear He'.
  assert (E1 : step sup out e0 (t0, User ClickRec)
               = mkEditor (mkReact true true None m s d0)
                   (mkRefs true (Some (play (seek s a))) (mkGraph true an so true) nx
                           (Some (mkRecorder ty recording false s)) [])
                   (mkHost [(nx, Loop (mkReact true true None m s d0))] (S nx)
                           (Some (mkInterval t0 t0)) oe false al dl wa)).
  { subst e0. unfold step. cbn [fst snd handle]. unfold user.
    cbn [offered react isRecording recordedVideoUrl negb andb handler].
    match goal with |- context [startRecording sup out ?x] =>
      rewrite (CaptureFacts.start_proceeds sup out x a ty
                 (conj eq_refl (conj eq_refl eq_refl)) Hf Ho)
    end.
    destruct cl, m; reflexivity. }
  rewrite E1. clear E1 e0.
  rewrite (held_run sup out (mkReact true true None m s d0) (mkReact true true None m s d0)
             _ _ _ _ _ _ _ _ _ n eq_refl nx dl).
  generalize (n + nx). intros j.
  assert (E2 : forall q dl',
             step sup out
               (mkEditor (mkReact true true None m s d0)
                  (mkRefs true (Some (play (seek s a))) (mkGraph true an so true) j
                          (Some (mkRecorder ty recording false s)) [])
                  (mkHost q (S j) (Some (mkInterval t0 t0)) oe false al dl' wa))
               (t1, User ClickStop)
             = mkEditor (mkReact true true None m s d0)
                  (mkRefs true (Some (play (seek s a))) (mkGraph true an so true) j
                          (Some (mkRecorder ty inactive true s)) [])
                  (mkHost q (S j) (Some (mkInterval t0 t0)) oe false al dl' wa)).
  { intros q dl'. unfold step. cbn [fst snd handle].
    match goal with |- rerender _ _ ?x = ?y => assert (U : x = y) by reflexivity end.
    rewrite U.
    match goal with |- rerender _ ?r ?x = _ => change r with (react x) end.
    apply rerender_same. }
  rewrite E2. clear E2.
  rewrite (held_run sup out (mkReact true true None m s d0) (mkReact true true None m s d0)
             _ _ _ _ _ _ _ _ _ k eq_refl j).
  generalize (k + j). intros i.
  rewrite <- app_assoc, <- repeat_app.
  set (log := dl ++ repeat (mkReact true true None m s d0) (n + k)).
  assert (E3 : step sup out
                 (mkEditor (mkReact true true None m s d0)
                    (mkRefs true (Some (play (seek s a))) (mkGraph true an so true) i
                            (Some (mkRecorder ty inactive true s)) [])
                    (mkHost [(i, Loop (mkReact true true None m s d0))] (S i)
                            (Some (mkInterval t0 t0)) oe false al log wa))
                 (t2, RecorderStop)
               = mkEditor (mkReact false false (Some (mkBlob [] ty)) m s d0)
                   (mkRefs true (Some (seek s (pause (play (seek s a)))))
                           (mkGraph true an so true) i
                           (Some (mkRecorder ty inactive false s)) [])
                   (mkHost [(S i, Loop (mkReact false false (Some (mkBlob [] ty)) m s d0))]
                           (S (S i)) None oe false al log wa)).
  { unfold step. cbn [fst snd handle].
    match goal with |- rerender _ _ ?x = _ =>
      assert (U : x = mkEditor (mkReact false false (Some (mkBlob [] ty)) m s d0)
                   (mkRefs true (Some (seek s (pause (play (seek s a)))))
                           (mkGraph true an so true) i
                           (Some (mkRecorder ty inactive false s)) [])
                   (mkHost [(i, Loop (mkReact true true None m s d0))] (S i)
                           (Some (mkInterval t0 t0)) oe false al log wa))
        by reflexivity
    end.
    rewrite U. unfold rerender.
    cbn [react isRecording isPlaying visualizerMode Bool.eqb negb orb].
    rewrite modeEqb_refl. cbn [negb orb].
    unfold timerEffect, timerCleanup, schedulerEffect, requestAnimationFrame,
      cancelAnimationFrame, onHost, onRefs, withRaf, withInterval, withAnimationFrame.
    cbn [isPlaying isRecording host rafNext rafQueue app refs react
         animationFrameRef interval onended clickListener alerts drawLog
         filter fst negb].
    rewrite Nat.eqb_refl, eqb_succ. reflexivity. }
  rewrite E3. clear E3.
  assert (E4 : step sup out
                 (mkEditor (mkReact false false (Some (mkBlob [] ty)) m s d0)
                   (mkRefs true (Some (seek s (pause (play (seek s a)))))
                           (mkGraph true an so true) i
                           (Some (mkRecorder ty inactive false s)) [])
                   (mkHost [(S i, Loop (mkReact false false (Some (mkBlob [] ty)) m s d0))]
                           (S (S i)) None oe false al log wa))
                 (t3, AnimationFrame)
               = mkEditor (mkReact false false (Some (mkBlob [] ty)) m s d0)
                   (mkRefs true (Some (seek s (pause (play (seek s a)))))
                           (mkGraph true an so true) i
                           (Some (mkRecorder ty inactive false s)) [])
                   (mkHost [] (S (S i)) None oe false al
                           (log ++ [mkReact false false (Some (mkBlob [] ty)) m s d0]) wa)).
  { unfold step. cbn [fst snd handle]. unfold animationFrame.
    cbn [host rafQueue fold_left snd runCallback]. unfold loop, callDrawVisualizer.
    cbn [onHost refs canvasRef isPlaying isRecording orb react].
    unfold rerender. cbn [react isRecording isPlaying visualizerMode Bool.eqb negb].
    rewrite modeEqb_refl. reflexivity. }
  rewrite E4.
  split; [reflexivity|]. split; [reflexivity|]. split; [reflexivity|].
  split; [|apply Hrest; reflexivity].
  subst log. cbn [host drawLog react]. rewrite <- app_assoc. reflexivity.
Qed.

Lemma take_settles_scheduler_witness :
  let e' := run onlyMp4 alwaysStarts
                ((1000%Z, User ClickRec) :: refreshes 2
                 ++ (9000%Z, User ClickStop) :: refreshes 1
                 ++ [(9002%Z, RecorderStop); (9010%Z, AnimationFrame)]) (opened 25) in
  rafQueue (host e') = []
  /\ interval (host e') = None
  /\ react e' = setRecordedVideoUrl (Some (mkBlob [] "video/mp4")) (react (opened 25))
  /\ drawLog (host e')
     = drawLog (host (opened 25))
       ++ repeat (setRecordedVideoUrl None
                    (setIsRecording true (setIsPlaying true (react (opened 25))))) (2 + 1)
       ++ [react e']
  /\ forall m, run onlyMp4 alwaysStarts (refreshes m) e' = e'.
Proof.
  apply (take_settles_scheduler onlyMp4 alwaysStarts (opened 25) (mkAudio 0 (Some 25%Q) true)
           "video/mp4" 2 1 1000%Z 9000%Z 9002%Z 9010%Z);
    [repeat split|reflexivity|reflexivity|reflexivity|reflexivity].
Defined.
End PreviewFacts.

(** ** The removal of the editor *)

Module UnmountFacts.
Import Editor Notions Unmount EditorFacts.





End UnmountFacts.

(** ** The name of the download *)

Module NamesFacts.
Import Names.
Local Open Scope string_scope.

Lemma allChars_app (p : ascii -> bool) (a b : string) :
  Download.allChars p (a ++ b) = Download.allChars p a && Download.allChars p b.
Proof.
  induction a as [|c a IH]; cbn; [reflexivity|]. rewrite IH, andb_assoc. reflexivity.
Qed.

Lemma replaceWs_clean (s : string) :
  forall inRun, Download.allChars notWhiteSpace (JS.replaceWs "-" inRun s) = true.
Proof.
  induction s as [|c s IH]; intros inRun; [reflexivity|].
  cbn [JS.replaceWs]. destruct (JS.isWhiteSpace c) eqn:W.
  - destruct inRun; [apply IH|]. cbn [append Download.allChars].
    rewrite IH. reflexivity.
  - cbn [Download.allChars]. unfold notWhiteSpace at 1. rewrite W, IH. reflexivity.
Qed.

Lemma replaceWs_plain (s : string) :
  Download.allChars notWhiteSpace s = true -> JS.replaceWs "-" false s = s.
Proof.
  induction s as [|c s IH]; [reflexivity|].
  cbn [Download.allChars JS.replaceWs]. intros H. apply andb_prop in H as [Hc Hs].
  unfold notWhiteSpace in Hc. apply negb_true_iff in Hc. rewrite Hc, (IH Hs). reflexivity.
Qed.

(** X22: whatever the title of the song, the name [downloadVideo]
    gives the file contains no white-space character; and a title
    without white space is taken over unchanged, between "StatusBeat-"
    and ".webm". *)
Theorem download_name_has_no_white_space (songData : Render.SongData) :
  Download.allChars notWhiteSpace (Editor.downloadName songData) = true
  /\ (Download.allChars notWhiteSpace (Render.name songData) = true ->
      Editor.downloadName songData = "StatusBeat-" ++ Render.name songData ++ ".webm").
Proof.
  unfold Editor.downloadName, JS.replaceWhitespaceRuns. split.
  - rewrite !allChars_app, replaceWs_clean. reflexivity.
  - intros H. rewrite (replaceWs_plain _ H). reflexivity.
Qed.
End NamesFacts.

(** ** The application around the editor *)

Module AppFacts.
Import Names App NamesFacts.
Local Open Scope string_scope.

(** No position before the last dot matches: what follows has a dot. *)
Lemma stripExtension_app (base ext : string) :
  isExtension (String "." ext) = true ->
  stripExtension (base ++ String "." ext) = base.
Proof.
  intros He. induction base as [|c base IH].
  - cbn [append stripExtension]. rewrite He. reflexivity.
  - cbn [append stripExtension]. rewrite IH.
    destruct (isExtension (String c (base ++ String "." ext))) eqn:E; [|reflexivity].
    exfalso. cbn [isExtension] in E.
    apply andb_prop in E as [_ E]. rewrite allChars_app in E.
    apply andb_prop in E as [_ E]. cbn in E. discriminate E.
Qed.

Lemma stripExtension_no_dot (s : string) :
  Download.allChars (fun c => negb (Ascii.eqb c ".")) s = true -> stripExtension s = s.
Proof.
  induction s as [|c s IH]; [reflexivity|].
  cbn [Download.allChars stripExtension isExtension]. intros H.
  apply andb_prop in H as [Hc Hs]. apply negb_true_iff in Hc. rewrite Hc. cbn [andb].
  rewrite (IH Hs). reflexivity.
Qed.

Lemma stripExtension_prefix (s : string) : exists rest, s = stripExtension s ++ rest.
Proof.
  induction s as [|c s [rest IH]]; [exists ""; reflexivity|].
  cbn [stripExtension]. destruct (isExtension (String c s)).
  - exists (String c s). reflexivity.
  - exists rest. cbn [append]. rewrite <- IH. reflexivity.
Qed.

(** X23: [handleAudioUpload] takes the first of the chosen files, goes
    to step 2 and names the song after the file without its last
    extension: for a file name [base.ext], [ext] not empty and free of
    "." and "/", the song name is [base], earlier dots of [base] kept;
    a file name without any dot is taken as it is; and the song name is
    always the beginning of the file name. *)
Theorem upload_strips_last_extension
        (createObjectURL : File -> string) (base ext : string) (rest : list File)
        (s : State) :
  ext <> "" -> Download.allChars extensionChar ext = true ->
  let s' := handleAudioUpload createObjectURL (mkFile (base ++ "." ++ ext) :: rest) s in
  name (songData s') = base
  /\ step s' = 2%nat
  /\ (forall plain, Download.allChars (fun c => negb (Ascii.eqb c ".")) plain = true ->
                    name (songData (handleAudioUpload createObjectURL (mkFile plain :: rest) s))
                    = plain)
  /\ (forall any, exists tail,
         any = name (songData (handleAudioUpload createObjectURL (mkFile any :: rest) s))
               ++ tail).
Proof.
  intros Hne Hext s'. subst s'. cbn [handleAudioUpload setStep setSongData songData name step
                                      fileName].
  split; [|split; [reflexivity|split]].
  - apply stripExtension_app. cbn [isExtension]. rewrite Hext.
    destruct ext; [contradiction|reflexivity].
  - intros plain Hp. apply stripExtension_no_dot, Hp.
  - intros any. apply stripExtension_prefix.
Qed.

Lemma upload_strips_last_extension_witness :
  let s' := handleAudioUpload (fun f => "blob:" ++ fileName f)
                              [mkFile "My  Song.final.mp3"] initialState in
  name (songData s') = "My  Song.final" /\ step s' = 2%nat.
Proof.
  destruct (upload_strips_last_extension (fun f => "blob:" ++ fileName f)
              "My  Song.final" "mp3" [] initialState
              ltac:(discriminate) eq_refl) as (H1 & H2 & _).
  split; [exact H1|exact H2].
Defined.

(** X24: in every state the application can reach, the [error] of the
    generation state is [null]: the message that the [catch] of
    [handleAiGeneration] sets is overwritten by its [finally] before
    any render, so the error paragraph is never shown; a generation
    that failed leaves the state as a state update that only clears
    the two flags would. *)
Theorem generation_error_is_never_shown
        (createObjectURL : File -> string) (evs : list Event) :
  error (aiState (state (run createObjectURL evs start))) = None
  /\ forall s, generationSettled None s = setAiState (fun _ => idle) s.
Proof.
  split; [|reflexivity].
  assert (H : forall r, error (aiState (state r)) = None ->
                        error (aiState (state (run createObjectURL evs r))) = None).
  { induction evs as [|ev evs IH]; intros r Hr; cbn [run fold_left]; [exact Hr|].
    apply IH. unfold next. destruct (offered r ev); [|exact Hr].
    destruct ev; cbn [handle state];
      unfold handleAudioUpload, imageLoaded, handleAiGeneration, generationSettled;
      try destruct files; try destruct (JS.truthy _);
      try destruct outcome as [[image caption]|]; try exact Hr; reflexivity. }
  apply H. reflexivity.
Qed.

(** X25: [reset] does not cancel a generation in flight.  From step 2
    with a mood and no generation running, a click on "Gerar" followed
    by a reset gives the initial state but for the two flags, which
    still say that a generation is running, and the requests stay
    pending, made with the mood and the song name of the click; when
    they succeed, the generated image and caption are stored although
    the song is gone and the application is back on step 1. *)
Theorem reset_keeps_generation_in_flight
        (createObjectURL : File -> string) (r : Running) (image caption : string) :
  step (state r) = 2%nat ->
  isGeneratingImage (aiState (state r)) = false ->
  JS.truthy (Some (mood (state r))) = true ->
  let clicked := run createObjectURL [ClickGenerate; ClickReset] r in
  let settled := next createObjectURL clicked (GenerationSettled (Some (image, caption))) in
  state clicked = mkState noSong noVisual 1 (mkAi true true None) ""
  /\ pending clicked
     = Some (mkRequest (mood (state r)) (name (songData (state r))) (mood (state r)))
  /\ state settled
     = mkState noSong {| Render.backgroundImage := Some image; Render.caption := caption |}
               1 idle ""
  /\ pending settled = None.
Proof.
  intros Hstep Hgen Hmood clicked settled. subst settled clicked.
  destruct r as [[sd vd st [gi gc er] md] pe]. cbn in Hstep, Hgen, Hmood. subst st gi.
  destruct md as [|c md]; [discriminate Hmood|].
  repeat split; reflexivity.
Qed.

Lemma reset_keeps_generation_in_flight_witness :
  let r := mkRunning (mkState (mkSong (Some (mkFile "a.mp3")) (Some "blob:a") "a")
                              noVisual 2 idle "chuva") None in
  let clicked := run (fun f => "blob:" ++ fileName f) [ClickGenerate; ClickReset] r in
  let settled := next (fun f => "blob:" ++ fileName f) clicked
                      (GenerationSettled (Some ("data:image/png;base64,AA", "la la"))) in
  state clicked = mkState noSong noVisual 1 (mkAi true true None) ""
  /\ pending clicked = Some (mkRequest "chuva" "a" "chuva")
  /\ state settled
     = mkState noSong {| Render.backgroundImage := Some "data:image/png;base64,AA";
                         Render.caption := "la la" |} 1 idle ""
  /\ pending settled = None.
Proof.
  exact (reset_keeps_generation_in_flight (fun f => "blob:" ++ fileName f)
           (mkRunning (mkState (mkSong (Some (mkFile "a.mp3")) (Some "blob:a") "a")
                               noVisual 2 idle "chuva") None)
           "data:image/png;base64,AA" "la la" eq_refl eq_refl eq_refl).
Defined.

(** X26: the name of the download of an uploaded song.  For a file
    [base.ext], [ext] not empty and free of "." and "/" and [base]
    free of white space, the editor given the song of [App] names its
    download "StatusBeat-base.webm": the extension of the upload is
    replaced. *)
Theorem uploaded_song_download_name
        (createObjectURL : File -> string) (base ext : string) (rest : list File)
        (s : State) :
  ext <> "" -> Download.allChars extensionChar ext = true ->
  Download.allChars notWhiteSpace base = true ->
  Editor.downloadName
    (editorSong (handleAudioUpload createObjectURL (mkFile (base ++ "." ++ ext) :: rest) s))
  = "StatusBeat-" ++ base ++ ".webm".
Proof.
  intros Hne Hext Hbase.
  unfold Editor.downloadName, JS.replaceWhitespaceRuns, editorSong, handleAudioUpload.
  cbn [setStep setSongData songData name fileName Render.name].
  change (base ++ "." ++ ext) with (base ++ String "." ext).
  rewrite stripExtension_app.
  - rewrite (replaceWs_plain _ Hbase). reflexivity.
  - cbn [isExtension]. rewrite Hext. destruct ext; [contradiction|reflexivity].
Qed.

Lemma uploaded_song_download_name_witness :
  Editor.downloadName
    (editorSong (handleAudioUpload (fun f => "blob:" ++ fileName f)
                                   [mkFile "Lua.v2.mp3"] initialState))
  = "StatusBeat-Lua.v2.webm".
Proof.
  exact (uploaded_song_download_name (fun f => "blob:" ++ fileName f) "Lua.v2" "mp3" []
           initialState ltac:(discriminate) eq_refl eq_refl).
Defined.
End AppFacts.
